(** * Developer-Portal: the template store and its cascading removals

    A shallow embedding of [template-store.service.ts] (the
    [TemplateStoreService] class, [safeParseState], [defaultState]) and of
    the entity shapes of [templates.model.ts], followed by the properties
    of the cascade-delete engine and of the persistence adapter.

    Conventions of the embedding.
    - A TypeScript [string[]] is a [list string]; a [Set<string>] is a
      [gset string]; a [Record<string, string>] is a [gmap string string].
    - An optional property ([description?: string]) is an [option string];
      a property holding [undefined] and an absent property are the same
      value [None].
    - [Array.prototype.filter] is stdpp's [filter], [map] is [fmap]
      ([<$>]), [some] is a decidable [Exists], [every] a decidable
      [Forall]; [l.length > 0] is written [0 < length l].
    - An object spread that overrides one property
      ([{ ...book, pageInstanceIds: l }]) is a record built field by field.
    - Each method of the service reads [this.stateSubject.value], computes
      the next snapshot and hands it to [setState]. The computation is the
      function named after the method, from the current snapshot and the
      arguments to the next snapshot; [setState] and the service around it
      ([Service], [perform]) come after the storage medium.
    - The ids drawn by [createId] and the behaviour of [JSON.stringify],
      [JSON.parse] and [localStorage] belong to the environment and are
      inputs of the model. *)

From Stdlib Require Import QArith Qcanon.
From stdpp Require Import base decidable option numbers list sets gmap strings.

Local Open Scope string_scope.

(** ** Entity shapes ([templates.model.ts]) *)

Inductive FieldType := short_text | long_text | number | date.

Module PageTemplateField.
Record t := mk {
  id : string;
  name : string;
  type : FieldType;
  description : option string;
}.
End PageTemplateField.

Module PageTemplate.
Record t := mk {
  id : string;
  name : string;
  description : option string;
  fields : list PageTemplateField.t;
}.
End PageTemplate.

Module BookTemplate.
Record t := mk {
  id : string;
  name : string;
  description : option string;
  pageTemplateIds : list string;
}.
End BookTemplate.

Module CatalogTemplate.
Record t := mk {
  id : string;
  name : string;
  description : option string;
  bookTemplateIds : list string;
}.
End CatalogTemplate.

Module PageInstance.
Record t := mk {
  id : string;
  templateId : string;
  title : string;
  values : gmap string string;
}.
End PageInstance.

Module BookInstance.
Record t := mk {
  id : string;
  templateId : string;
  title : string;
  pageInstanceIds : list string;
}.
End BookInstance.

Module CatalogInstance.
Record t := mk {
  id : string;
  templateId : string;
  title : string;
  bookInstanceIds : list string;
}.
End CatalogInstance.

Record TemplateState := mkState {
  pageTemplates : list PageTemplate.t;
  bookTemplates : list BookTemplate.t;
  catalogTemplates : list CatalogTemplate.t;
  pages : list PageInstance.t;
  books : list BookInstance.t;
  catalogs : list CatalogInstance.t;
}.

Definition defaultState : TemplateState :=
  {| pageTemplates := []; bookTemplates := []; catalogTemplates := [];
     pages := []; books := []; catalogs := [] |}.

(** ** Object spreads with one overridden property *)

(** [{ ...book, pageInstanceIds: l }] *)
Definition with_pageInstanceIds (book : BookInstance.t) (l : list string)
  : BookInstance.t :=
  {| BookInstance.id := BookInstance.id book;
     BookInstance.templateId := BookInstance.templateId book;
     BookInstance.title := BookInstance.title book;
     BookInstance.pageInstanceIds := l |}.

(** [{ ...catalog, bookInstanceIds: l }] *)
Definition with_bookInstanceIds (catalog : CatalogInstance.t) (l : list string)
  : CatalogInstance.t :=
  {| CatalogInstance.id := CatalogInstance.id catalog;
     CatalogInstance.templateId := CatalogInstance.templateId catalog;
     CatalogInstance.title := CatalogInstance.title catalog;
     CatalogInstance.bookInstanceIds := l |}.

(** [{ ...bookTemplate, pageTemplateIds: l }] *)
Definition with_pageTemplateIds (bookTemplate : BookTemplate.t) (l : list string)
  : BookTemplate.t :=
  {| BookTemplate.id := BookTemplate.id bookTemplate;
     BookTemplate.name := BookTemplate.name bookTemplate;
     BookTemplate.description := BookTemplate.description bookTemplate;
     BookTemplate.pageTemplateIds := l |}.

(** [{ ...catalogTemplate, bookTemplateIds: l }] *)
Definition with_bookTemplateIds (catalogTemplate : CatalogTemplate.t)
    (l : list string) : CatalogTemplate.t :=
  {| CatalogTemplate.id := CatalogTemplate.id catalogTemplate;
     CatalogTemplate.name := CatalogTemplate.name catalogTemplate;
     CatalogTemplate.description := CatalogTemplate.description catalogTemplate;
     CatalogTemplate.bookTemplateIds := l |}.

(** ** The remove operations, as functions of the current snapshot *)

(** [removePageTemplate], lines 77-127. The local constants of the method
    are kept as separate definitions so that statements can name them. *)

Definition rpt_pagesToRemove (current : TemplateState) (templateId : string)
  : gset string :=
  list_to_set (PageInstance.id <$>
    filter (λ page, PageInstance.templateId page = templateId) (pages current)).

Definition rpt_updatedBooks (current : TemplateState) (templateId : string)
  : list BookInstance.t :=
  filter (λ book, 0 < length (BookInstance.pageInstanceIds book))
    ((λ book, with_pageInstanceIds book
        (filter (λ id, id ∉ rpt_pagesToRemove current templateId)
                (BookInstance.pageInstanceIds book)))
     <$> books current).

Definition rpt_updatedBookTemplates (current : TemplateState)
    (templateId : string) : list BookTemplate.t :=
  filter (λ template, 0 < length (BookTemplate.pageTemplateIds template))
    ((λ bookTemplate,
        let filteredPages :=
          filter (λ id, id ≠ templateId) (BookTemplate.pageTemplateIds bookTemplate) in
        with_pageTemplateIds bookTemplate filteredPages)
     <$> bookTemplates current).

Definition rpt_validBookTemplateIds (current : TemplateState)
    (templateId : string) : gset string :=
  list_to_set (BookTemplate.id <$> rpt_updatedBookTemplates current templateId).

Definition rpt_booksAfterTemplateCleanup (current : TemplateState)
    (templateId : string) : list BookInstance.t :=
  filter (λ book, BookInstance.templateId book
                    ∈ rpt_validBookTemplateIds current templateId)
    (rpt_updatedBooks current templateId).

Definition rpt_removedBookIds (current : TemplateState) (templateId : string)
  : gset string :=
  list_to_set
    (filter (λ id, ¬ Exists (λ book, BookInstance.id book = id)
                      (rpt_booksAfterTemplateCleanup current templateId))
       (BookInstance.id <$> books current)).

Definition rpt_cleanedCatalogs (current : TemplateState) (templateId : string)
  : list CatalogInstance.t :=
  filter (λ catalog, 0 < length (CatalogInstance.bookInstanceIds catalog))
    ((λ catalog, with_bookInstanceIds catalog
        (filter (λ id, id ∉ rpt_removedBookIds current templateId)
                (CatalogInstance.bookInstanceIds catalog)))
     <$> catalogs current).

Definition rpt_cleanedCatalogTemplates (current : TemplateState)
    (templateId : string) : list CatalogTemplate.t :=
  filter (λ template, 0 < length (CatalogTemplate.bookTemplateIds template))
    ((λ catalogTemplate, with_bookTemplateIds catalogTemplate
        (filter (λ id, id ∈ rpt_validBookTemplateIds current templateId)
                (CatalogTemplate.bookTemplateIds catalogTemplate)))
     <$> catalogTemplates current).

Definition removePageTemplate (current : TemplateState) (templateId : string)
  : TemplateState :=
  {| pageTemplates :=
       filter (λ template, PageTemplate.id template ≠ templateId)
              (pageTemplates current);
     pages :=
       filter (λ page, PageInstance.templateId page ≠ templateId) (pages current);
     bookTemplates := rpt_updatedBookTemplates current templateId;
     books := rpt_booksAfterTemplateCleanup current templateId;
     catalogTemplates := rpt_cleanedCatalogTemplates current templateId;
     catalogs := rpt_cleanedCatalogs current templateId |}.

(** [removeBookTemplate], lines 144-164. *)

Definition rbt_booksToRemove (current : TemplateState) (templateId : string)
  : gset string :=
  list_to_set (BookInstance.id <$>
    filter (λ book, BookInstance.templateId book = templateId) (books current)).

Definition rbt_updatedCatalogs (current : TemplateState) (templateId : string)
  : list CatalogInstance.t :=
  filter (λ catalog,
            Forall (λ id, id ∉ rbt_booksToRemove current templateId)
                   (CatalogInstance.bookInstanceIds catalog))
    (catalogs current).

Definition rbt_updatedCatalogTemplates (current : TemplateState)
    (templateId : string) : list CatalogTemplate.t :=
  filter (λ template, 0 < length (CatalogTemplate.bookTemplateIds template))
    ((λ template, with_bookTemplateIds template
        (filter (λ id, id ≠ templateId) (CatalogTemplate.bookTemplateIds template)))
     <$> catalogTemplates current).

Definition removeBookTemplate (current : TemplateState) (templateId : string)
  : TemplateState :=
  {| pageTemplates := pageTemplates current;
     pages := pages current;
     bookTemplates :=
       filter (λ template, BookTemplate.id template ≠ templateId)
              (bookTemplates current);
     books :=
       filter (λ book, BookInstance.templateId book ≠ templateId) (books current);
     catalogs := rbt_updatedCatalogs current templateId;
     catalogTemplates := rbt_updatedCatalogTemplates current templateId |}.

(** [removeCatalogTemplate], lines 181-188. *)
Definition removeCatalogTemplate (current : TemplateState) (templateId : string)
  : TemplateState :=
  {| pageTemplates := pageTemplates current;
     bookTemplates := bookTemplates current;
     pages := pages current;
     books := books current;
     catalogTemplates :=
       filter (λ template, CatalogTemplate.id template ≠ templateId)
              (catalogTemplates current);
     catalogs :=
       filter (λ catalog, CatalogInstance.templateId catalog ≠ templateId)
              (catalogs current) |}.

(** [removePageInstance], lines 204-228. *)

Definition rpi_updatedBooks (current : TemplateState) (pageId : string)
  : list BookInstance.t :=
  filter (λ book, 0 < length (BookInstance.pageInstanceIds book))
    ((λ book, with_pageInstanceIds book
        (filter (λ id, id ≠ pageId) (BookInstance.pageInstanceIds book)))
     <$> books current).

Definition rpi_removedBookIds (current : TemplateState) (pageId : string)
  : gset string :=
  list_to_set
    (filter (λ id, ¬ Exists (λ book, BookInstance.id book = id)
                      (rpi_updatedBooks current pageId))
       (BookInstance.id <$> books current)).

Definition rpi_updatedCatalogs (current : TemplateState) (pageId : string)
  : list CatalogInstance.t :=
  filter (λ catalog, 0 < length (CatalogInstance.bookInstanceIds catalog))
    ((λ catalog, with_bookInstanceIds catalog
        (filter (λ id, id ∉ rpi_removedBookIds current pageId)
                (CatalogInstance.bookInstanceIds catalog)))
     <$> catalogs current).

Definition removePageInstance (current : TemplateState) (pageId : string)
  : TemplateState :=
  {| pageTemplates := pageTemplates current;
     bookTemplates := bookTemplates current;
     catalogTemplates := catalogTemplates current;
     pages := filter (λ page, PageInstance.id page ≠ pageId) (pages current);
     books := rpi_updatedBooks current pageId;
     catalogs := rpi_updatedCatalogs current pageId |}.

(** [removeBookInstance], lines 245-257. *)
Definition removeBookInstance (current : TemplateState) (bookId : string)
  : TemplateState :=
  {| pageTemplates := pageTemplates current;
     bookTemplates := bookTemplates current;
     catalogTemplates := catalogTemplates current;
     pages := pages current;
     books := filter (λ book, BookInstance.id book ≠ bookId) (books current);
     catalogs :=
       filter (λ catalog, 0 < length (CatalogInstance.bookInstanceIds catalog))
         ((λ catalog, with_bookInstanceIds catalog
             (filter (λ id, id ≠ bookId) (CatalogInstance.bookInstanceIds catalog)))
          <$> catalogs current) |}.

(** [removeCatalogInstance], lines 274-280. *)
Definition removeCatalogInstance (current : TemplateState) (catalogId : string)
  : TemplateState :=
  {| pageTemplates := pageTemplates current;
     bookTemplates := bookTemplates current;
     catalogTemplates := catalogTemplates current;
     pages := pages current;
     books := books current;
     catalogs :=
       filter (λ catalog, CatalogInstance.id catalog ≠ catalogId)
              (catalogs current) |}.

(** [resetAll], lines 282-291. *)
Definition resetAll : TemplateState :=
  {| pageTemplates := []; bookTemplates := []; catalogTemplates := [];
     pages := []; books := []; catalogs := [] |}.

(** ** The create operations *)

(** [createId], lines 293-297: [`${prefix}-${timestamp}${random}`]. The two
    pieces drawn from the clock and from [Math.random] are inputs of the
    model: [timestamp] is [Date.now().toString(36).slice(-4)] and [random]
    is [Math.random().toString(36).slice(2, 8)]. *)
Record Entropy := mkEntropy { timestamp : string; random : string }.

Definition createId (e : Entropy) (prefix : string) : string :=
  prefix ++ "-" ++ timestamp e ++ random e.

(** Each create appends the new entity to its collection and returns it
    with the next snapshot. *)

Definition createPageTemplate (current : TemplateState) (e : Entropy)
    (name : string) (description : option string)
    (fields : list PageTemplateField.t) : TemplateState * PageTemplate.t :=
  let template := PageTemplate.mk (createId e "pt") name description fields in
  ({| pageTemplates := pageTemplates current ++ [template];
      bookTemplates := bookTemplates current;
      catalogTemplates := catalogTemplates current;
      pages := pages current; books := books current;
      catalogs := catalogs current |}, template).

Definition createBookTemplate (current : TemplateState) (e : Entropy)
    (name : string) (description : option string)
    (pageTemplateIds : list string) : TemplateState * BookTemplate.t :=
  let template := BookTemplate.mk (createId e "bt") name description pageTemplateIds in
  ({| pageTemplates := pageTemplates current;
      bookTemplates := bookTemplates current ++ [template];
      catalogTemplates := catalogTemplates current;
      pages := pages current; books := books current;
      catalogs := catalogs current |}, template).

Definition createCatalogTemplate (current : TemplateState) (e : Entropy)
    (name : string) (description : option string)
    (bookTemplateIds : list string) : TemplateState * CatalogTemplate.t :=
  let template :=
    CatalogTemplate.mk (createId e "ct") name description bookTemplateIds in
  ({| pageTemplates := pageTemplates current;
      bookTemplates := bookTemplates current;
      catalogTemplates := catalogTemplates current ++ [template];
      pages := pages current; books := books current;
      catalogs := catalogs current |}, template).

Definition createPageInstance (current : TemplateState) (e : Entropy)
    (templateId title : string) (values : gmap string string)
  : TemplateState * PageInstance.t :=
  let instance := PageInstance.mk (createId e "p") templateId title values in
  ({| pageTemplates := pageTemplates current;
      bookTemplates := bookTemplates current;
      catalogTemplates := catalogTemplates current;
      pages := pages current ++ [instance]; books := books current;
      catalogs := catalogs current |}, instance).

Definition createBookInstance (current : TemplateState) (e : Entropy)
    (templateId title : string) (pageInstanceIds : list string)
  : TemplateState * BookInstance.t :=
  let instance := BookInstance.mk (createId e "b") templateId title pageInstanceIds in
  ({| pageTemplates := pageTemplates current;
      bookTemplates := bookTemplates current;
      catalogTemplates := catalogTemplates current;
      pages := pages current; books := books current ++ [instance];
      catalogs := catalogs current |}, instance).

Definition createCatalogInstance (current : TemplateState) (e : Entropy)
    (templateId title : string) (bookInstanceIds : list string)
  : TemplateState * CatalogInstance.t :=
  let instance :=
    CatalogInstance.mk (createId e "c") templateId title bookInstanceIds in
  ({| pageTemplates := pageTemplates current;
      bookTemplates := bookTemplates current;
      catalogTemplates := catalogTemplates current;
      pages := pages current; books := books current;
      catalogs := catalogs current ++ [instance] |}, instance).

(** ** Sequences of operations *)

Inductive Op :=
  | CreatePageTemplate (e : Entropy) (name : string)
      (description : option string) (fields : list PageTemplateField.t)
  | CreateBookTemplate (e : Entropy) (name : string)
      (description : option string) (pageTemplateIds : list string)
  | CreateCatalogTemplate (e : Entropy) (name : string)
      (description : option string) (bookTemplateIds : list string)
  | CreatePageInstance (e : Entropy) (templateId title : string)
      (values : gmap string string)
  | CreateBookInstance (e : Entropy) (templateId title : string)
      (pageInstanceIds : list string)
  | CreateCatalogInstance (e : Entropy) (templateId title : string)
      (bookInstanceIds : list string)
  | RemovePageTemplate (templateId : string)
  | RemoveBookTemplate (templateId : string)
  | RemoveCatalogTemplate (templateId : string)
  | RemovePageInstance (pageId : string)
  | RemoveBookInstance (bookId : string)
  | RemoveCatalogInstance (catalogId : string).

(** The snapshot an operation hands to [setState]. *)
Definition next_state (current : TemplateState) (op : Op) : TemplateState :=
  match op with
  | CreatePageTemplate e n d fs => fst (createPageTemplate current e n d fs)
  | CreateBookTemplate e n d ids => fst (createBookTemplate current e n d ids)
  | CreateCatalogTemplate e n d ids => fst (createCatalogTemplate current e n d ids)
  | CreatePageInstance e t ti vs => fst (createPageInstance current e t ti vs)
  | CreateBookInstance e t ti ids => fst (createBookInstance current e t ti ids)
  | CreateCatalogInstance e t ti ids => fst (createCatalogInstance current e t ti ids)
  | RemovePageTemplate x => removePageTemplate current x
  | RemoveBookTemplate x => removeBookTemplate current x
  | RemoveCatalogTemplate x => removeCatalogTemplate current x
  | RemovePageInstance x => removePageInstance current x
  | RemoveBookInstance x => removeBookInstance current x
  | RemoveCatalogInstance x => removeCatalogInstance current x
  end.

(** The six remove operations as one family. *)
Inductive RemoveKind :=
  | KPageTemplate | KBookTemplate | KCatalogTemplate
  | KPageInstance | KBookInstance | KCatalogInstance.

Definition remove (k : RemoveKind) : TemplateState → string → TemplateState :=
  match k with
  | KPageTemplate => removePageTemplate
  | KBookTemplate => removeBookTemplate
  | KCatalogTemplate => removeCatalogTemplate
  | KPageInstance => removePageInstance
  | KBookInstance => removeBookInstance
  | KCatalogInstance => removeCatalogInstance
  end.

(** The ids of the entities of the kind a remove operation targets. *)
Definition target_ids (k : RemoveKind) (s : TemplateState) : list string :=
  match k with
  | KPageTemplate => PageTemplate.id <$> pageTemplates s
  | KBookTemplate => BookTemplate.id <$> bookTemplates s
  | KCatalogTemplate => CatalogTemplate.id <$> catalogTemplates s
  | KPageInstance => PageInstance.id <$> pages s
  | KBookInstance => BookInstance.id <$> books s
  | KCatalogInstance => CatalogInstance.id <$> catalogs s
  end.

(** ** JavaScript values read back from storage

    [JSON.parse] returns an untyped value; the cast [as TemplateState] in
    [safeParseState] checks nothing, so what [loadState] returns is a
    record of six such values. An object is a finite map from property
    names to values, which makes equality of [JsValue]s deep equality. *)

#[warnings="-register-all"]
Inductive JsValue :=
  | JNull
  | JBool (b : bool)
  | JNumber (q : Qc)
  | JString (s : string)
  | JArray (items : list JsValue)
  | JObject (props : gmap string JsValue).

(** Truthiness, as the test [parsed && ...] uses it. *)
Definition truthy (v : JsValue) : bool :=
  match v with
  | JNull => false
  | JBool b => b
  | JNumber q => bool_decide (q ≠ 0%Qc)
  | JString s => bool_decide (s ≠ "")
  | JArray _ | JObject _ => true
  end.

Inductive JsTypeName := ty_object | ty_boolean | ty_number | ty_string.

(** [typeof v]; [typeof null] is ['object']. *)
Definition typeof (v : JsValue) : JsTypeName :=
  match v with
  | JNull | JArray _ | JObject _ => ty_object
  | JBool _ => ty_boolean
  | JNumber _ => ty_number
  | JString _ => ty_string
  end.

Global Instance JsTypeName_eq_dec : EqDecision JsTypeName.
Proof. solve_decision. Defined.

(** [v.name] for one of the six collection names: an own property of an
    object, [undefined] ([None]) on an array or when the object lacks it. *)
Definition get_prop (v : JsValue) (name : string) : option JsValue :=
  match v with
  | JObject props => props !! name
  | _ => None
  end.

(** [a ?? b]: [b] when [a] is [undefined] or [null]. *)
Definition nullish_coalesce (a : option JsValue) (b : JsValue) : JsValue :=
  match a with
  | None | Some JNull => b
  | Some v => v
  end.

(** What [safeParseState] and [loadState] return at run time. *)
Module Parsed.
Record t := mk {
  pageTemplates : JsValue;
  bookTemplates : JsValue;
  catalogTemplates : JsValue;
  pages : JsValue;
  books : JsValue;
  catalogs : JsValue;
}.
End Parsed.

(** The run-time value of a typed entity. A [description] that is [None]
    contributes no property ([JSON.stringify] drops [undefined] ones). *)

Definition js_strings (l : list string) : JsValue := JArray (JString <$> l).

Definition js_optional (name : string) (v : option string)
    (props : gmap string JsValue) : gmap string JsValue :=
  match v with
  | Some s => <[name := JString s]> props
  | None => props
  end.

Definition js_of_FieldType (ty : FieldType) : JsValue :=
  JString match ty with
          | short_text => "short-text"
          | long_text => "long-text"
          | number => "number"
          | date => "date"
          end.

Definition js_of_PageTemplateField (f : PageTemplateField.t) : JsValue :=
  JObject (js_optional "description" (PageTemplateField.description f)
    (list_to_map [("id", JString (PageTemplateField.id f));
                  ("name", JString (PageTemplateField.name f));
                  ("type", js_of_FieldType (PageTemplateField.type f))])).

Definition js_of_PageTemplate (t : PageTemplate.t) : JsValue :=
  JObject (js_optional "description" (PageTemplate.description t)
    (list_to_map [("id", JString (PageTemplate.id t));
                  ("name", JString (PageTemplate.name t));
                  ("fields",
                   JArray (js_of_PageTemplateField <$> PageTemplate.fields t))])).

Definition js_of_BookTemplate (t : BookTemplate.t) : JsValue :=
  JObject (js_optional "description" (BookTemplate.description t)
    (list_to_map [("id", JString (BookTemplate.id t));
                  ("name", JString (BookTemplate.name t));
                  ("pageTemplateIds", js_strings (BookTemplate.pageTemplateIds t))])).

Definition js_of_CatalogTemplate (t : CatalogTemplate.t) : JsValue :=
  JObject (js_optional "description" (CatalogTemplate.description t)
    (list_to_map [("id", JString (CatalogTemplate.id t));
                  ("name", JString (CatalogTemplate.name t));
                  ("bookTemplateIds",
                   js_strings (CatalogTemplate.bookTemplateIds t))])).

Definition js_of_PageInstance (p : PageInstance.t) : JsValue :=
  JObject (list_to_map
    [("id", JString (PageInstance.id p));
     ("templateId", JString (PageInstance.templateId p));
     ("title", JString (PageInstance.title p));
     ("values", JObject (JString <$> PageInstance.values p))]).

Definition js_of_BookInstance (b : BookInstance.t) : JsValue :=
  JObject (list_to_map
    [("id", JString (BookInstance.id b));
     ("templateId", JString (BookInstance.templateId b));
     ("title", JString (BookInstance.title b));
     ("pageInstanceIds", js_strings (BookInstance.pageInstanceIds b))]).

Definition js_of_CatalogInstance (c : CatalogInstance.t) : JsValue :=
  JObject (list_to_map
    [("id", JString (CatalogInstance.id c));
     ("templateId", JString (CatalogInstance.templateId c));
     ("title", JString (CatalogInstance.title c));
     ("bookInstanceIds", js_strings (CatalogInstance.bookInstanceIds c))]).

(** The six collections of a typed state as run-time values. *)
Definition parsed_of_state (s : TemplateState) : Parsed.t :=
  {| Parsed.pageTemplates := JArray (js_of_PageTemplate <$> pageTemplates s);
     Parsed.bookTemplates := JArray (js_of_BookTemplate <$> bookTemplates s);
     Parsed.catalogTemplates :=
       JArray (js_of_CatalogTemplate <$> catalogTemplates s);
     Parsed.pages := JArray (js_of_PageInstance <$> pages s);
     Parsed.books := JArray (js_of_BookInstance <$> books s);
     Parsed.catalogs := JArray (js_of_CatalogInstance <$> catalogs s) |}.

(** The object handed to [JSON.stringify]. *)
Definition js_of_state (s : TemplateState) : JsValue :=
  let p := parsed_of_state s in
  JObject (list_to_map
    [("pageTemplates", Parsed.pageTemplates p);
     ("bookTemplates", Parsed.bookTemplates p);
     ("catalogTemplates", Parsed.catalogTemplates p);
     ("pages", Parsed.pages p);
     ("books", Parsed.books p);
     ("catalogs", Parsed.catalogs p)]).

(** [{ ...defaultState }] as [loadState] returns it. *)
Definition defaultParsed : Parsed.t := parsed_of_state defaultState.

(** ** The storage medium

    A [Storage] object is a string-keyed store of strings whose [setItem]
    may throw (quota exceeded): [accepts] says which writes the medium
    takes. *)

Record LocalStorage := mkLocalStorage {
  items : gmap string string;
  accepts : string → string → bool;
}.

Definition getItem (ls : LocalStorage) (key : string) : option string :=
  items ls !! key.

(** [None] is a thrown exception. *)
Definition setItem (ls : LocalStorage) (key value : string)
  : option LocalStorage :=
  if accepts ls key value
  then Some {| items := <[key := value]> (items ls); accepts := accepts ls |}
  else None.

(** What evaluating the expression [window.localStorage] gives. A
    browser that denies access to the storage throws from the getter
    itself (a [SecurityError]); an environment without the storage has
    [undefined] or [null] there. *)
Inductive LocalStorageProperty :=
| Blocked
| Undefined
| Null
| Storage (ls : LocalStorage).

(** [None] is an environment where [typeof window === 'undefined']. *)
Definition Window := option LocalStorageProperty.

Inductive Exception := SecurityError | TypeError.

(** How a call ends: it returns a value or throws to its caller. *)
Inductive Completion (A : Type) :=
| Returned (a : A)
| Thrown (e : Exception).
Arguments Returned {A} a.
Arguments Thrown {A} e.

Definition STORAGE_KEY : string := "developer-portal-template-state".

Section Persistence.

(** [JSON.stringify] and [JSON.parse] belong to the JavaScript runtime,
    not to the repository. [JSON_parse] returns [None] where
    [JSON.parse] throws a [SyntaxError]. *)
Variable JSON_stringify : JsValue → string.
Variable JSON_parse : string → option JsValue.

(** [safeParseState], lines 17-39. [!raw] holds for [null] and for the
    empty string; the [catch] branch only warns and falls through to
    [return null]. *)
Definition safeParseState (raw : option string) : option Parsed.t :=
  match raw with
  | None => None
  | Some r =>
    if bool_decide (r = "") then None
    else
      match JSON_parse r with
      | None => None
      | Some parsed =>
        if truthy parsed && bool_decide (typeof parsed = ty_object) then
          Some {| Parsed.pageTemplates :=
                    nullish_coalesce (get_prop parsed "pageTemplates") (JArray []);
                  Parsed.bookTemplates :=
                    nullish_coalesce (get_prop parsed "bookTemplates") (JArray []);
                  Parsed.catalogTemplates :=
                    nullish_coalesce (get_prop parsed "catalogTemplates") (JArray []);
                  Parsed.pages :=
                    nullish_coalesce (get_prop parsed "pages") (JArray []);
                  Parsed.books :=
                    nullish_coalesce (get_prop parsed "books") (JArray []);
                  Parsed.catalogs :=
                    nullish_coalesce (get_prop parsed "catalogs") (JArray []) |}
        else None
      end
  end.

(** [loadState], lines 304-311. Nothing here sits in a [try]: the test
    [typeof window.localStorage === 'undefined'] evaluates
    [window.localStorage], so a getter that throws ends the call; a
    [null] there passes the test ([typeof null] is ['object']) and
    [null.getItem] throws a [TypeError]. *)
Definition loadState (w : Window) : Completion Parsed.t :=
  match w with
  | None => Returned defaultParsed
  | Some Blocked => Thrown SecurityError
  | Some Undefined => Returned defaultParsed
  | Some Null => Thrown TypeError
  | Some (Storage ls) =>
    let stored := safeParseState (getItem ls STORAGE_KEY) in
    match stored with
    | Some s => Returned s
    | None => Returned defaultParsed
    end
  end.

(** [persistState], lines 313-323: the environment after the call and how
    the call ends. The test of lines 314-316 is outside the [try], so a
    getter that throws ends the call. Inside the [try] a throwing
    [setItem], and the [TypeError] of [null.setItem], are caught and only
    warned about, the medium staying as it was. *)
Definition persistState (w : Window) (state : TemplateState)
  : Window * Completion unit :=
  match w with
  | None => (w, Returned tt)
  | Some Blocked => (w, Thrown SecurityError)
  | Some Undefined => (w, Returned tt)
  | Some Null => (w, Returned tt)
  | Some (Storage ls) =>
    match setItem ls STORAGE_KEY (JSON_stringify (js_of_state state)) with
    | Some ls' => (Some (Storage ls'), Returned tt)
    | None => (w, Returned tt)
    end
  end.

(** ** The service: current value, publications, storage *)

Record Service := mkService {
  value : TemplateState;           (* [stateSubject.value] *)
  published : list TemplateState;  (* snapshots passed to [next], oldest first *)
  window : Window;
}.

(** [setState], lines 299-302: the service after the call and how the
    call ends. [stateSubject.next(state)] comes first, so the value is set
    and published also when [persistState] then throws. *)
Definition setState (this : Service) (state : TemplateState)
  : Service * Completion unit :=
  let persisted := persistState (window this) state in
  ({| value := state;
      published := published this ++ [state];
      window := persisted.1 |},
   persisted.2).

(** A method call: compute the next snapshot from [stateSubject.value]
    and hand it to [setState]; what [setState] throws, the method throws. *)
Definition perform (this : Service) (op : Op) : Service * Completion unit :=
  setState this (next_state (value this) op).

(** A sequence of method calls. Each is a call of its own: when one
    throws, its caller sees the exception and the next call finds the
    service as that call left it. *)
Definition perform_all (this : Service) (ops : list Op) : Service :=
  foldl (λ this op, (perform this op).1) this ops.

(** A service whose current value is the empty state and that has
    published nothing yet, in environment [w]. *)
Definition fresh (w : Window) : Service :=
  {| value := defaultState; published := []; window := w |}.

End Persistence.

(** * Owners of a reference list

    Four entity kinds carry a list of ids of entities one tier below:
    [BookInstance.pageInstanceIds], [CatalogInstance.bookInstanceIds],
    [BookTemplate.pageTemplateIds] and [CatalogTemplate.bookTemplateIds].
    The service treats them alike: it filters the list of every owner and
    then drops the owners whose list has become empty. *)

Class RefOwner (A : Type) := {
  key : A → string;
  refs : A → list string;
  with_refs : A → list string → A;
  key_with_refs a l : key (with_refs a l) = key a;
  refs_with_refs a l : refs (with_refs a l) = l;
  with_refs_same a : with_refs a (refs a) = a;
}.

#[export, refine] Instance BookInstance_owner : RefOwner BookInstance.t := {|
  key := BookInstance.id;
  refs := BookInstance.pageInstanceIds;
  with_refs := with_pageInstanceIds |}.
Proof. all: try done. by intros []. Defined.

#[export, refine] Instance CatalogInstance_owner : RefOwner CatalogInstance.t := {|
  key := CatalogInstance.id;
  refs := CatalogInstance.bookInstanceIds;
  with_refs := with_bookInstanceIds |}.
Proof. all: try done. by intros []. Defined.

#[export, refine] Instance BookTemplate_owner : RefOwner BookTemplate.t := {|
  key := BookTemplate.id;
  refs := BookTemplate.pageTemplateIds;
  with_refs := with_pageTemplateIds |}.
Proof. all: try done. by intros []. Defined.

#[export, refine] Instance CatalogTemplate_owner : RefOwner CatalogTemplate.t := {|
  key := CatalogTemplate.id;
  refs := CatalogTemplate.bookTemplateIds;
  with_refs := with_bookTemplateIds |}.
Proof. all: try done. by intros []. Defined.

(** Filter every owner's list by [keep], then drop the emptied owners. *)
Definition drop_refs {A} {owner : RefOwner A} (keep : string → Prop)
    `{!∀ x, Decision (keep x)} (l : list A) : list A :=
  filter (λ a, 0 < length (refs a))
    ((λ a, with_refs a (filter keep (refs a))) <$> l).

(** The identifiers removed by a cascade step: those of [before] that no
    element of [after] carries. *)
Definition gone_keys {A} {owner : RefOwner A} (before after : list A) : list string :=
  filter (λ id, ¬ Exists (λ a, key a = id) after) (key <$> before).


(** ** The invariants of the data model

    Invariants 1 to 4 of the hierarchy, each split by entity kind. They
    are stated with [Forall] over the collections, so each is decidable. *)

Definition page_templateIds_exist (s : TemplateState) : Prop :=
  Forall (λ p, PageInstance.templateId p ∈ PageTemplate.id <$> pageTemplates s)
         (pages s).

Definition book_templateIds_exist (s : TemplateState) : Prop :=
  Forall (λ b, BookInstance.templateId b ∈ BookTemplate.id <$> bookTemplates s)
         (books s).

Definition catalog_templateIds_exist (s : TemplateState) : Prop :=
  Forall (λ c, CatalogInstance.templateId c
                 ∈ CatalogTemplate.id <$> catalogTemplates s)
         (catalogs s).

(** Invariant 1: every instance has its template. *)
Definition invariant1 (s : TemplateState) : Prop :=
  page_templateIds_exist s ∧ book_templateIds_exist s
  ∧ catalog_templateIds_exist s.

(** Invariant 2: the pages a book lists exist. *)
Definition invariant2 (s : TemplateState) : Prop :=
  Forall (λ b, Forall (λ id, id ∈ PageInstance.id <$> pages s)
                      (BookInstance.pageInstanceIds b))
         (books s).

(** Invariant 3: the books a catalog lists exist. *)
Definition invariant3 (s : TemplateState) : Prop :=
  Forall (λ c, Forall (λ id, id ∈ BookInstance.id <$> books s)
                      (CatalogInstance.bookInstanceIds c))
         (catalogs s).

Definition bookTemplate_refs_exist (s : TemplateState) : Prop :=
  Forall (λ t, Forall (λ id, id ∈ PageTemplate.id <$> pageTemplates s)
                      (BookTemplate.pageTemplateIds t))
         (bookTemplates s).

Definition catalogTemplate_refs_exist (s : TemplateState) : Prop :=
  Forall (λ t, Forall (λ id, id ∈ BookTemplate.id <$> bookTemplates s)
                      (CatalogTemplate.bookTemplateIds t))
         (catalogTemplates s).

(** Invariant 4, as to the references: the templates a composite
    template lists exist. What it says of emptied lists is
    [no_empty_template] below. *)
Definition invariant4 (s : TemplateState) : Prop :=
  bookTemplate_refs_exist s ∧ catalogTemplate_refs_exist s.

(** Invariant 4, as to emptiness: no composite template is left with an
    empty reference list. *)
Definition no_empty_template (s : TemplateState) : Prop :=
  Forall (λ t, BookTemplate.pageTemplateIds t ≠ []) (bookTemplates s)
  ∧ Forall (λ t, CatalogTemplate.bookTemplateIds t ≠ []) (catalogTemplates s).

Definition invariants_1_4 (s : TemplateState) : Prop :=
  invariant1 s ∧ invariant2 s ∧ invariant3 s ∧ invariant4 s.

(** Invariants 1 to 4 without the clause of invariant 1 that concerns
    the template of a [CatalogInstance]. *)
Definition cascade_invariants (s : TemplateState) : Prop :=
  page_templateIds_exist s ∧ book_templateIds_exist s
  ∧ invariant2 s ∧ invariant3 s ∧ invariant4 s.

(** No owner of a reference list has an empty one. *)
Definition no_empty_owner (s : TemplateState) : Prop :=
  Forall (λ t, BookTemplate.pageTemplateIds t ≠ []) (bookTemplates s)
  ∧ Forall (λ t, CatalogTemplate.bookTemplateIds t ≠ []) (catalogTemplates s)
  ∧ Forall (λ b, BookInstance.pageInstanceIds b ≠ []) (books s)
  ∧ Forall (λ c, CatalogInstance.bookInstanceIds c ≠ []) (catalogs s).

(** The reference ids a create operation is given all exist in [s]. The
    service does not check this; it is the caller's side of the contract. *)
Definition refs_exist (s : TemplateState) (op : Op) : Prop :=
  match op with
  | CreateBookTemplate _ _ _ ids =>
      Forall (λ id, id ∈ PageTemplate.id <$> pageTemplates s) ids
  | CreateCatalogTemplate _ _ _ ids =>
      Forall (λ id, id ∈ BookTemplate.id <$> bookTemplates s) ids
  | CreatePageInstance _ t _ _ => t ∈ PageTemplate.id <$> pageTemplates s
  | CreateBookInstance _ t _ ids =>
      t ∈ BookTemplate.id <$> bookTemplates s
      ∧ Forall (λ id, id ∈ PageInstance.id <$> pages s) ids
  | CreateCatalogInstance _ t _ ids =>
      t ∈ CatalogTemplate.id <$> catalogTemplates s
      ∧ Forall (λ id, id ∈ BookInstance.id <$> books s) ids
  | _ => True
  end.


(** [refs_exist] for each operation of a sequence, at the state in which
    it runs. *)
Fixpoint refs_exist_all (s : TemplateState) (ops : list Op) : Prop :=
  match ops with
  | [] => True
  | op :: ops' => refs_exist s op ∧ refs_exist_all (next_state s op) ops'
  end.

(** Whether a [CatalogInstance] lists a [BookInstance] of template [T]. *)
Definition references_book_of (s : TemplateState) (T : string)
    (c : CatalogInstance.t) : Prop :=
  ∃ b, b ∈ books s ∧ BookInstance.templateId b = T
       ∧ BookInstance.id b ∈ CatalogInstance.bookInstanceIds c.

(** In each of the six collections, the ids found in [s'] form a
    subsequence of the ids found in [s]. *)
Definition ids_in_order (s s' : TemplateState) : Prop :=
  PageTemplate.id <$> pageTemplates s' `sublist_of` PageTemplate.id <$> pageTemplates s
  ∧ BookTemplate.id <$> bookTemplates s' `sublist_of` BookTemplate.id <$> bookTemplates s
  ∧ CatalogTemplate.id <$> catalogTemplates s'
      `sublist_of` CatalogTemplate.id <$> catalogTemplates s
  ∧ PageInstance.id <$> pages s' `sublist_of` PageInstance.id <$> pages s
  ∧ BookInstance.id <$> books s' `sublist_of` BookInstance.id <$> books s
  ∧ CatalogInstance.id <$> catalogs s' `sublist_of` CatalogInstance.id <$> catalogs s.

(** What [removePageInstance] makes of a book before deciding whether to
    keep it: [{ ...book, pageInstanceIds: book.pageInstanceIds.filter(id => id !== pageId) }]. *)
Definition book_without_page (pageId : string) (book : BookInstance.t)
  : BookInstance.t :=
  with_pageInstanceIds book
    (filter (λ id, id ≠ pageId) (BookInstance.pageInstanceIds book)).

(** What [removePageInstance] makes of a catalog before deciding whether
    to keep it. *)
Definition catalog_without_removed_books (s : TemplateState) (pageId : string)
    (catalog : CatalogInstance.t) : CatalogInstance.t :=
  with_bookInstanceIds catalog
    (filter (λ id, id ∉ rpi_removedBookIds s pageId)
            (CatalogInstance.bookInstanceIds catalog)).

(** An entity of a collection whose id no other entity of it carries. *)
Definition sole_book_with_its_id (s : TemplateState) (b : BookInstance.t) : Prop :=
  ∀ b2, b2 ∈ books s → BookInstance.id b2 = BookInstance.id b → b2 = b.

Definition sole_catalog_with_its_id (s : TemplateState) (c : CatalogInstance.t)
  : Prop :=
  ∀ c2, c2 ∈ catalogs s → CatalogInstance.id c2 = CatalogInstance.id c → c2 = c.

(** ** Deep equality is decidable *)

#[export] Instance FieldType_eq_dec : EqDecision FieldType.
Proof. solve_decision. Defined.
#[export] Instance PageTemplateField_eq_dec : EqDecision PageTemplateField.t.
Proof. solve_decision. Defined.
#[export] Instance PageTemplate_eq_dec : EqDecision PageTemplate.t.
Proof. solve_decision. Defined.
#[export] Instance BookTemplate_eq_dec : EqDecision BookTemplate.t.
Proof. solve_decision. Defined.
#[export] Instance CatalogTemplate_eq_dec : EqDecision CatalogTemplate.t.
Proof. solve_decision. Defined.
#[export] Instance PageInstance_eq_dec : EqDecision PageInstance.t.
Proof. solve_decision. Defined.
#[export] Instance BookInstance_eq_dec : EqDecision BookInstance.t.
Proof. solve_decision. Defined.
#[export] Instance CatalogInstance_eq_dec : EqDecision CatalogInstance.t.
Proof. solve_decision. Defined.
#[export] Instance TemplateState_eq_dec : EqDecision TemplateState.
Proof. solve_decision. Defined.

(** ** Sample data

    Scenario 1: a page template with one field, a page of it, a book
    template over the page template, a book of it holding the page; then
    the page template is removed. *)

Definition F1 : PageTemplateField.t :=
  PageTemplateField.mk "field-k3f9zzzzzz" "F1" short_text None.

Definition scenario1 : list Op :=
  [ CreatePageTemplate (mkEntropy "k3f9" "000001") "PT1" None [F1];
    CreatePageInstance (mkEntropy "k3f9" "000002") "pt-k3f9000001" "P1"
      {[ "field-k3f9zzzzzz" := "hi" ]};
    CreateBookTemplate (mkEntropy "k3f9" "000003") "BT1" None ["pt-k3f9000001"];
    CreateBookInstance (mkEntropy "k3f9" "000004") "bt-k3f9000003" "B1"
      ["p-k3f9000002"];
    RemovePageTemplate "pt-k3f9000001" ].

(** A page created for a template that was never created. *)
Definition dangling_page : list Op :=
  [ CreatePageInstance (mkEntropy "k3f9" "000001") "pt-missing" "P" ∅ ].

(** A book template created over no page template at all; then a book
    template id that nothing carries is removed. *)
Definition empty_book_template : list Op :=
  [ CreateBookTemplate (mkEntropy "k3f9" "000001") "BT" None [];
    RemoveBookTemplate "bt-other" ].

(** A catalog template over one book template, and a catalog of it that
    holds a book of another book template; then the first book template
    is removed. Every create is given ids that exist. *)
Definition orphaned_catalog : list Op :=
  [ CreatePageTemplate (mkEntropy "k3f9" "000001") "PT" None [F1];
    CreateBookTemplate (mkEntropy "k3f9" "000002") "BT1" None ["pt-k3f9000001"];
    CreateBookTemplate (mkEntropy "k3f9" "000003") "BT2" None ["pt-k3f9000001"];
    CreateCatalogTemplate (mkEntropy "k3f9" "000004") "CT" None ["bt-k3f9000002"];
    CreatePageInstance (mkEntropy "k3f9" "000005") "pt-k3f9000001" "P" ∅;
    CreateBookInstance (mkEntropy "k3f9" "000006") "bt-k3f9000003" "B2"
      ["p-k3f9000005"];
    CreateCatalogInstance (mkEntropy "k3f9" "000007") "ct-k3f9000004" "C"
      ["b-k3f9000006"];
    RemoveBookTemplate "bt-k3f9000002" ].

(** The states the service goes through from the empty state. *)
Fixpoint states_from (s : TemplateState) (ops : list Op) : list TemplateState :=
  match ops with
  | [] => []
  | op :: ops' => next_state s op :: states_from (next_state s op) ops'
  end.

Definition final_state (ops : list Op) : TemplateState :=
  foldl next_state defaultState ops.

(** A stand-in for [JSON.stringify] where its output does not matter. *)
Definition sample_stringify : JsValue → string := λ _, "{}".

(** The operation that removes [x] from the collection of kind [k]. *)
Definition remove_op (k : RemoveKind) (x : string) : Op :=
  match k with
  | KPageTemplate => RemovePageTemplate x
  | KBookTemplate => RemoveBookTemplate x
  | KCatalogTemplate => RemoveCatalogTemplate x
  | KPageInstance => RemovePageInstance x
  | KBookInstance => RemoveBookInstance x
  | KCatalogInstance => RemoveCatalogInstance x
  end.

(** A book template and a book of it that holds no page. *)
Definition empty_book : list Op :=
  [ CreatePageTemplate (mkEntropy "k3f9" "000001") "PT" None [F1];
    CreateBookTemplate (mkEntropy "k3f9" "000002") "BT" None ["pt-k3f9000001"];
    CreateBookInstance (mkEntropy "k3f9" "000003") "bt-k3f9000002" "B" [] ].

(** The state of scenario 1 before the removal. *)
Definition scenario1_before : TemplateState := final_state (take 4 scenario1).

(** ** Reading the stored blob: the cases of [safeParseState] *)

(** The values that pass the test
    [parsed && typeof parsed === 'object']: objects and arrays. *)
Definition is_object (v : JsValue) : bool :=
  match v with
  | JObject _ | JArray _ => true
  | _ => false
  end.

(** How [loadState] recovers one of the six collections from a parsed
    object: [got] is what it returns for the property [name] of [v]. *)
Definition recovers (v : JsValue) (name : string) (got : JsValue) : Prop :=
  (get_prop v name = None → got = JArray [])
  ∧ (get_prop v name = Some JNull → got = JArray [])
  ∧ (∀ x, get_prop v name = Some x → x ≠ JNull → got = x).

(** A storage medium that holds [raw] under the key of the service and
    takes every write. *)
Definition storage_holding (raw : string) : LocalStorage :=
  {| items := {[ STORAGE_KEY := raw ]}; accepts := λ _ _, true |}.

Definition empty_storage : LocalStorage :=
  {| items := ∅; accepts := λ _ _, true |}.

(** Sample blobs. [dq] is the double-quote character. *)
Definition dq : string := String (Ascii.ascii_of_nat 34) "".
Definition quoted (s : string) : string := dq ++ s ++ dq.

(** [{"pages":null,"books":[]}]: one collection present with the value
    [null], one present with an array, four missing. *)
Definition blob_null_pages : string :=
  "{" ++ quoted "pages" ++ ":null," ++ quoted "books" ++ ":[]}".

(** What [JSON.parse] makes of [blob_null_pages]; other inputs are not
    needed and count as unparsable here. *)
Definition parse_null_pages (raw : string) : option JsValue :=
  if bool_decide (raw = blob_null_pages)
  then Some (JObject {[ "pages" := JNull; "books" := JArray [] ]})
  else None.

(** The empty state as [JSON.stringify] writes it, and [JSON.parse] on
    that text. *)
Definition blob_default : string :=
  "{" ++ quoted "pageTemplates" ++ ":[]," ++ quoted "bookTemplates" ++ ":[],"
      ++ quoted "catalogTemplates" ++ ":[]," ++ quoted "pages" ++ ":[],"
      ++ quoted "books" ++ ":[]," ++ quoted "catalogs" ++ ":[]}".

(** The state with the one page of [dangling_page], as text. *)
Definition blob_one_page : string :=
  "{" ++ quoted "pageTemplates" ++ ":[]," ++ quoted "bookTemplates" ++ ":[],"
      ++ quoted "catalogTemplates" ++ ":[]," ++ quoted "pages" ++ ":[{"
      ++ quoted "id" ++ ":" ++ quoted "p-k3f9000001" ++ ","
      ++ quoted "templateId" ++ ":" ++ quoted "pt-missing" ++ ","
      ++ quoted "title" ++ ":" ++ quoted "P" ++ ","
      ++ quoted "values" ++ ":{}}],"
      ++ quoted "books" ++ ":[]," ++ quoted "catalogs" ++ ":[]}".

Definition stringify_one_page (v : JsValue) : string := blob_one_page.

Definition parse_one_page (raw : string) : option JsValue :=
  if bool_decide (raw = blob_one_page)
  then Some (js_of_state (final_state dangling_page))
  else None.

Definition storage_null_pages : Window :=
  Some (Storage (storage_holding blob_null_pages)).

Definition object_null_pages : JsValue :=
  JObject {[ "pages" := JNull; "books" := JArray [] ]}.

(** A service whose current state is that of scenario 1 before the
    removal, with an empty storage behind it. *)
Definition service_before : Service :=
  {| value := scenario1_before; published := [];
     window := Some (Storage empty_storage) |}.

(** The page and the book of scenario 1, and the book of [empty_book]. *)
Definition P1 : PageInstance.t :=
  PageInstance.mk "p-k3f9000002" "pt-k3f9000001" "P1"
    {[ "field-k3f9zzzzzz" := "hi" ]}.

Definition B1 : BookInstance.t :=
  BookInstance.mk "b-k3f9000004" "bt-k3f9000003" "B1" ["p-k3f9000002"].

Definition B_empty : BookInstance.t :=
  BookInstance.mk "b-k3f9000003" "bt-k3f9000002" "B" [].

(** The operations other than [removePageTemplate] and
    [removeBookTemplate], the two that delete catalog templates as a side
    effect. *)
Definition leaves_catalog_templates (op : Op) : Prop :=
  match op with
  | RemovePageTemplate _ | RemoveBookTemplate _ => False
  | _ => True
  end.

(** Scenario 2: catalog [C1] holds book [B1] of template [BT1] and book
    [B2] of template [BT2]; then [BT1] is removed. *)
Definition scenario2 : list Op :=
  [ CreatePageTemplate (mkEntropy "k3f9" "000001") "PT" None [F1];
    CreateBookTemplate (mkEntropy "k3f9" "000002") "BT1" None ["pt-k3f9000001"];
    CreateBookTemplate (mkEntropy "k3f9" "000003") "BT2" None ["pt-k3f9000001"];
    CreateCatalogTemplate (mkEntropy "k3f9" "000004") "CT" None
      ["bt-k3f9000002"; "bt-k3f9000003"];
    CreatePageInstance (mkEntropy "k3f9" "000005") "pt-k3f9000001" "P" ∅;
    CreateBookInstance (mkEntropy "k3f9" "000006") "bt-k3f9000002" "B1"
      ["p-k3f9000005"];
    CreateBookInstance (mkEntropy "k3f9" "000007") "bt-k3f9000003" "B2"
      ["p-k3f9000005"];
    CreateCatalogInstance (mkEntropy "k3f9" "000008") "ct-k3f9000004" "C1"
      ["b-k3f9000006"; "b-k3f9000007"];
    RemoveBookTemplate "bt-k3f9000002" ].

(** * More of the service and of the components that call it *)

(** ** Where an id occurs

    The places of a state that can hold the id of an entity of kind [k]:
    the [id] of the entities of that kind, the [templateId] of its
    instances, and the reference lists one tier above. *)
Definition mentions (k : RemoveKind) (s : TemplateState) (x : string) : Prop :=
  match k with
  | KPageTemplate =>
      x ∈ PageTemplate.id <$> pageTemplates s
      ∨ Exists (λ p, PageInstance.templateId p = x) (pages s)
      ∨ Exists (λ t, x ∈ BookTemplate.pageTemplateIds t) (bookTemplates s)
  | KBookTemplate =>
      x ∈ BookTemplate.id <$> bookTemplates s
      ∨ Exists (λ b, BookInstance.templateId b = x) (books s)
      ∨ Exists (λ t, x ∈ CatalogTemplate.bookTemplateIds t) (catalogTemplates s)
  | KCatalogTemplate =>
      x ∈ CatalogTemplate.id <$> catalogTemplates s
      ∨ Exists (λ c, CatalogInstance.templateId c = x) (catalogs s)
  | KPageInstance =>
      x ∈ PageInstance.id <$> pages s
      ∨ Exists (λ b, x ∈ BookInstance.pageInstanceIds b) (books s)
  | KBookInstance =>
      x ∈ BookInstance.id <$> books s
      ∨ Exists (λ c, x ∈ CatalogInstance.bookInstanceIds c) (catalogs s)
  | KCatalogInstance => x ∈ CatalogInstance.id <$> catalogs s
  end.

(** The kind and the id of the entity a create operation adds. *)
Definition created (op : Op) : option (RemoveKind * string) :=
  match op with
  | CreatePageTemplate e _ _ _ => Some (KPageTemplate, createId e "pt")
  | CreateBookTemplate e _ _ _ => Some (KBookTemplate, createId e "bt")
  | CreateCatalogTemplate e _ _ _ => Some (KCatalogTemplate, createId e "ct")
  | CreatePageInstance e _ _ _ => Some (KPageInstance, createId e "p")
  | CreateBookInstance e _ _ _ => Some (KBookInstance, createId e "b")
  | CreateCatalogInstance e _ _ _ => Some (KCatalogInstance, createId e "c")
  | _ => None
  end.

(** The prefix each create method passes to [createId]. *)
Definition id_prefix (k : RemoveKind) : string :=
  match k with
  | KPageTemplate => "pt"
  | KBookTemplate => "bt"
  | KCatalogTemplate => "ct"
  | KPageInstance => "p"
  | KBookInstance => "b"
  | KCatalogInstance => "c"
  end.

(** A second page for the page template of scenario 1. *)
Definition create_second_page : Op :=
  CreatePageInstance (mkEntropy "k3f9" "000009") "pt-k3f9000001" "P2" ∅.

(** Writing a reference list over one that was just written leaves the
    second list: the spread [{ ...{ ...a, refs: l }, refs: l' }]. *)
Definition refs_overwrite {A} (owner : RefOwner A) : Prop :=
  ∀ (a : A) (l l' : list string),
    with_refs (with_refs a l) l' = with_refs a l'.

(** A medium that takes every write. *)
Definition accepts_all (ls : LocalStorage) : Prop :=
  ∀ key value, accepts ls key value = true.

(** ** The viewer component ([viewer.component.ts])

    The component keeps the latest value of each of the six feeds of the
    service ([ngOnInit], lines 51-91) and the values of its three forms.
    Whether a form is valid is decided by Angular's validators and is an
    input of the model ([invalid]), as is [String.prototype.trim]. A form
    control is modelled by its value; a control of type
    [FormControl<string | null>] holds an [option string], [None] being
    [null]. *)

Module Viewer.
Record t := mk {
  pageTemplates : list PageTemplate.t;
  bookTemplates : list BookTemplate.t;
  catalogTemplates : list CatalogTemplate.t;
  pageInstances : list PageInstance.t;
  bookInstances : list BookInstance.t;
  catalogInstances : list CatalogInstance.t;
}.
End Viewer.

(** The component once the six feeds have delivered the collections of
    snapshot [s]. *)
Definition viewing (s : TemplateState) : Viewer.t :=
  {| Viewer.pageTemplates := pageTemplates s;
     Viewer.bookTemplates := bookTemplates s;
     Viewer.catalogTemplates := catalogTemplates s;
     Viewer.pageInstances := pages s;
     Viewer.bookInstances := books s;
     Viewer.catalogInstances := catalogs s |}.

(** [Array.prototype.find]: the first element that satisfies [P]. *)
Definition array_find {A} (P : A → Prop) `{!∀ x, Decision (P x)}
    (l : list A) : option A :=
  head (filter P l).

(** The truthiness of a [string | null]: neither [null] nor empty. *)
Definition truthy_string (v : option string) : Prop :=
  match v with
  | Some x => x ≠ ""
  | None => False
  end.

#[export] Instance truthy_string_dec v : Decision (truthy_string v).
Proof. destruct v; simpl; apply _. Defined.

(** [pageTemplateFields], lines 223-225. *)
Definition pageTemplateFields (this : Viewer.t) (templateId : string)
  : option PageTemplate.t :=
  array_find (λ template, PageTemplate.id template = templateId)
             (Viewer.pageTemplates this).

(** [pagesForTemplate], lines 227-229. *)
Definition pagesForTemplate (this : Viewer.t) (templateId : string)
  : list PageInstance.t :=
  filter (λ page, PageInstance.templateId page = templateId)
         (Viewer.pageInstances this).

(** [booksForTemplate], lines 231-233. *)
Definition booksForTemplate (this : Viewer.t) (templateId : string)
  : list BookInstance.t :=
  filter (λ book, BookInstance.templateId book = templateId)
         (Viewer.bookInstances this).

(** [pageTemplateName], lines 239-241:
    [find(...)?.name ?? 'Untitled page']. *)
Definition pageTemplateName (this : Viewer.t) (templateId : string) : string :=
  match array_find (λ template, PageTemplate.id template = templateId)
                   (Viewer.pageTemplates this) with
  | Some template => PageTemplate.name template
  | None => "Untitled page"
  end.

(** [bookTemplateName], lines 243-245. *)
Definition bookTemplateName (this : Viewer.t) (templateId : string) : string :=
  match array_find (λ template, BookTemplate.id template = templateId)
                   (Viewer.bookTemplates this) with
  | Some template => BookTemplate.name template
  | None => "Untitled book"
  end.

(** The values of the three forms. *)
Module PageInstanceForm.
Record t := mk {
  templateId : option string;
  title : string;
  values : gmap string string;
}.
End PageInstanceForm.

Module BookInstanceForm.
Record t := mk {
  templateId : option string;
  title : string;
  pageSelections : list (option string);
}.
End BookInstanceForm.

Module CatalogInstanceForm.
Record t := mk {
  templateId : option string;
  title : string;
  bookSelections : list (option string);
}.
End CatalogInstanceForm.

(** [controls.map((control) => control.value).filter((value) => !!value)]:
    the selections that are neither [null] nor empty, in order. *)
Definition selected (selections : list (option string)) : list string :=
  omap (λ value, match value with
                 | Some x => if decide (x ≠ "") then Some x else None
                 | None => None
                 end) selections.

(** [this.<templates>.find((item) => item.id === templateId)] for the
    [string | null] value of a form control: [null] equals no id. *)
Definition find_by_control {A} (id : A → string) (templateId : option string)
    (templates : list A) : option A :=
  match templateId with
  | Some x => array_find (λ item, id item = x) templates
  | None => None
  end.

(** What a submit method hands to the service: the arguments of the
    create call, or [None] when the method returns before the call. *)

(** [submitPageInstance], lines 128-149. *)
Definition submitPageInstance (invalid : bool) (trim : string → string)
    (this : Viewer.t) (form : PageInstanceForm.t)
  : option (string * string * gmap string string) :=
  if invalid then None
  else
    match find_by_control PageTemplate.id (PageInstanceForm.templateId form)
            (Viewer.pageTemplates this) with
    | None => None
    | Some template =>
        Some (PageTemplate.id template, trim (PageInstanceForm.title form),
              PageInstanceForm.values form)
    end.

(** [submitBookInstance], lines 151-178. *)
Definition submitBookInstance (invalid : bool) (trim : string → string)
    (this : Viewer.t) (form : BookInstanceForm.t)
  : option (string * string * list string) :=
  if invalid || bool_decide (length (BookInstanceForm.pageSelections form) = 0)
  then None
  else
    match find_by_control BookTemplate.id (BookInstanceForm.templateId form)
            (Viewer.bookTemplates this) with
    | None => None
    | Some template =>
        let selectedPages := selected (BookInstanceForm.pageSelections form) in
        if bool_decide (length selectedPages
                        ≠ length (BookTemplate.pageTemplateIds template))
        then None
        else Some (BookTemplate.id template,
                   trim (BookInstanceForm.title form), selectedPages)
    end.

(** [submitCatalogInstance], lines 180-209. *)
Definition submitCatalogInstance (invalid : bool) (trim : string → string)
    (this : Viewer.t) (form : CatalogInstanceForm.t)
  : option (string * string * list string) :=
  if invalid
     || bool_decide (length (CatalogInstanceForm.bookSelections form) = 0)
  then None
  else
    match find_by_control CatalogTemplate.id
            (CatalogInstanceForm.templateId form)
            (Viewer.catalogTemplates this) with
    | None => None
    | Some template =>
        let selectedBooks := selected (CatalogInstanceForm.bookSelections form) in
        if bool_decide (length selectedBooks
                        ≠ length (CatalogTemplate.bookTemplateIds template))
        then None
        else Some (CatalogTemplate.id template,
                   trim (CatalogInstanceForm.title form), selectedBooks)
    end.

(** The loop of [validateBookSelections] and [validateCatalogSelections]
    over the controls: a selection that is set and is not among the valid
    ids becomes [null]
    ([if (control.value && !valid.has(control.value)) control.setValue(null)]).
    The validators the loop attaches do not change the values. *)
Definition clear_invalid (valid : gset string)
    (selections : list (option string)) : list (option string) :=
  (λ value, match value with
            | Some x => if decide (x ≠ "" ∧ x ∉ valid) then None else Some x
            | None => None
            end) <$> selections.

(** [validateBookSelections], lines 327-348. *)
Definition validateBookSelections (this : Viewer.t) (form : BookInstanceForm.t)
  : BookInstanceForm.t :=
  match BookInstanceForm.templateId form with
  | None => form
  | Some templateId =>
      if decide (templateId = "") then form
      else
        match array_find (λ item, BookTemplate.id item = templateId)
                (Viewer.bookTemplates this) with
        | None => form
        | Some template =>
            let validPageIds : gset string :=
              list_to_set (PageInstance.id <$>
                filter (λ page, PageInstance.templateId page
                                  ∈ BookTemplate.pageTemplateIds template)
                       (Viewer.pageInstances this)) in
            {| BookInstanceForm.templateId := BookInstanceForm.templateId form;
               BookInstanceForm.title := BookInstanceForm.title form;
               BookInstanceForm.pageSelections :=
                 clear_invalid validPageIds
                   (BookInstanceForm.pageSelections form) |}
        end
  end.

(** [validateCatalogSelections], lines 350-371. *)
Definition validateCatalogSelections (this : Viewer.t)
    (form : CatalogInstanceForm.t) : CatalogInstanceForm.t :=
  match CatalogInstanceForm.templateId form with
  | None => form
  | Some templateId =>
      if decide (templateId = "") then form
      else
        match array_find (λ item, CatalogTemplate.id item = templateId)
                (Viewer.catalogTemplates this) with
        | None => form
        | Some template =>
            let validBookIds : gset string :=
              list_to_set (BookInstance.id <$>
                filter (λ book, BookInstance.templateId book
                                  ∈ CatalogTemplate.bookTemplateIds template)
                       (Viewer.bookInstances this)) in
            {| CatalogInstanceForm.templateId :=
                 CatalogInstanceForm.templateId form;
               CatalogInstanceForm.title := CatalogInstanceForm.title form;
               CatalogInstanceForm.bookSelections :=
                 clear_invalid validBookIds
                   (CatalogInstanceForm.bookSelections form) |}
        end
  end.

(** [templateId ? list.find((item) => item.id === templateId) : undefined] *)
Definition find_if_set {A} (id : A → string) (templateId : option string)
    (templates : list A) : option A :=
  match templateId with
  | Some x =>
      if decide (x = "") then None
      else array_find (λ item, id item = x) templates
  | None => None
  end.

(** [configureBookSelections], lines 261-273: the array is cleared and
    gets one [null] control per page template of the template. *)
Definition configureBookSelections (this : Viewer.t)
    (templateId : option string) (form : BookInstanceForm.t)
  : BookInstanceForm.t :=
  {| BookInstanceForm.templateId := BookInstanceForm.templateId form;
     BookInstanceForm.title := BookInstanceForm.title form;
     BookInstanceForm.pageSelections :=
       match find_if_set BookTemplate.id templateId
               (Viewer.bookTemplates this) with
       | None => []
       | Some template =>
           (λ _, None) <$> BookTemplate.pageTemplateIds template
       end |}.

(** [configureCatalogSelections], lines 275-287. *)
Definition configureCatalogSelections (this : Viewer.t)
    (templateId : option string) (form : CatalogInstanceForm.t)
  : CatalogInstanceForm.t :=
  {| CatalogInstanceForm.templateId := CatalogInstanceForm.templateId form;
     CatalogInstanceForm.title := CatalogInstanceForm.title form;
     CatalogInstanceForm.bookSelections :=
       match find_if_set CatalogTemplate.id templateId
               (Viewer.catalogTemplates this) with
       | None => []
       | Some template =>
           (λ _, None) <$> CatalogTemplate.bookTemplateIds template
       end |}.

(** [syncBookTemplateSelection], lines 301-312. When the selected
    template is gone the form is reset to an empty [templateId] and the
    array is cleared; otherwise the selections are configured anew for
    the selected template. *)
Definition syncBookTemplateSelection (this : Viewer.t)
    (form : BookInstanceForm.t) : BookInstanceForm.t :=
  let selectedId := BookInstanceForm.templateId form in
  if decide (truthy_string selectedId
             ∧ ¬ Exists (λ template, Some (BookTemplate.id template) = selectedId)
                        (Viewer.bookTemplates this))
  then {| BookInstanceForm.templateId := Some "";
          BookInstanceForm.title := "";
          BookInstanceForm.pageSelections := [] |}
  else if decide (truthy_string selectedId)
       then configureBookSelections this selectedId form
       else form.

(** [syncCatalogTemplateSelection], lines 314-325. *)
Definition syncCatalogTemplateSelection (this : Viewer.t)
    (form : CatalogInstanceForm.t) : CatalogInstanceForm.t :=
  let selectedId := CatalogInstanceForm.templateId form in
  if decide (truthy_string selectedId
             ∧ ¬ Exists (λ template,
                           Some (CatalogTemplate.id template) = selectedId)
                        (Viewer.catalogTemplates this))
  then {| CatalogInstanceForm.templateId := Some "";
          CatalogInstanceForm.title := "";
          CatalogInstanceForm.bookSelections := [] |}
  else if decide (truthy_string selectedId)
       then configureCatalogSelections this selectedId form
       else form.

(** The set [validPageIds] of [validateBookSelections]: the pages of the
    page templates the book template lists. *)
Definition validPageIds (this : Viewer.t) (template : BookTemplate.t)
  : gset string :=
  list_to_set (PageInstance.id <$>
    filter (λ page, PageInstance.templateId page
                      ∈ BookTemplate.pageTemplateIds template)
           (Viewer.pageInstances this)).

(** The set [validBookIds] of [validateCatalogSelections]. *)
Definition validBookIds (this : Viewer.t) (template : CatalogTemplate.t)
  : gset string :=
  list_to_set (BookInstance.id <$>
    filter (λ book, BookInstance.templateId book
                      ∈ CatalogTemplate.bookTemplateIds template)
           (Viewer.bookInstances this)).

(** Sample forms over scenario 1: the book template is selected and the
    page of scenario 1 is chosen for its one place. *)
Definition book_form : BookInstanceForm.t :=
  {| BookInstanceForm.templateId := Some "bt-k3f9000003";
     BookInstanceForm.title := "B2";
     BookInstanceForm.pageSelections := [Some "p-k3f9000002"] |}.

Definition page_form : PageInstanceForm.t :=
  {| PageInstanceForm.templateId := Some "pt-k3f9000001";
     PageInstanceForm.title := "P2";
     PageInstanceForm.values := {[ "field-k3f9zzzzzz" := "ho" ]} |}.

(** A stand-in for [String.prototype.trim] on strings without blanks. *)
Definition sample_trim : string → string := λ s, s.

(** A catalog form over the state of [orphaned_catalog] before the
    removal: the catalog template is selected and the one book chosen. *)
Definition catalog_state : TemplateState := final_state (take 6 orphaned_catalog).

Definition catalog_form : CatalogInstanceForm.t :=
  {| CatalogInstanceForm.templateId := Some "ct-k3f9000004";
     CatalogInstanceForm.title := "C";
     CatalogInstanceForm.bookSelections := [Some "b-k3f9000006"] |}.

(** The state of scenario 2 before its catalog is created, and a form
    that selects the catalog template and one book for each of its two
    book templates. *)
Definition two_books_state : TemplateState := final_state (take 7 scenario2).

Definition two_books_form : CatalogInstanceForm.t :=
  {| CatalogInstanceForm.templateId := Some "ct-k3f9000004";
     CatalogInstanceForm.title := "C1";
     CatalogInstanceForm.bookSelections :=
       [Some "b-k3f9000006"; Some "b-k3f9000007"] |}.

(** ** Unique ids *)

(** Within each collection no two entities carry the same id. *)
Definition unique_ids (s : TemplateState) : Prop :=
  NoDup (PageTemplate.id <$> pageTemplates s)
  ∧ NoDup (BookTemplate.id <$> bookTemplates s)
  ∧ NoDup (CatalogTemplate.id <$> catalogTemplates s)
  ∧ NoDup (PageInstance.id <$> pages s)
  ∧ NoDup (BookInstance.id <$> books s)
  ∧ NoDup (CatalogInstance.id <$> catalogs s).

(** The id [createId] draws for a create operation is carried by no
    entity of the kind yet. *)
Definition fresh_id (s : TemplateState) (op : Op) : Prop :=
  match created op with
  | Some (k, x) => x ∉ target_ids k s
  | None => True
  end.

Fixpoint fresh_ids (s : TemplateState) (ops : list Op) : Prop :=
  match ops with
  | [] => True
  | op :: ops' => fresh_id s op ∧ fresh_ids (next_state s op) ops'
  end.

(** What [removeBookInstance] makes of a catalog before deciding whether
    to keep it. *)
Definition catalog_without_book (bookId : string) (catalog : CatalogInstance.t)
  : CatalogInstance.t :=
  with_bookInstanceIds catalog
    (filter (λ id, id ≠ bookId) (CatalogInstance.bookInstanceIds catalog)).
(** Closed decidable statements are settled by evaluation. *)
Ltac by_evaluation := apply (bool_decide_unpack _); vm_compute; exact I.

(** * Facts about filtering *)

Section FilterFacts.
Context {A : Type} (P : A → Prop) `{!∀ x, Decision (P x)}.

Lemma filter_all (l : list A) : Forall P l → filter P l = l.
Proof.
  induction 1 as [|x l Hx _ IH]; [done|].
  by rewrite filter_cons_True, IH.
Qed.

Lemma filter_none (l : list A) : Forall (λ x, ¬ P x) l → filter P l = [].
Proof.
  induction 1 as [|x l Hx _ IH]; [done|].
  by rewrite filter_cons_False.
Qed.

Lemma Forall_filter_same (l : list A) : Forall P (filter P l).
Proof. apply Forall_forall. intros x [Hx _]%list_elem_of_filter. exact Hx. Qed.

Lemma filter_twice (l : list A) : filter P (filter P l) = filter P l.
Proof. apply filter_all, Forall_filter_same. Qed.

Lemma filter_nil_iff (l : list A) : filter P l = [] ↔ Forall (λ x, ¬ P x) l.
Proof.
  split; [|apply filter_none].
  intros Hnil. apply Forall_forall. intros x Hx HP.
  by apply (filter_nil_not_elem_of P l x).
Qed.
End FilterFacts.

Lemma length_pos_iff {A} (l : list A) : 0 < length l ↔ l ≠ [].
Proof. destruct l; simpl; split; (done || lia). Qed.

Section DropRefs.
Context {A : Type} {owner : RefOwner A}.
Context (keep : string → Prop) `{!∀ x, Decision (keep x)}.

Lemma elem_of_drop_refs (a' : A) (l : list A) :
  a' ∈ drop_refs keep l ↔
  ∃ a, a ∈ l ∧ a' = with_refs a (filter keep (refs a))
       ∧ filter keep (refs a) ≠ [].
Proof.
  unfold drop_refs. rewrite list_elem_of_filter, list_elem_of_fmap. split.
  - intros [Hlen (a & -> & Ha)]. exists a. split_and!; [done..|].
    rewrite refs_with_refs in Hlen. by apply length_pos_iff.
  - intros (a & Ha & -> & Hne). split; [|by exists a].
    rewrite refs_with_refs. by apply length_pos_iff.
Qed.

Lemma drop_refs_nonempty (l : list A) :
  Forall (λ a, refs a ≠ []) (drop_refs keep l).
Proof.
  apply Forall_forall. intros a' (a & _ & -> & Hne)%elem_of_drop_refs.
  by rewrite refs_with_refs.
Qed.

Lemma drop_refs_kept (l : list A) :
  Forall (λ a, Forall keep (refs a)) (drop_refs keep l).
Proof.
  apply Forall_forall. intros a' (a & _ & -> & _)%elem_of_drop_refs.
  rewrite refs_with_refs. apply Forall_filter_same.
Qed.

(** Owners that are already clean and non-empty are left as they are. *)
Lemma drop_refs_fixed (l : list A) :
  Forall (λ a, refs a ≠ [] ∧ Forall keep (refs a)) l →
  drop_refs keep l = l.
Proof.
  unfold drop_refs. induction 1 as [|a l [Hne Hk] _ IH]; [done|].
  rewrite fmap_cons, (filter_all keep (refs a) Hk), with_refs_same.
  rewrite filter_cons_True by by apply length_pos_iff.
  by rewrite IH.
Qed.

Lemma drop_refs_keys_sublist (l : list A) :
  key <$> drop_refs keep l `sublist_of` key <$> l.
Proof.
  unfold drop_refs.
  etrans; [apply fmap_sublist, sublist_filter|].
  rewrite <-list_fmap_compose.
  erewrite list_fmap_ext; [done|].
  intros i a _. simpl. apply key_with_refs.
Qed.

End DropRefs.

Lemma gone_keys_self {A} {owner : RefOwner A} (l : list A) : gone_keys l l = [].
Proof.
  unfold gone_keys. apply filter_none, Forall_forall.
  intros id (a & -> & Ha)%list_elem_of_fmap Hno. apply Hno.
  apply Exists_exists. by exists a.
Qed.

Lemma elem_of_gone_keys {A} {owner : RefOwner A} (before after : list A) (id : string) :
  id ∈ gone_keys before after ↔
  id ∈ key <$> before ∧ id ∉ key <$> after.
Proof.
  unfold gone_keys. rewrite list_elem_of_filter, Exists_exists.
  rewrite (list_elem_of_fmap key after). split.
  - intros [Hno Hb]. split; [done|]. intros (a & -> & Ha). apply Hno. eauto.
  - intros [Hb Hno]. split; [|done]. intros (a & Ha & <-). apply Hno. eauto.
Qed.

(** The local constants of the service methods, in these terms. *)

Lemma rpt_updatedBooks_eq s T :
  rpt_updatedBooks s T = drop_refs (λ id, id ∉ rpt_pagesToRemove s T) (books s).
Proof. reflexivity. Qed.

Lemma rpt_updatedBookTemplates_eq s T :
  rpt_updatedBookTemplates s T = drop_refs (λ id, id ≠ T) (bookTemplates s).
Proof. reflexivity. Qed.

Lemma rpt_removedBookIds_eq s T :
  rpt_removedBookIds s T
  = list_to_set (gone_keys (books s) (rpt_booksAfterTemplateCleanup s T)).
Proof. reflexivity. Qed.

Lemma rpt_cleanedCatalogs_eq s T :
  rpt_cleanedCatalogs s T
  = drop_refs (λ id, id ∉ rpt_removedBookIds s T) (catalogs s).
Proof. reflexivity. Qed.

Lemma rpt_cleanedCatalogTemplates_eq s T :
  rpt_cleanedCatalogTemplates s T
  = drop_refs (λ id, id ∈ rpt_validBookTemplateIds s T) (catalogTemplates s).
Proof. reflexivity. Qed.

Lemma rbt_updatedCatalogTemplates_eq s T :
  rbt_updatedCatalogTemplates s T
  = drop_refs (λ id, id ≠ T) (catalogTemplates s).
Proof. reflexivity. Qed.

Lemma rpi_updatedBooks_eq s x :
  rpi_updatedBooks s x = drop_refs (λ id, id ≠ x) (books s).
Proof. reflexivity. Qed.

Lemma rpi_removedBookIds_eq s x :
  rpi_removedBookIds s x
  = list_to_set (gone_keys (books s) (rpi_updatedBooks s x)).
Proof. reflexivity. Qed.

Lemma rpi_updatedCatalogs_eq s x :
  rpi_updatedCatalogs s x
  = drop_refs (λ id, id ∉ rpi_removedBookIds s x) (catalogs s).
Proof. reflexivity. Qed.

Lemma removeBookInstance_catalogs_eq s x :
  catalogs (removeBookInstance s x) = drop_refs (λ id, id ≠ x) (catalogs s).
Proof. reflexivity. Qed.

(** * Frame of [removeBookTemplate] *)

(** C10: [removeBookTemplate] leaves the [pages] and [pageTemplates]
    collections exactly as they were, for every state and every id. *)
Theorem removeBookTemplate_frame (s : TemplateState) (templateId : string) :
  pages (removeBookTemplate s templateId) = pages s
  ∧ pageTemplates (removeBookTemplate s templateId) = pageTemplates s.
Proof. split; reflexivity. Qed.

(** * Shape B: [removeBookTemplate] drops whole catalogs *)

Lemma elem_of_rbt_booksToRemove s T id :
  id ∈ rbt_booksToRemove s T ↔
  ∃ b, b ∈ books s ∧ BookInstance.templateId b = T ∧ BookInstance.id b = id.
Proof.
  unfold rbt_booksToRemove.
  rewrite elem_of_list_to_set, list_elem_of_fmap.
  split.
  - intros (b & -> & [HT Hb]%list_elem_of_filter). eauto.
  - intros (b & Hb & HT & <-). exists b. split; [done|].
    apply list_elem_of_filter. done.
Qed.

Lemma rbt_catalog_survives s T c :
  Forall (λ id, id ∉ rbt_booksToRemove s T) (CatalogInstance.bookInstanceIds c)
  ↔ ¬ references_book_of s T c.
Proof.
  rewrite Forall_forall. unfold references_book_of. split.
  - intros Hall (b & Hb & HT & Hin). apply (Hall _ Hin).
    apply elem_of_rbt_booksToRemove. eauto.
  - intros Hno id Hin (b & Hb & HT & <-)%elem_of_rbt_booksToRemove.
    apply Hno. eauto.
Qed.

(** C2: after [removeBookTemplate s T] the catalogs are a subsequence of
    the catalogs of [s], each one unchanged, and a catalog of [s] is among
    them exactly when it lists no [BookInstance] of template [T]. A
    catalog that lists such a book is gone as a whole, whatever else it
    lists; no list is filtered. *)
Theorem removeBookTemplate_drops_whole_catalogs (s : TemplateState) (T : string) :
  catalogs (removeBookTemplate s T) `sublist_of` catalogs s
  ∧ ∀ c, c ∈ catalogs (removeBookTemplate s T)
         ↔ c ∈ catalogs s ∧ ¬ references_book_of s T c.
Proof.
  split.
  - apply sublist_filter.
  - intros c. simpl. unfold rbt_updatedCatalogs.
    rewrite list_elem_of_filter, rbt_catalog_survives. tauto.
Qed.

(** Scenario 2: removing [BT1] deletes catalog [C1] although it also
    holds [B2], a book of [BT2]; [B2] and the catalog template stay. *)
Example scenario2_final :
  catalogs (final_state scenario2) = []
  ∧ BookInstance.id <$> books (final_state scenario2) = ["b-k3f9000007"]
  ∧ CatalogTemplate.bookTemplateIds <$> catalogTemplates (final_state scenario2)
    = [["bt-k3f9000003"]].
Proof. vm_compute. done. Qed.

(** * Order of the survivors *)

Lemma filter_keys_sublist {A} (f : A → string) (P : A → Prop)
    `{!∀ x, Decision (P x)} (l : list A) :
  f <$> filter P l `sublist_of` f <$> l.
Proof. apply fmap_sublist, sublist_filter. Qed.

(** C8: for each of the six remove operations, every state and every id,
    the ids of each collection after the operation form a subsequence of
    the ids of that collection before it: the survivors keep their
    relative order. *)
Theorem remove_keeps_order (k : RemoveKind) (s : TemplateState) (x : string) :
  ids_in_order s (remove k s x).
Proof.
  unfold ids_in_order.
  destruct k; simpl; split_and!;
    try reflexivity;
    try apply filter_keys_sublist.
  - rewrite rpt_updatedBookTemplates_eq.
    apply (drop_refs_keys_sublist (owner:=BookTemplate_owner)).
  - rewrite rpt_cleanedCatalogTemplates_eq.
    apply (drop_refs_keys_sublist (owner:=CatalogTemplate_owner)).
  - unfold rpt_booksAfterTemplateCleanup.
    etrans; [apply filter_keys_sublist|].
    rewrite rpt_updatedBooks_eq.
    apply (drop_refs_keys_sublist (owner:=BookInstance_owner)).
  - rewrite rpt_cleanedCatalogs_eq.
    apply (drop_refs_keys_sublist (owner:=CatalogInstance_owner)).
  - rewrite rbt_updatedCatalogTemplates_eq.
    apply (drop_refs_keys_sublist (owner:=CatalogTemplate_owner)).
  - rewrite rpi_updatedBooks_eq.
    apply (drop_refs_keys_sublist (owner:=BookInstance_owner)).
  - rewrite rpi_updatedCatalogs_eq.
    apply (drop_refs_keys_sublist (owner:=CatalogInstance_owner)).
  - apply (drop_refs_keys_sublist (owner:=CatalogInstance_owner)).
Qed.

(** * Idempotence of the remove operations *)

Section DropRefsTwice.
Context {A : Type} {owner : RefOwner A}.
Context (keep keep' : string → Prop).
Context `{!∀ x, Decision (keep x)} `{!∀ x, Decision (keep' x)}.

(** A second pass whose filter lets through whatever the first pass left
    changes nothing. *)
Lemma drop_refs_stable (l : list A) :
  Forall (λ a, Forall keep' (refs a)) (drop_refs keep l) →
  drop_refs keep' (drop_refs keep l) = drop_refs keep l.
Proof.
  intros Hk. apply drop_refs_fixed.
  apply Forall_and. split; [apply drop_refs_nonempty | exact Hk].
Qed.

Lemma drop_refs_weaken (l : list A) :
  (∀ id, keep id → keep' id) →
  drop_refs keep' (drop_refs keep l) = drop_refs keep l.
Proof.
  intros Himp. apply drop_refs_stable.
  eapply Forall_impl; [apply drop_refs_kept|].
  intros a Ha. eapply Forall_impl; [exact Ha | exact Himp].
Qed.
End DropRefsTwice.

Lemma removeCatalogInstance_idempotent s x :
  removeCatalogInstance (removeCatalogInstance s x) x = removeCatalogInstance s x.
Proof. unfold removeCatalogInstance. simpl. by rewrite filter_twice. Qed.

Lemma removeCatalogTemplate_idempotent s x :
  removeCatalogTemplate (removeCatalogTemplate s x) x = removeCatalogTemplate s x.
Proof. unfold removeCatalogTemplate. simpl. by rewrite !filter_twice. Qed.

Lemma removeBookInstance_idempotent s x :
  removeBookInstance (removeBookInstance s x) x = removeBookInstance s x.
Proof.
  unfold removeBookInstance. simpl. rewrite filter_twice. f_equal.
  apply (drop_refs_weaken (owner:=CatalogInstance_owner)). auto.
Qed.

(** After [removePageInstance s x] no book is left to remove. *)
Lemma rpi_updatedBooks_again s x :
  rpi_updatedBooks (removePageInstance s x) x = rpi_updatedBooks s x.
Proof.
  rewrite (rpi_updatedBooks_eq (removePageInstance s x)). simpl.
  rewrite rpi_updatedBooks_eq.
  apply (drop_refs_weaken (owner:=BookInstance_owner)). auto.
Qed.

Lemma rpi_removedBookIds_again s x id :
  id ∉ rpi_removedBookIds (removePageInstance s x) x.
Proof.
  rewrite rpi_removedBookIds_eq, rpi_updatedBooks_again. simpl.
  rewrite gone_keys_self. set_solver.
Qed.

Lemma rpi_updatedCatalogs_again s x :
  rpi_updatedCatalogs (removePageInstance s x) x = rpi_updatedCatalogs s x.
Proof.
  rewrite (rpi_updatedCatalogs_eq (removePageInstance s x)). simpl.
  rewrite rpi_updatedCatalogs_eq.
  apply (drop_refs_stable (owner:=CatalogInstance_owner)).
  apply Forall_forall. intros c _. apply Forall_forall. intros id _.
  apply rpi_removedBookIds_again.
Qed.

Lemma removePageInstance_idempotent s x :
  removePageInstance (removePageInstance s x) x = removePageInstance s x.
Proof.
  unfold removePageInstance at 1.
  rewrite rpi_updatedBooks_again, rpi_updatedCatalogs_again.
  simpl. by rewrite filter_twice.
Qed.

Lemma rbt_booksToRemove_again s T id :
  id ∉ rbt_booksToRemove (removeBookTemplate s T) T.
Proof.
  intros (b & Hb & HT & _)%elem_of_rbt_booksToRemove.
  simpl in Hb. apply list_elem_of_filter in Hb as [Hne _]. done.
Qed.

Lemma rbt_updatedCatalogs_again s T :
  rbt_updatedCatalogs (removeBookTemplate s T) T = rbt_updatedCatalogs s T.
Proof.
  unfold rbt_updatedCatalogs at 1. apply filter_all.
  apply Forall_forall. intros c _. apply Forall_forall. intros id _.
  apply rbt_booksToRemove_again.
Qed.

Lemma rbt_updatedCatalogTemplates_again s T :
  rbt_updatedCatalogTemplates (removeBookTemplate s T) T
  = rbt_updatedCatalogTemplates s T.
Proof.
  rewrite (rbt_updatedCatalogTemplates_eq (removeBookTemplate s T)). simpl.
  rewrite rbt_updatedCatalogTemplates_eq.
  apply (drop_refs_weaken (owner:=CatalogTemplate_owner)). auto.
Qed.

Lemma removeBookTemplate_idempotent s T :
  removeBookTemplate (removeBookTemplate s T) T = removeBookTemplate s T.
Proof.
  unfold removeBookTemplate at 1.
  rewrite rbt_updatedCatalogs_again, rbt_updatedCatalogTemplates_again.
  simpl. by rewrite !filter_twice.
Qed.

(** The local constants of [removePageTemplate], computed on its own
    result. *)

Lemma rpt_pagesToRemove_again s T id :
  id ∉ rpt_pagesToRemove (removePageTemplate s T) T.
Proof.
  unfold rpt_pagesToRemove. rewrite elem_of_list_to_set, list_elem_of_fmap.
  intros (p & _ & [HT Hp]%list_elem_of_filter). simpl in Hp.
  apply list_elem_of_filter in Hp as [Hne _]. done.
Qed.

Lemma rpt_books_nonempty s T :
  Forall (λ b, refs b ≠ []) (rpt_booksAfterTemplateCleanup s T).
Proof.
  unfold rpt_booksAfterTemplateCleanup. rewrite rpt_updatedBooks_eq.
  apply Forall_forall. intros b [_ Hb]%list_elem_of_filter. revert b Hb.
  apply Forall_forall, (drop_refs_nonempty (owner:=BookInstance_owner)).
Qed.

Lemma rpt_updatedBooks_again s T :
  rpt_updatedBooks (removePageTemplate s T) T
  = rpt_booksAfterTemplateCleanup s T.
Proof.
  rewrite rpt_updatedBooks_eq. simpl.
  apply (drop_refs_fixed (owner:=BookInstance_owner)).
  eapply Forall_impl; [apply rpt_books_nonempty|].
  intros b Hb. split; [done|].
  apply Forall_forall. intros id _. apply rpt_pagesToRemove_again.
Qed.

Lemma rpt_updatedBookTemplates_again s T :
  rpt_updatedBookTemplates (removePageTemplate s T) T
  = rpt_updatedBookTemplates s T.
Proof.
  rewrite (rpt_updatedBookTemplates_eq (removePageTemplate s T)). simpl.
  rewrite rpt_updatedBookTemplates_eq.
  apply (drop_refs_weaken (owner:=BookTemplate_owner)). auto.
Qed.

Lemma rpt_validBookTemplateIds_again s T :
  rpt_validBookTemplateIds (removePageTemplate s T) T
  = rpt_validBookTemplateIds s T.
Proof.
  unfold rpt_validBookTemplateIds. by rewrite rpt_updatedBookTemplates_again.
Qed.

Lemma rpt_booksAfterTemplateCleanup_again s T :
  rpt_booksAfterTemplateCleanup (removePageTemplate s T) T
  = rpt_booksAfterTemplateCleanup s T.
Proof.
  unfold rpt_booksAfterTemplateCleanup at 1.
  rewrite rpt_updatedBooks_again. apply filter_all.
  apply Forall_forall. intros b [Hv _]%list_elem_of_filter.
  by rewrite rpt_validBookTemplateIds_again.
Qed.

Lemma rpt_removedBookIds_again s T id :
  id ∉ rpt_removedBookIds (removePageTemplate s T) T.
Proof.
  rewrite rpt_removedBookIds_eq, rpt_booksAfterTemplateCleanup_again. simpl.
  rewrite gone_keys_self. set_solver.
Qed.

Lemma rpt_cleanedCatalogTemplates_again s T :
  rpt_cleanedCatalogTemplates (removePageTemplate s T) T
  = rpt_cleanedCatalogTemplates s T.
Proof.
  rewrite (rpt_cleanedCatalogTemplates_eq (removePageTemplate s T)). simpl.
  rewrite rpt_cleanedCatalogTemplates_eq.
  apply (drop_refs_weaken (owner:=CatalogTemplate_owner)).
  intros id. by rewrite rpt_validBookTemplateIds_again.
Qed.

Lemma rpt_cleanedCatalogs_again s T :
  rpt_cleanedCatalogs (removePageTemplate s T) T = rpt_cleanedCatalogs s T.
Proof.
  rewrite (rpt_cleanedCatalogs_eq (removePageTemplate s T)). simpl.
  rewrite rpt_cleanedCatalogs_eq.
  apply (drop_refs_stable (owner:=CatalogInstance_owner)).
  apply Forall_forall. intros c _. apply Forall_forall. intros id _.
  apply rpt_removedBookIds_again.
Qed.

Lemma removePageTemplate_idempotent s T :
  removePageTemplate (removePageTemplate s T) T = removePageTemplate s T.
Proof.
  unfold removePageTemplate at 1.
  rewrite rpt_updatedBookTemplates_again, rpt_booksAfterTemplateCleanup_again,
    rpt_cleanedCatalogTemplates_again, rpt_cleanedCatalogs_again.
  simpl. by rewrite !filter_twice.
Qed.

(** C4: each of the six remove operations is idempotent: applied twice
    with the same id, from any state, it yields the state it yields when
    applied once. *)
Theorem remove_idempotent (k : RemoveKind) (s : TemplateState) (x : string) :
  remove k (remove k s x) x = remove k s x.
Proof.
  destruct k; simpl.
  - apply removePageTemplate_idempotent.
  - apply removeBookTemplate_idempotent.
  - apply removeCatalogTemplate_idempotent.
  - apply removePageInstance_idempotent.
  - apply removeBookInstance_idempotent.
  - apply removeCatalogInstance_idempotent.
Qed.

(** * Shape A: [removePageInstance] *)

Lemma elem_of_rpi_updatedBooks s x b' :
  b' ∈ rpi_updatedBooks s x ↔
  ∃ b, b ∈ books s ∧ b' = book_without_page x b
       ∧ BookInstance.pageInstanceIds (book_without_page x b) ≠ [].
Proof.
  rewrite rpi_updatedBooks_eq.
  apply (elem_of_drop_refs (owner:=BookInstance_owner)).
Qed.

Lemma rpi_updatedBooks_nonempty s x :
  Forall (λ b, BookInstance.pageInstanceIds b ≠ []) (rpi_updatedBooks s x).
Proof.
  rewrite rpi_updatedBooks_eq.
  apply (drop_refs_nonempty (owner:=BookInstance_owner)).
Qed.

Lemma rpi_updatedBooks_clean s x :
  Forall (λ b, x ∉ BookInstance.pageInstanceIds b) (rpi_updatedBooks s x).
Proof.
  apply Forall_forall. intros b' (b & _ & -> & _)%elem_of_rpi_updatedBooks.
  simpl. intros [Hne _]%list_elem_of_filter. done.
Qed.

Lemma only_page_iff (x : string) (l : list string) :
  filter (λ id, id ≠ x) l = [] ↔ Forall (λ id, id = x) l.
Proof.
  rewrite filter_nil_iff. apply Forall_iff. intros id.
  destruct (decide (id = x)); naive_solver.
Qed.

Lemma book_without_page_absent_iff s x B :
  B ∈ books s →
  book_without_page x B ∉ rpi_updatedBooks s x
  ↔ Forall (λ id, id = x) (BookInstance.pageInstanceIds B).
Proof.
  intros HB. rewrite <-only_page_iff. split.
  - intros Habs.
    destruct (filter (λ id, id ≠ x) (BookInstance.pageInstanceIds B))
      as [|i l] eqn:Hf; [done|].
    exfalso. apply Habs, elem_of_rpi_updatedBooks.
    exists B. split_and!; [done..|]. simpl. by rewrite Hf.
  - intros Hnil Hin.
    pose proof (rpi_updatedBooks_nonempty s x) as Hne.
    rewrite Forall_forall in Hne. by apply (Hne _ Hin).
Qed.

(** C5: let book [B] of state [s] list the id of page [P]. After
    [removePageInstance] on that id, either [B] with the id filtered out
    of its list is among the books, or it is not among them; and it is
    not among them exactly when every element of [B]'s list was [P]'s id.
    No surviving book lists the id. When [B] is the only book of [s] with
    its id, absence can be read off the ids: no surviving book has [B]'s
    id exactly when every element of [B]'s list was [P]'s id. *)
Theorem removePageInstance_books_cascade
    (s : TemplateState) (B : BookInstance.t) (P : PageInstance.t) :
  B ∈ books s →
  P ∈ pages s →
  PageInstance.id P ∈ BookInstance.pageInstanceIds B →
  let pid := PageInstance.id P in
  let s' := removePageInstance s pid in
  let B' := book_without_page pid B in
  ((B' ∈ books s' ∧ pid ∉ BookInstance.pageInstanceIds B') ∨ B' ∉ books s')
  ∧ (B' ∉ books s' ↔ Forall (λ id, id = pid) (BookInstance.pageInstanceIds B))
  ∧ Forall (λ b, pid ∉ BookInstance.pageInstanceIds b) (books s')
  ∧ (sole_book_with_its_id s B →
     BookInstance.id B ∉ BookInstance.id <$> books s'
     ↔ Forall (λ id, id = pid) (BookInstance.pageInstanceIds B)).
Proof.
  intros HB _ _ pid s' B'. subst s' B'. simpl.
  pose proof (rpi_updatedBooks_clean s pid) as Hclean.
  split_and!.
  - destruct (decide (book_without_page pid B ∈ rpi_updatedBooks s pid))
      as [Hin|Hout]; [left|by right].
    split; [done|]. rewrite Forall_forall in Hclean. exact (Hclean _ Hin).
  - by apply book_without_page_absent_iff.
  - exact Hclean.
  - intros Hsole. rewrite <-(book_without_page_absent_iff s pid B HB). split.
    + intros Hid Hin. apply Hid, list_elem_of_fmap.
      by exists (book_without_page pid B).
    + intros Hout (b' & Hid & Hin)%list_elem_of_fmap.
      apply elem_of_rpi_updatedBooks in Hin as (b & Hb & -> & Hne).
      simpl in Hid. rewrite (Hsole b Hb) in Hne by done.
      apply Hout, elem_of_rpi_updatedBooks.
      exists B. split_and!; [done..|]. exact Hne.
Qed.

Lemma removePageInstance_books_cascade_witness :
  B1 ∈ books scenario1_before
  ∧ P1 ∈ pages scenario1_before
  ∧ PageInstance.id P1 ∈ BookInstance.pageInstanceIds B1
  ∧ (book_without_page (PageInstance.id P1) B1
       ∉ books (removePageInstance scenario1_before (PageInstance.id P1))
     ↔ Forall (λ id, id = PageInstance.id P1) (BookInstance.pageInstanceIds B1)).
Proof.
  assert (B1 ∈ books scenario1_before) as HB by by_evaluation.
  assert (P1 ∈ pages scenario1_before) as HP by by_evaluation.
  assert (PageInstance.id P1 ∈ BookInstance.pageInstanceIds B1) as Hin
    by by_evaluation.
  split_and!; [done..|].
  apply (removePageInstance_books_cascade scenario1_before B1 P1 HB HP Hin).
Defined.

Lemma elem_of_rpi_updatedCatalogs s x c' :
  c' ∈ rpi_updatedCatalogs s x ↔
  ∃ c, c ∈ catalogs s ∧ c' = catalog_without_removed_books s x c
       ∧ CatalogInstance.bookInstanceIds (catalog_without_removed_books s x c) ≠ [].
Proof.
  rewrite rpi_updatedCatalogs_eq.
  apply (elem_of_drop_refs (owner:=CatalogInstance_owner)).
Qed.

Lemma rpi_updatedCatalogs_nonempty s x :
  Forall (λ c, CatalogInstance.bookInstanceIds c ≠ []) (rpi_updatedCatalogs s x).
Proof.
  rewrite rpi_updatedCatalogs_eq.
  apply (drop_refs_nonempty (owner:=CatalogInstance_owner)).
Qed.

Lemma elem_of_rpi_removedBookIds s x id :
  id ∈ rpi_removedBookIds s x ↔
  id ∈ BookInstance.id <$> books s
  ∧ id ∉ BookInstance.id <$> rpi_updatedBooks s x.
Proof.
  rewrite rpi_removedBookIds_eq, elem_of_list_to_set.
  apply (elem_of_gone_keys (owner:=BookInstance_owner)).
Qed.

(** A catalog whose every listed book was removed has an empty list once
    filtered. *)
Lemma catalog_emptied s x c :
  Forall (λ id, id ∈ rpi_removedBookIds s x) (CatalogInstance.bookInstanceIds c) →
  CatalogInstance.bookInstanceIds (catalog_without_removed_books s x c) = [].
Proof.
  intros Hall. simpl. apply filter_none.
  eapply Forall_impl; [exact Hall|]. naive_solver.
Qed.

(** C9: let [b] be a book of [s] whose [pageInstanceIds] is empty and [x]
    any id. After [removePageInstance s x]: [b] is not among the books,
    and no book with an empty list is; when [b] is the only book with its
    id, that id counts as removed and no surviving book carries it; a
    catalog of [s] whose listed books were all removed is not among the
    catalogs, neither as it was nor with its list emptied, and no catalog
    with an empty list is among them. *)
Theorem removePageInstance_drops_empty_books
    (s : TemplateState) (x : string) (b : BookInstance.t) :
  b ∈ books s →
  BookInstance.pageInstanceIds b = [] →
  let s' := removePageInstance s x in
  (b ∉ books s')
  ∧ Forall (λ b', BookInstance.pageInstanceIds b' ≠ []) (books s')
  ∧ (sole_book_with_its_id s b →
     BookInstance.id b ∈ rpi_removedBookIds s x
     ∧ BookInstance.id b ∉ BookInstance.id <$> books s')
  ∧ (∀ c, c ∈ catalogs s →
       Forall (λ id, id ∈ rpi_removedBookIds s x)
              (CatalogInstance.bookInstanceIds c) →
       (c ∉ catalogs s')
       ∧ (catalog_without_removed_books s x c ∉ catalogs s')
       ∧ (sole_catalog_with_its_id s c →
          CatalogInstance.id c ∉ CatalogInstance.id <$> catalogs s'))
  ∧ Forall (λ c', CatalogInstance.bookInstanceIds c' ≠ []) (catalogs s').
Proof.
  intros Hb Hempty s'. subst s'. simpl.
  pose proof (rpi_updatedBooks_nonempty s x) as Hbne.
  pose proof (rpi_updatedCatalogs_nonempty s x) as Hcne.
  rewrite Forall_forall in Hbne. rewrite Forall_forall in Hcne.
  split_and!.
  - intros Hin. by apply (Hbne _ Hin).
  - by apply Forall_forall.
  - intros Hsole.
    assert (BookInstance.id b ∉ BookInstance.id <$> rpi_updatedBooks s x) as Hgone.
    { intros (b' & Hid & Hin)%list_elem_of_fmap.
      apply elem_of_rpi_updatedBooks in Hin as (b0 & Hb0 & -> & Hne).
      simpl in Hid. rewrite (Hsole b0 Hb0) in Hne by done.
      simpl in Hne. by rewrite Hempty in Hne. }
    split; [|done]. apply elem_of_rpi_removedBookIds. split; [|done].
    by apply list_elem_of_fmap_2.
  - intros c Hc Hall.
    pose proof (catalog_emptied s x c Hall) as Hnil.
    split_and!.
    + intros (c0 & _ & -> & Hne)%elem_of_rpi_updatedCatalogs.
      simpl in Hall, Hne.
      destruct (filter _ (CatalogInstance.bookInstanceIds c0))
        as [|i l] eqn:Hf; [done|].
      apply Forall_cons in Hall as [Hi _].
      assert (i ∈ i :: l) as Hin by left.
      rewrite <-Hf in Hin. apply list_elem_of_filter in Hin as [Hkeep _].
      by apply Hkeep.
    + intros Hin. by apply (Hcne _ Hin).
    + intros Hsole (c' & Hid & Hin)%list_elem_of_fmap.
      apply elem_of_rpi_updatedCatalogs in Hin as (c0 & Hc0 & -> & Hne).
      simpl in Hid. rewrite (Hsole c0 Hc0) in Hne by done. done.
  - by apply Forall_forall.
Qed.

Lemma removePageInstance_drops_empty_books_witness :
  B_empty ∈ books (final_state empty_book)
  ∧ BookInstance.pageInstanceIds B_empty = []
  ∧ (B_empty ∉ books (removePageInstance (final_state empty_book) "p-never")).
Proof.
  assert (B_empty ∈ books (final_state empty_book)) as Hb by by_evaluation.
  split_and!; [done..|].
  apply (removePageInstance_drops_empty_books (final_state empty_book)
           "p-never" B_empty Hb eq_refl).
Defined.

(** * Preservation of the invariants *)

Lemma elem_of_ids {A} (f : A → string) (l : list A) (id : string) :
  id ∈ f <$> l ↔ ∃ a, a ∈ l ∧ f a = id.
Proof.
  rewrite list_elem_of_fmap. split; intros (a & ? & ?); exists a; by split.
Qed.

Lemma ids_filter_ne {A} (f : A → string) (l : list A) (T id : string) :
  id ∈ f <$> l → id ≠ T → id ∈ f <$> filter (λ a, f a ≠ T) l.
Proof.
  rewrite !elem_of_ids. intros (a & Ha & <-) Hne. exists a. split; [|done].
  apply list_elem_of_filter. by split.
Qed.

Lemma ids_app_l {A} (f : A → string) (l l' : list A) (id : string) :
  id ∈ f <$> l → id ∈ f <$> (l ++ l')%list.
Proof. rewrite fmap_app, elem_of_app. by left. Qed.

Lemma Forall_filter_sub {A} (P Q : A → Prop) `{!∀ x, Decision (P x)} (l : list A) :
  Forall Q l → Forall Q (filter P l).
Proof.
  rewrite !Forall_forall. intros HQ a [_ Ha]%list_elem_of_filter. by apply HQ.
Qed.

Lemma Forall_drop_refs {A} {owner : RefOwner A} (keep : string → Prop)
    `{!∀ x, Decision (keep x)} (Q : A → Prop) (l : list A) :
  (∀ a, a ∈ l → Q (with_refs a (filter keep (refs a)))) →
  Forall Q (drop_refs keep l).
Proof.
  intros HQ. apply Forall_forall.
  intros a' (a & Ha & -> & _)%elem_of_drop_refs. by apply HQ.
Qed.

(** Membership in the local sets of the methods. *)

Lemma elem_of_rpt_pagesToRemove s T id :
  id ∈ rpt_pagesToRemove s T ↔
  ∃ p, p ∈ pages s ∧ PageInstance.templateId p = T ∧ PageInstance.id p = id.
Proof.
  unfold rpt_pagesToRemove.
  rewrite elem_of_list_to_set, elem_of_ids. split.
  - intros (p & [HT Hp]%list_elem_of_filter & Hid). eauto.
  - intros (p & Hp & HT & Hid). exists p. split; [|done].
    apply list_elem_of_filter. done.
Qed.

Lemma elem_of_rpt_validBookTemplateIds s T id :
  id ∈ rpt_validBookTemplateIds s T
  ↔ id ∈ BookTemplate.id <$> rpt_updatedBookTemplates s T.
Proof. unfold rpt_validBookTemplateIds. apply elem_of_list_to_set. Qed.

Lemma elem_of_rpt_removedBookIds s T id :
  id ∈ rpt_removedBookIds s T ↔
  id ∈ BookInstance.id <$> books s
  ∧ id ∉ BookInstance.id <$> rpt_booksAfterTemplateCleanup s T.
Proof.
  rewrite rpt_removedBookIds_eq, elem_of_list_to_set.
  apply (elem_of_gone_keys (owner:=BookInstance_owner)).
Qed.

(** A surviving reference to a book names a surviving book. *)
Lemma kept_book_survives (ids_before ids_after : list string)
    (removed : gset string) (id : string) :
  (∀ i, i ∈ removed ↔ i ∈ ids_before ∧ i ∉ ids_after) →
  id ∈ ids_before → id ∉ removed → id ∈ ids_after.
Proof.
  intros Hrem Hb Hno. destruct (decide (id ∈ ids_after)) as [|Hout]; [done|].
  exfalso. apply Hno, Hrem. done.
Qed.

Section RemovePageTemplatePreserves.
Context (s : TemplateState) (T : string).

Lemma rpt_page_templateIds :
  page_templateIds_exist s → page_templateIds_exist (removePageTemplate s T).
Proof.
  unfold page_templateIds_exist. rewrite !Forall_forall. simpl.
  intros Hinv p [Hne Hp]%list_elem_of_filter.
  apply ids_filter_ne; [by apply Hinv | done].
Qed.

Lemma rpt_book_templateIds : book_templateIds_exist (removePageTemplate s T).
Proof.
  unfold book_templateIds_exist. apply Forall_forall. simpl.
  intros b [Hv _]%list_elem_of_filter.
  by apply elem_of_rpt_validBookTemplateIds.
Qed.

Lemma rpt_invariant2 : invariant2 s → invariant2 (removePageTemplate s T).
Proof.
  unfold invariant2. intros Hinv. simpl.
  unfold rpt_booksAfterTemplateCleanup. apply Forall_filter_sub.
  rewrite rpt_updatedBooks_eq.
  apply (Forall_drop_refs (owner:=BookInstance_owner)).
  intros b Hb. simpl. apply Forall_forall.
  intros id [Hkeep Hid]%list_elem_of_filter.
  rewrite Forall_forall in Hinv. specialize (Hinv b Hb).
  rewrite Forall_forall in Hinv. specialize (Hinv id Hid).
  apply elem_of_ids in Hinv as (p & Hp & Hpid).
  apply elem_of_ids. exists p. split; [|done].
  apply list_elem_of_filter. split; [|done].
  intros HT. apply Hkeep, elem_of_rpt_pagesToRemove. eauto.
Qed.

Lemma rpt_invariant3 : invariant3 s → invariant3 (removePageTemplate s T).
Proof.
  unfold invariant3. intros Hinv. simpl. rewrite rpt_cleanedCatalogs_eq.
  apply (Forall_drop_refs (owner:=CatalogInstance_owner)).
  intros c Hc. simpl. apply Forall_forall.
  intros id [Hkeep Hid]%list_elem_of_filter.
  rewrite Forall_forall in Hinv. specialize (Hinv c Hc).
  rewrite Forall_forall in Hinv. specialize (Hinv id Hid).
  eapply kept_book_survives;
    [apply elem_of_rpt_removedBookIds | exact Hinv | exact Hkeep].
Qed.

Lemma rpt_bookTemplate_refs :
  bookTemplate_refs_exist s → bookTemplate_refs_exist (removePageTemplate s T).
Proof.
  unfold bookTemplate_refs_exist. intros Hinv. simpl.
  rewrite rpt_updatedBookTemplates_eq.
  apply (Forall_drop_refs (owner:=BookTemplate_owner)).
  intros t Ht. simpl. apply Forall_forall.
  intros id [Hne Hid]%list_elem_of_filter.
  rewrite Forall_forall in Hinv. specialize (Hinv t Ht).
  rewrite Forall_forall in Hinv. specialize (Hinv id Hid).
  by apply ids_filter_ne.
Qed.

Lemma rpt_catalogTemplate_refs :
  catalogTemplate_refs_exist (removePageTemplate s T).
Proof.
  unfold catalogTemplate_refs_exist. simpl.
  rewrite rpt_cleanedCatalogTemplates_eq.
  apply (Forall_drop_refs (owner:=CatalogTemplate_owner)).
  intros t Ht. simpl. apply Forall_forall.
  intros id [Hv _]%list_elem_of_filter.
  by apply elem_of_rpt_validBookTemplateIds.
Qed.

Lemma removePageTemplate_preserves :
  cascade_invariants s → cascade_invariants (removePageTemplate s T).
Proof.
  intros (H1p & H1b & H2 & H3 & H4a & H4b).
  unfold cascade_invariants, invariant4. split_and!.
  - by apply rpt_page_templateIds.
  - apply rpt_book_templateIds.
  - by apply rpt_invariant2.
  - by apply rpt_invariant3.
  - by apply rpt_bookTemplate_refs.
  - apply rpt_catalogTemplate_refs.
Qed.
End RemovePageTemplatePreserves.

Section RemoveBookTemplatePreserves.
Context (s : TemplateState) (T : string).

Lemma rbt_book_templateIds :
  book_templateIds_exist s → book_templateIds_exist (removeBookTemplate s T).
Proof.
  unfold book_templateIds_exist. rewrite !Forall_forall. simpl.
  intros Hinv b [Hne Hb]%list_elem_of_filter.
  apply ids_filter_ne; [by apply Hinv | done].
Qed.

Lemma rbt_invariant3 : invariant3 s → invariant3 (removeBookTemplate s T).
Proof.
  unfold invariant3. rewrite !Forall_forall. simpl.
  intros Hinv c [Hkeep Hc]%list_elem_of_filter.
  apply Forall_forall. intros id Hid.
  rewrite Forall_forall in Hkeep. specialize (Hkeep id Hid).
  specialize (Hinv c Hc). rewrite Forall_forall in Hinv.
  specialize (Hinv id Hid). apply elem_of_ids in Hinv as (b & Hb & Hbid).
  apply elem_of_ids. exists b. split; [|done].
  apply list_elem_of_filter. split; [|done].
  intros HT. apply Hkeep, elem_of_rbt_booksToRemove. eauto.
Qed.

Lemma rbt_catalogTemplate_refs :
  catalogTemplate_refs_exist s →
  catalogTemplate_refs_exist (removeBookTemplate s T).
Proof.
  unfold catalogTemplate_refs_exist. intros Hinv. simpl.
  rewrite rbt_updatedCatalogTemplates_eq.
  apply (Forall_drop_refs (owner:=CatalogTemplate_owner)).
  intros t Ht. simpl. apply Forall_forall.
  intros id [Hne Hid]%list_elem_of_filter.
  rewrite Forall_forall in Hinv. specialize (Hinv t Ht).
  rewrite Forall_forall in Hinv. specialize (Hinv id Hid).
  by apply ids_filter_ne.
Qed.

Lemma removeBookTemplate_preserves :
  cascade_invariants s → cascade_invariants (removeBookTemplate s T).
Proof.
  intros (H1p & H1b & H2 & H3 & H4a & H4b).
  unfold cascade_invariants, invariant4. split_and!.
  - exact H1p.
  - by apply rbt_book_templateIds.
  - by apply Forall_filter_sub.
  - by apply rbt_invariant3.
  - by apply Forall_filter_sub.
  - by apply rbt_catalogTemplate_refs.
Qed.
End RemoveBookTemplatePreserves.

Lemma removeCatalogTemplate_preserves s T :
  cascade_invariants s → cascade_invariants (removeCatalogTemplate s T).
Proof.
  intros (H1p & H1b & H2 & H3 & H4a & H4b).
  unfold cascade_invariants, invariant4. split_and!; try done.
  - by apply Forall_filter_sub.
  - by apply Forall_filter_sub.
Qed.

Section RemovePageInstancePreserves.
Context (s : TemplateState) (x : string).

Lemma rpi_book_templateIds :
  book_templateIds_exist s → book_templateIds_exist (removePageInstance s x).
Proof.
  unfold book_templateIds_exist. intros Hinv. simpl.
  rewrite rpi_updatedBooks_eq.
  apply (Forall_drop_refs (owner:=BookInstance_owner)).
  intros b Hb. simpl. rewrite Forall_forall in Hinv. by apply Hinv.
Qed.

Lemma rpi_invariant2 : invariant2 s → invariant2 (removePageInstance s x).
Proof.
  unfold invariant2. intros Hinv. simpl. rewrite rpi_updatedBooks_eq.
  apply (Forall_drop_refs (owner:=BookInstance_owner)).
  intros b Hb. simpl. apply Forall_forall.
  intros id [Hne Hid]%list_elem_of_filter.
  rewrite Forall_forall in Hinv. specialize (Hinv b Hb).
  rewrite Forall_forall in Hinv. specialize (Hinv id Hid).
  by apply ids_filter_ne.
Qed.

Lemma rpi_invariant3 : invariant3 s → invariant3 (removePageInstance s x).
Proof.
  unfold invariant3. intros Hinv. simpl. rewrite rpi_updatedCatalogs_eq.
  apply (Forall_drop_refs (owner:=CatalogInstance_owner)).
  intros c Hc. simpl. apply Forall_forall.
  intros id [Hkeep Hid]%list_elem_of_filter.
  rewrite Forall_forall in Hinv. specialize (Hinv c Hc).
  rewrite Forall_forall in Hinv. specialize (Hinv id Hid).
  eapply kept_book_survives;
    [apply elem_of_rpi_removedBookIds | exact Hinv | exact Hkeep].
Qed.

Lemma removePageInstance_preserves :
  cascade_invariants s → cascade_invariants (removePageInstance s x).
Proof.
  intros (H1p & H1b & H2 & H3 & H4a & H4b).
  unfold cascade_invariants, invariant4. split_and!; try done.
  - by apply Forall_filter_sub.
  - by apply rpi_book_templateIds.
  - by apply rpi_invariant2.
  - by apply rpi_invariant3.
Qed.
End RemovePageInstancePreserves.

Lemma rbi_invariant3 s x : invariant3 s → invariant3 (removeBookInstance s x).
Proof.
  unfold invariant3. intros Hinv. simpl.
  apply (Forall_drop_refs (owner:=CatalogInstance_owner)).
  intros c Hc. simpl. apply Forall_forall.
  intros id [Hne Hid]%list_elem_of_filter.
  rewrite Forall_forall in Hinv. specialize (Hinv c Hc).
  rewrite Forall_forall in Hinv. specialize (Hinv id Hid).
  by apply ids_filter_ne.
Qed.

Lemma removeBookInstance_preserves s x :
  cascade_invariants s → cascade_invariants (removeBookInstance s x).
Proof.
  intros (H1p & H1b & H2 & H3 & H4a & H4b).
  unfold cascade_invariants, invariant4. split_and!; try done.
  - by apply Forall_filter_sub.
  - by apply Forall_filter_sub.
  - by apply rbi_invariant3.
Qed.

Lemma removeCatalogInstance_preserves s x :
  cascade_invariants s → cascade_invariants (removeCatalogInstance s x).
Proof.
  intros (H1p & H1b & H2 & H3 & H4a & H4b).
  unfold cascade_invariants, invariant4. split_and!; try done.
  by apply Forall_filter_sub.
Qed.

(** Creating an entity only adds ids, so references that existed still
    exist. *)

Lemma tid_grows {A B} (tid : A → string) (f : B → string)
    (l : list A) (ks ks' : list B) :
  Forall (λ a, tid a ∈ f <$> ks) l →
  Forall (λ a, tid a ∈ f <$> (ks ++ ks')%list) l.
Proof.
  intros Hl. eapply Forall_impl; [exact Hl|].
  intros a. apply ids_app_l.
Qed.

Lemma refs_grow {A B} (rf : A → list string) (f : B → string)
    (l : list A) (ks ks' : list B) :
  Forall (λ a, Forall (λ id, id ∈ f <$> ks) (rf a)) l →
  Forall (λ a, Forall (λ id, id ∈ f <$> (ks ++ ks')%list) (rf a)) l.
Proof.
  intros Hl. eapply Forall_impl; [exact Hl|].
  intros a Ha. eapply Forall_impl; [exact Ha|].
  intros id. apply ids_app_l.
Qed.

Lemma Forall_snoc {A} (P : A → Prop) (l : list A) (a : A) :
  Forall P l → P a → Forall P (l ++ [a])%list.
Proof. intros Hl Ha. apply Forall_app. split; [done|]. by constructor. Qed.

Lemma create_preserves s op :
  match op with
  | RemovePageTemplate _ | RemoveBookTemplate _ | RemoveCatalogTemplate _
  | RemovePageInstance _ | RemoveBookInstance _ | RemoveCatalogInstance _ => False
  | _ => True
  end →
  refs_exist s op → cascade_invariants s → cascade_invariants (next_state s op).
Proof.
  intros Hcreate Hrefs (H1p & H1b & H2 & H3 & H4a & H4b).
  unfold cascade_invariants, invariant4.
  destruct op; try done; simpl in *; split_and!; try done.
  - by apply tid_grows.
  - by apply refs_grow.
  - by apply tid_grows.
  - by apply Forall_snoc.
  - by apply refs_grow.
  - by apply Forall_snoc.
  - by apply Forall_snoc.
  - by apply refs_grow.
  - destruct Hrefs. by apply Forall_snoc.
  - destruct Hrefs. by apply Forall_snoc.
  - by apply refs_grow.
  - destruct Hrefs. by apply Forall_snoc.
Qed.

Lemma next_state_preserves s op :
  refs_exist s op → cascade_invariants s → cascade_invariants (next_state s op).
Proof.
  destruct op;
    try (apply create_preserves; exact I); intros _; simpl.
  - apply removePageTemplate_preserves.
  - apply removeBookTemplate_preserves.
  - apply removeCatalogTemplate_preserves.
  - apply removePageInstance_preserves.
  - apply removeBookInstance_preserves.
  - apply removeCatalogInstance_preserves.
Qed.

(** The [CatalogInstance] clause of invariant 1 is kept by every
    operation that leaves the catalog templates to [removeCatalogTemplate]. *)
Lemma next_state_preserves_catalog_clause s op :
  leaves_catalog_templates op → refs_exist s op →
  catalog_templateIds_exist s → catalog_templateIds_exist (next_state s op).
Proof.
  unfold catalog_templateIds_exist.
  destruct op; try done; intros _ Hrefs Hinv; simpl in *; try done.
  - by apply tid_grows.
  - destruct Hrefs. by apply Forall_snoc.
  - rewrite Forall_forall in Hinv. apply Forall_forall.
    intros c [Hne Hc]%list_elem_of_filter.
    apply ids_filter_ne; [by apply Hinv | done].
  - rewrite rpi_updatedCatalogs_eq.
    apply (Forall_drop_refs (owner:=CatalogInstance_owner)).
    intros c Hc. simpl. rewrite Forall_forall in Hinv. by apply Hinv.
  - apply (Forall_drop_refs (owner:=CatalogInstance_owner)).
    intros c Hc. simpl. rewrite Forall_forall in Hinv. by apply Hinv.
  - by apply Forall_filter_sub.
Qed.

Lemma invariants_1_4_split s :
  invariants_1_4 s ↔ cascade_invariants s ∧ catalog_templateIds_exist s.
Proof.
  unfold invariants_1_4, cascade_invariants, invariant1. tauto.
Qed.

Lemma defaultState_invariants : cascade_invariants defaultState.
Proof. unfold cascade_invariants, invariant4. split_and!; constructor. Qed.

(** * Sequences of operations on the service *)

Section Sequences.
Context (JSON_stringify : JsValue → string).

Lemma perform_value this op :
  value (perform JSON_stringify this op).1 = next_state (value this) op.
Proof. reflexivity. Qed.

Lemma perform_published this op :
  published (perform JSON_stringify this op).1
  = (published this ++ [next_state (value this) op])%list.
Proof. reflexivity. Qed.

Lemma perform_all_published this ops :
  published (perform_all JSON_stringify this ops)
  = (published this ++ states_from (value this) ops)%list
  ∧ value (perform_all JSON_stringify this ops)
    = foldl next_state (value this) ops.
Proof.
  revert this. induction ops as [|op ops IH]; intros this.
  - simpl. by rewrite app_nil_r.
  - destruct (IH (perform JSON_stringify this op).1) as [Hp Hv].
    change (perform_all JSON_stringify this (op :: ops))
      with (perform_all JSON_stringify (perform JSON_stringify this op).1 ops).
    rewrite Hp, Hv, perform_published, perform_value, <-app_assoc. done.
Qed.

End Sequences.








(** Scenario 1 ends in the empty state but for nothing: the page, the
    book and the book template go with the page template. *)
Example scenario1_final : final_state scenario1 = defaultState.
Proof. vm_compute. reflexivity. Qed.


(** Why the creates of composite templates must be given a list that is
    not empty: a book template created over no page template stays, also
    through a removal, for no reference is taken out of it. *)
Example empty_book_template_stays :
  refs_exist_all defaultState empty_book_template
  ∧ ¬ no_empty_template (final_state empty_book_template).
Proof.
  split.
  - vm_compute. repeat first [split | constructor].
  - intros [Hbook _]. vm_compute in Hbook.
    by apply Forall_cons in Hbook as [Hne _].
Qed.

(** The [CatalogInstance] clause of invariant 1 is not kept by
    [removeBookTemplate], even when every create was given existing ids:
    the catalog template is deleted for want of book templates, the
    catalog of that template stays. *)
Example orphaned_catalog_breaks_invariant1 :
  refs_exist_all defaultState orphaned_catalog
  ∧ ¬ catalog_templateIds_exist (final_state orphaned_catalog).
Proof.
  split.
  - vm_compute. repeat first [split | constructor].
  - intros Hc. vm_compute in Hc. apply Forall_cons in Hc as [Hin _].
    by apply elem_of_nil in Hin.
Qed.

(** * Removing an id that no entity of the kind carries *)

Lemma filter_key_absent {A} (f : A → string) (l : list A) (x : string) :
  x ∉ f <$> l → filter (λ a, f a ≠ x) l = l.
Proof.
  intros Hx. apply filter_all, Forall_forall. intros a Ha Heq.
  apply Hx, elem_of_ids. by exists a.
Qed.

Lemma filter_tid_absent {A} (tid : A → string) (ids : list string)
    (l : list A) (x : string) :
  Forall (λ a, tid a ∈ ids) l → x ∉ ids → filter (λ a, tid a ≠ x) l = l.
Proof.
  intros Hl Hx. apply filter_all. eapply Forall_impl; [exact Hl|].
  intros a Ha Heq. apply Hx. by rewrite <-Heq.
Qed.

Lemma drop_refs_absent {A} {owner : RefOwner A} (ids : list string)
    (l : list A) (x : string) :
  Forall (λ a, refs a ≠ []) l →
  Forall (λ a, Forall (λ id, id ∈ ids) (refs a)) l →
  x ∉ ids →
  drop_refs (λ id, id ≠ x) l = l.
Proof.
  intros Hne Hrefs Hx. apply drop_refs_fixed.
  apply Forall_and. split; [done|].
  eapply Forall_impl; [exact Hrefs|]. intros a Ha.
  eapply Forall_impl; [exact Ha|]. intros id Hid Heq.
  apply Hx. by rewrite <-Heq.
Qed.

Lemma drop_refs_nothing_removed {A} {owner : RefOwner A} (removed : gset string)
    (l : list A) :
  Forall (λ a, refs a ≠ []) l →
  (∀ id, id ∉ removed) →
  drop_refs (λ id, id ∉ removed) l = l.
Proof.
  intros Hne Hrem. apply drop_refs_fixed.
  eapply Forall_impl; [exact Hne|]. intros a Ha. split; [done|].
  apply Forall_forall. intros id _. apply Hrem.
Qed.

Section RemoveAbsent.
Context (s : TemplateState) (x : string).
Context (Hinv : invariants_1_4 s) (Hfull : no_empty_owner s).

Lemma removeCatalogInstance_absent :
  x ∉ CatalogInstance.id <$> catalogs s → removeCatalogInstance s x = s.
Proof.
  intros Hx. unfold removeCatalogInstance.
  rewrite filter_key_absent by done. by destruct s.
Qed.

Lemma removeCatalogTemplate_absent :
  x ∉ CatalogTemplate.id <$> catalogTemplates s → removeCatalogTemplate s x = s.
Proof.
  intros Hx. destruct Hinv as ((_ & _ & H1c) & _).
  unfold removeCatalogTemplate.
  rewrite filter_key_absent by done.
  rewrite (filter_tid_absent _ _ _ _ H1c Hx). by destruct s.
Qed.

Lemma removeBookInstance_absent :
  x ∉ BookInstance.id <$> books s → removeBookInstance s x = s.
Proof.
  intros Hx. destruct Hinv as (_ & _ & H3 & _).
  destruct Hfull as (_ & _ & _ & Hc).
  assert (catalogs (removeBookInstance s x) = catalogs s) as Hcatalogs.
  { rewrite removeBookInstance_catalogs_eq.
    apply (drop_refs_absent (owner:=CatalogInstance_owner) _ _ _ Hc H3 Hx). }
  unfold removeBookInstance in *. simpl in Hcatalogs. rewrite Hcatalogs.
  rewrite filter_key_absent by done. by destruct s.
Qed.

Lemma removePageInstance_absent :
  x ∉ PageInstance.id <$> pages s → removePageInstance s x = s.
Proof.
  intros Hx. destruct Hinv as (_ & H2 & _ & _).
  destruct Hfull as (_ & _ & Hb & Hc).
  assert (rpi_updatedBooks s x = books s) as Hbooks.
  { rewrite rpi_updatedBooks_eq.
    apply (drop_refs_absent (owner:=BookInstance_owner) _ _ _ Hb H2 Hx). }
  assert (rpi_updatedCatalogs s x = catalogs s) as Hcatalogs.
  { rewrite rpi_updatedCatalogs_eq.
    apply (drop_refs_nothing_removed (owner:=CatalogInstance_owner)); [done|].
    intros id. rewrite rpi_removedBookIds_eq, Hbooks, gone_keys_self.
    set_solver. }
  unfold removePageInstance. rewrite Hbooks, Hcatalogs.
  rewrite filter_key_absent by done. by destruct s.
Qed.

Lemma removeBookTemplate_absent :
  x ∉ BookTemplate.id <$> bookTemplates s → removeBookTemplate s x = s.
Proof.
  intros Hx. destruct Hinv as ((_ & H1b & _) & _ & _ & (_ & H4b)).
  destruct Hfull as (_ & Hct & _ & _).
  assert (rbt_updatedCatalogs s x = catalogs s) as Hcatalogs.
  { unfold rbt_updatedCatalogs. apply filter_all, Forall_forall.
    intros c _. apply Forall_forall.
    intros id _ (b & Hb & HT & _)%elem_of_rbt_booksToRemove.
    unfold book_templateIds_exist in H1b. rewrite Forall_forall in H1b.
    apply Hx. rewrite <-HT. by apply H1b. }
  assert (rbt_updatedCatalogTemplates s x = catalogTemplates s) as Htemplates.
  { rewrite rbt_updatedCatalogTemplates_eq.
    apply (drop_refs_absent (owner:=CatalogTemplate_owner) _ _ _ Hct H4b Hx). }
  unfold removeBookTemplate. rewrite Hcatalogs, Htemplates.
  rewrite filter_key_absent by done.
  rewrite (filter_tid_absent _ _ _ _ H1b Hx). by destruct s.
Qed.

Lemma removePageTemplate_absent :
  x ∉ PageTemplate.id <$> pageTemplates s → removePageTemplate s x = s.
Proof.
  intros Hx.
  destruct Hinv as ((H1p & H1b & _) & _ & _ & (H4a & H4b)).
  destruct Hfull as (Hbt & Hct & Hb & Hc).
  assert (∀ id, id ∉ rpt_pagesToRemove s x) as Hnone.
  { intros id (p & Hp & HT & _)%elem_of_rpt_pagesToRemove.
    unfold page_templateIds_exist in H1p. rewrite Forall_forall in H1p.
    apply Hx. rewrite <-HT. by apply H1p. }
  assert (rpt_updatedBooks s x = books s) as Hbooks.
  { rewrite rpt_updatedBooks_eq.
    by apply (drop_refs_nothing_removed (owner:=BookInstance_owner)). }
  assert (rpt_updatedBookTemplates s x = bookTemplates s) as Htemplates.
  { rewrite rpt_updatedBookTemplates_eq.
    apply (drop_refs_absent (owner:=BookTemplate_owner) _ _ _ Hbt H4a Hx). }
  assert (∀ id, id ∈ rpt_validBookTemplateIds s x
                ↔ id ∈ BookTemplate.id <$> bookTemplates s) as Hvalid.
  { intros id. by rewrite elem_of_rpt_validBookTemplateIds, Htemplates. }
  assert (rpt_booksAfterTemplateCleanup s x = books s) as Hafter.
  { unfold rpt_booksAfterTemplateCleanup. rewrite Hbooks.
    apply filter_all. eapply Forall_impl; [exact H1b|].
    intros b Hb'. by apply Hvalid. }
  assert (rpt_cleanedCatalogs s x = catalogs s) as Hcatalogs.
  { rewrite rpt_cleanedCatalogs_eq.
    apply (drop_refs_nothing_removed (owner:=CatalogInstance_owner)); [done|].
    intros id. rewrite rpt_removedBookIds_eq, Hafter, gone_keys_self.
    set_solver. }
  assert (rpt_cleanedCatalogTemplates s x = catalogTemplates s) as Hcts.
  { rewrite rpt_cleanedCatalogTemplates_eq.
    apply (drop_refs_fixed (owner:=CatalogTemplate_owner)).
    apply Forall_and. split; [done|].
    eapply Forall_impl; [exact H4b|]. intros t Ht.
    eapply Forall_impl; [exact Ht|]. intros id Hid. by apply Hvalid. }
  unfold removePageTemplate.
  rewrite Hafter, Htemplates, Hcatalogs, Hcts.
  rewrite filter_key_absent by done.
  rewrite (filter_tid_absent _ _ _ _ H1p Hx). by destruct s.
Qed.

Lemma remove_absent (k : RemoveKind) :
  x ∉ target_ids k s → remove k s x = s.
Proof.
  destruct k; simpl.
  - apply removePageTemplate_absent.
  - apply removeBookTemplate_absent.
  - apply removeCatalogTemplate_absent.
  - apply removePageInstance_absent.
  - apply removeBookInstance_absent.
  - apply removeCatalogInstance_absent.
Qed.
End RemoveAbsent.

Lemma next_state_remove_op k s x : next_state s (remove_op k x) = remove k s x.
Proof. by destruct k. Qed.

(** C3, as the code has it: let the current state satisfy invariants 1
    to 4 and hold no book template, catalog template, book or catalog
    with an empty reference list, and let [x] be the id of no entity of
    the kind the operation targets. Then each of the six remove
    operations leaves the state as it was, and that state is published
    once more and handed to [persistState]. *)
Theorem remove_absent_id_republishes_state
    (JSON_stringify : JsValue → string) (k : RemoveKind)
    (this : Service) (x : string) :
  invariants_1_4 (value this) →
  no_empty_owner (value this) →
  x ∉ target_ids k (value this) →
  let after := (perform JSON_stringify this (remove_op k x)).1 in
  remove k (value this) x = value this
  ∧ value after = value this
  ∧ published after = (published this ++ [value this])%list
  ∧ window after = (persistState JSON_stringify (window this) (value this)).1.
Proof.
  intros Hinv Hfull Hx after. subst after.
  pose proof (remove_absent (value this) x Hinv Hfull k Hx) as Hsame.
  unfold perform, setState. rewrite next_state_remove_op, Hsame. done.
Qed.

Lemma remove_absent_id_republishes_state_witness :
  invariants_1_4 (value service_before)
  ∧ no_empty_owner (value service_before)
  ∧ ("pt-never" ∉ target_ids KPageTemplate (value service_before))
  ∧ value (perform sample_stringify service_before
             (RemovePageTemplate "pt-never")).1
    = value service_before
  ∧ published (perform sample_stringify service_before
                 (RemovePageTemplate "pt-never")).1
    = [value service_before].
Proof.
  assert (invariants_1_4 (value service_before)) as Hinv.
  { unfold invariants_1_4, invariant1, invariant2, invariant3, invariant4,
      page_templateIds_exist, book_templateIds_exist, catalog_templateIds_exist,
      bookTemplate_refs_exist, catalogTemplate_refs_exist.
    by_evaluation. }
  assert (no_empty_owner (value service_before)) as Hfull.
  { unfold no_empty_owner. by_evaluation. }
  assert ("pt-never" ∉ target_ids KPageTemplate (value service_before)) as Hx.
  { by_evaluation. }
  split_and!; [done..| |];
    apply (remove_absent_id_republishes_state sample_stringify KPageTemplate
             service_before "pt-never" Hinv Hfull Hx).
Defined.

(** C3 as stated fails: a book that holds no page is dropped by
    [removePageInstance] whatever the id, so removing the id of no page
    changes a state that has such a book, although that state satisfies
    invariants 1 to 4. *)
Lemma absent_page_id_drops_empty_book :
  invariants_1_4 (final_state empty_book)
  ∧ ("p-never" ∉ target_ids KPageInstance (final_state empty_book))
  ∧ remove KPageInstance (final_state empty_book) "p-never"
    ≠ final_state empty_book.
Proof.
  split_and!.
  - unfold invariants_1_4, invariant1, invariant2, invariant3, invariant4,
      page_templateIds_exist, book_templateIds_exist, catalog_templateIds_exist,
      bookTemplate_refs_exist, catalogTemplate_refs_exist.
    by_evaluation.
  - by_evaluation.
  - intros Heq. apply (f_equal books) in Heq. vm_compute in Heq. discriminate.
Qed.

(** Dangling references are cleaned up as well: removing a template id
    that no template carries deletes the page that names it. *)
Example absent_template_id_drops_dangling_page :
  no_empty_owner (final_state dangling_page)
  ∧ ("pt-missing" ∉ target_ids KPageTemplate (final_state dangling_page))
  ∧ pages (remove KPageTemplate (final_state dangling_page) "pt-missing") = []
  ∧ pages (final_state dangling_page) ≠ [].
Proof.
  split_and!.
  - unfold no_empty_owner. by_evaluation.
  - by_evaluation.
  - vm_compute. reflexivity.
  - vm_compute. discriminate.
Qed.

(** * The persistence adapter *)

Lemma object_test (v : JsValue) :
  truthy v && bool_decide (typeof v = ty_object) = is_object v.
Proof. destruct v; simpl; try done; by rewrite andb_false_r. Qed.

Lemma recovers_nullish_coalesce (v : JsValue) (name : string) :
  recovers v name (nullish_coalesce (get_prop v name) (JArray [])).
Proof.
  unfold recovers. split_and!.
  - by intros ->.
  - by intros ->.
  - intros x -> Hx. by destruct x.
Qed.

(** ** The run-time form determines the typed state

    Two typed states with the same six run-time collections are equal, so
    deep equality of what [loadState] returns with [parsed_of_state s] is
    deep equality with [s]. *)

Ltac prop_of Hm name H :=
  pose proof (f_equal (λ v, get_prop v name) Hm) as H; vm_compute in H.

#[local] Instance JString_inj : Inj (=) (=) JString.
Proof. by intros ?? [= ->]. Qed.

#[local] Instance JArray_inj : Inj (=) (=) JArray.
Proof. intros l1 l2 H. by injection H. Qed.

#[local] Instance JObject_inj : Inj (=) (=) JObject.
Proof. intros m1 m2 H. by injection H. Qed.

#[local] Instance js_strings_inj : Inj (=) (=) js_strings.
Proof. intros l1 l2 H. injection H as H. by apply (inj _) in H. Qed.

#[local] Instance js_of_FieldType_inj : Inj (=) (=) js_of_FieldType.
Proof. by intros [] [] [=]. Qed.

#[local] Instance js_of_PageTemplateField_inj :
  Inj (=) (=) js_of_PageTemplateField.
Proof.
  intros [i1 n1 t1 [d1|]] [i2 n2 t2 [d2|]] Hm;
    prop_of Hm "id" H1; prop_of Hm "name" H2;
    pose proof (f_equal (λ v, get_prop v "type") Hm) as H3;
    prop_of Hm "description" H4; try discriminate.
  all: injection H1 as ->; injection H2 as ->.
  all: assert (Some (js_of_FieldType t1) = Some (js_of_FieldType t2)) as H5
         by exact H3.
  all: apply (inj Some) in H5; apply (inj js_of_FieldType) in H5; subst.
  - by injection H4 as ->.
  - done.
Qed.

#[local] Instance js_of_PageTemplate_inj : Inj (=) (=) js_of_PageTemplate.
Proof.
  intros [i1 n1 [d1|] f1] [i2 n2 [d2|] f2] Hm;
    prop_of Hm "id" H1; prop_of Hm "name" H2;
    pose proof (f_equal (λ v, get_prop v "fields") Hm) as H3;
    prop_of Hm "description" H4; try discriminate.
  all: injection H1 as ->; injection H2 as ->.
  all: assert (Some (JArray (js_of_PageTemplateField <$> f1))
               = Some (JArray (js_of_PageTemplateField <$> f2))) as H5
         by exact H3.
  all: apply (inj Some) in H5; apply (inj JArray) in H5;
       apply (inj (fmap js_of_PageTemplateField)) in H5; subst.
  - by injection H4 as ->.
  - done.
Qed.

#[local] Instance js_of_BookTemplate_inj : Inj (=) (=) js_of_BookTemplate.
Proof.
  intros [i1 n1 [d1|] r1] [i2 n2 [d2|] r2] Hm;
    prop_of Hm "id" H1; prop_of Hm "name" H2;
    pose proof (f_equal (λ v, get_prop v "pageTemplateIds") Hm) as H3;
    prop_of Hm "description" H4; try discriminate.
  all: injection H1 as ->; injection H2 as ->.
  all: assert (Some (js_strings r1) = Some (js_strings r2)) as H5 by exact H3.
  all: apply (inj Some) in H5; apply (inj js_strings) in H5; subst.
  - by injection H4 as ->.
  - done.
Qed.

#[local] Instance js_of_CatalogTemplate_inj : Inj (=) (=) js_of_CatalogTemplate.
Proof.
  intros [i1 n1 [d1|] r1] [i2 n2 [d2|] r2] Hm;
    prop_of Hm "id" H1; prop_of Hm "name" H2;
    pose proof (f_equal (λ v, get_prop v "bookTemplateIds") Hm) as H3;
    prop_of Hm "description" H4; try discriminate.
  all: injection H1 as ->; injection H2 as ->.
  all: assert (Some (js_strings r1) = Some (js_strings r2)) as H5 by exact H3.
  all: apply (inj Some) in H5; apply (inj js_strings) in H5; subst.
  - by injection H4 as ->.
  - done.
Qed.

#[local] Instance js_of_PageInstance_inj : Inj (=) (=) js_of_PageInstance.
Proof.
  intros [i1 t1 n1 v1] [i2 t2 n2 v2] Hm.
  prop_of Hm "id" H1. prop_of Hm "templateId" H2. prop_of Hm "title" H3.
  pose proof (f_equal (λ v, get_prop v "values") Hm) as H4.
  injection H1 as ->. injection H2 as ->. injection H3 as ->.
  assert (Some (JObject (JString <$> v1)) = Some (JObject (JString <$> v2)))
    as H5 by exact H4.
  apply (inj Some) in H5. apply (inj JObject) in H5.
  apply (inj (fmap JString)) in H5. by subst.
Qed.

#[local] Instance js_of_BookInstance_inj : Inj (=) (=) js_of_BookInstance.
Proof.
  intros [i1 t1 n1 r1] [i2 t2 n2 r2] Hm.
  prop_of Hm "id" H1. prop_of Hm "templateId" H2. prop_of Hm "title" H3.
  pose proof (f_equal (λ v, get_prop v "pageInstanceIds") Hm) as H4.
  injection H1 as ->. injection H2 as ->. injection H3 as ->.
  assert (Some (js_strings r1) = Some (js_strings r2)) as H5 by exact H4.
  apply (inj Some) in H5. apply (inj js_strings) in H5. by subst.
Qed.

#[local] Instance js_of_CatalogInstance_inj : Inj (=) (=) js_of_CatalogInstance.
Proof.
  intros [i1 t1 n1 r1] [i2 t2 n2 r2] Hm.
  prop_of Hm "id" H1. prop_of Hm "templateId" H2. prop_of Hm "title" H3.
  pose proof (f_equal (λ v, get_prop v "bookInstanceIds") Hm) as H4.
  injection H1 as ->. injection H2 as ->. injection H3 as ->.
  assert (Some (js_strings r1) = Some (js_strings r2)) as H5 by exact H4.
  apply (inj Some) in H5. apply (inj js_strings) in H5. by subst.
Qed.

Lemma parsed_of_state_inj (s1 s2 : TemplateState) :
  parsed_of_state s1 = parsed_of_state s2 → s1 = s2.
Proof.
  destruct s1 as [a1 b1 c1 d1 e1 f1], s2 as [a2 b2 c2 d2 e2 f2].
  unfold parsed_of_state. simpl. intros H.
  injection H as Ha Hb Hc Hd He Hf.
  apply (inj (fmap js_of_PageTemplate)) in Ha.
  apply (inj (fmap js_of_BookTemplate)) in Hb.
  apply (inj (fmap js_of_CatalogTemplate)) in Hc.
  apply (inj (fmap js_of_PageInstance)) in Hd.
  apply (inj (fmap js_of_BookInstance)) in He.
  apply (inj (fmap js_of_CatalogInstance)) in Hf.
  by subst.
Qed.

Section PersistenceFacts.
Context (JSON_stringify : JsValue → string).
Context (JSON_parse : string → option JsValue).

Lemma safeParseState_absent : safeParseState JSON_parse None = None.
Proof. reflexivity. Qed.

Lemma safeParseState_empty : safeParseState JSON_parse (Some "") = None.
Proof. reflexivity. Qed.

Lemma safeParseState_unparsable raw :
  JSON_parse raw = None → safeParseState JSON_parse (Some raw) = None.
Proof.
  intros Hp. unfold safeParseState. case_bool_decide; [done|]. by rewrite Hp.
Qed.

Lemma safeParseState_not_object raw v :
  JSON_parse raw = Some v → is_object v = false →
  safeParseState JSON_parse (Some raw) = None.
Proof.
  intros Hp Hv. unfold safeParseState. case_bool_decide; [done|].
  by rewrite Hp, object_test, Hv.
Qed.

Lemma safeParseState_object raw v :
  raw ≠ "" → JSON_parse raw = Some v → is_object v = true →
  safeParseState JSON_parse (Some raw)
  = Some {| Parsed.pageTemplates :=
              nullish_coalesce (get_prop v "pageTemplates") (JArray []);
            Parsed.bookTemplates :=
              nullish_coalesce (get_prop v "bookTemplates") (JArray []);
            Parsed.catalogTemplates :=
              nullish_coalesce (get_prop v "catalogTemplates") (JArray []);
            Parsed.pages := nullish_coalesce (get_prop v "pages") (JArray []);
            Parsed.books := nullish_coalesce (get_prop v "books") (JArray []);
            Parsed.catalogs :=
              nullish_coalesce (get_prop v "catalogs") (JArray []) |}.
Proof.
  intros Hne Hp Hv. unfold safeParseState. case_bool_decide; [done|].
  by rewrite Hp, object_test, Hv.
Qed.

(** C7, as the code has it. Let the environment be one in which
    [window] is undefined, or [window.localStorage] is undefined, or
    [window.localStorage] is a [Storage] object. Then [loadState] returns
    a state and throws nothing. It returns the canonical empty state when
    there is no storage, when the key holds nothing or the empty string,
    when the blob does not parse, and when it parses to something other
    than an object or array. When the blob parses to an object, each of
    the six collections is recovered on its own: a property that is
    missing or holds [null] becomes the empty list, a property that holds
    anything else is returned as it is. *)
Theorem loadState_recovers (w : Window) :
  (w = None ∨ w = Some Undefined →
   loadState JSON_parse w = Returned defaultParsed)
  ∧ ∀ ls, w = Some (Storage ls) →
      (∃ got, loadState JSON_parse w = Returned got)
      ∧ (getItem ls STORAGE_KEY = None →
         loadState JSON_parse w = Returned defaultParsed)
      ∧ ∀ raw, getItem ls STORAGE_KEY = Some raw →
          (raw = "" → loadState JSON_parse w = Returned defaultParsed)
          ∧ (JSON_parse raw = None →
             loadState JSON_parse w = Returned defaultParsed)
          ∧ ∀ v, JSON_parse raw = Some v →
              (is_object v = false →
               loadState JSON_parse w = Returned defaultParsed)
              ∧ (raw ≠ "" → is_object v = true →
                 ∃ got, loadState JSON_parse w = Returned got
                 ∧ recovers v "pageTemplates" (Parsed.pageTemplates got)
                 ∧ recovers v "bookTemplates" (Parsed.bookTemplates got)
                 ∧ recovers v "catalogTemplates" (Parsed.catalogTemplates got)
                 ∧ recovers v "pages" (Parsed.pages got)
                 ∧ recovers v "books" (Parsed.books got)
                 ∧ recovers v "catalogs" (Parsed.catalogs got)).
Proof.
  split; [by intros [-> | ->]|].
  intros ls ->. unfold loadState. split_and!.
  { destruct (safeParseState _ _); by eexists. }
  { intros ->. by rewrite safeParseState_absent. }
  intros raw ->. split_and!.
  - intros ->. by rewrite safeParseState_empty.
  - intros Hp. by rewrite safeParseState_unparsable.
  - intros v Hp. split.
    + intros Hv. by rewrite (safeParseState_not_object raw v).
    + intros Hne Hv. rewrite (safeParseState_object raw v) by done.
      eexists. split; [reflexivity|].
      simpl. split_and!; apply recovers_nullish_coalesce.
Qed.

Lemma Returned_inj {A} (a b : A) : Returned a = Returned b → a = b.
Proof. congruence. Qed.

(** What [persistState] leaves in storage when the medium takes the
    write. *)
Lemma persistState_stores ls state :
  accepts ls STORAGE_KEY (JSON_stringify (js_of_state state)) = true →
  ∃ ls', persistState JSON_stringify (Some (Storage ls)) state
         = (Some (Storage ls'), Returned tt)
         ∧ getItem ls' STORAGE_KEY = Some (JSON_stringify (js_of_state state)).
Proof.
  intros Hacc. unfold persistState, setItem. rewrite Hacc.
  eexists. split; [done|]. unfold getItem. simpl. apply lookup_insert_eq.
Qed.

(** C6: let the storage medium be present and take the write, and let
    [JSON.parse] read back the text [JSON.stringify] wrote for the state
    (a text that is not empty). Then for every state, reachable or not,
    saving returns, and loading after saving returns the six collections
    of that state, and of no other state. *)
Theorem load_after_save (s : TemplateState) (ls : LocalStorage) :
  JSON_parse (JSON_stringify (js_of_state s)) = Some (js_of_state s) →
  JSON_stringify (js_of_state s) ≠ "" →
  accepts ls STORAGE_KEY (JSON_stringify (js_of_state s)) = true →
  let saved := persistState JSON_stringify (Some (Storage ls)) s in
  saved.2 = Returned tt
  ∧ loadState JSON_parse saved.1 = Returned (parsed_of_state s)
  ∧ ∀ s', loadState JSON_parse saved.1 = Returned (parsed_of_state s') →
          s' = s.
Proof.
  intros Hround Hne Hacc saved. subst saved.
  destruct (persistState_stores ls s Hacc) as (ls' & -> & Hget).
  assert (loadState JSON_parse (Some (Storage ls'))
          = Returned (parsed_of_state s)) as Hload.
  { unfold loadState. rewrite Hget.
    rewrite (safeParseState_object _ (js_of_state s)) by done.
    reflexivity. }
  cbn [fst snd]. split_and!; [done | exact Hload |].
  intros s' Hs'. rewrite Hload in Hs'.
  apply Returned_inj in Hs'. symmetry. by apply parsed_of_state_inj.
Qed.
End PersistenceFacts.

Lemma load_after_save_witness :
  parse_one_page (stringify_one_page (js_of_state (final_state dangling_page)))
  = Some (js_of_state (final_state dangling_page))
  ∧ stringify_one_page (js_of_state (final_state dangling_page)) ≠ ""
  ∧ accepts empty_storage STORAGE_KEY
      (stringify_one_page (js_of_state (final_state dangling_page))) = true
  ∧ loadState parse_one_page
      (persistState stringify_one_page (Some (Storage empty_storage))
         (final_state dangling_page)).1
    = Returned (parsed_of_state (final_state dangling_page)).
Proof.
  assert (parse_one_page
            (stringify_one_page (js_of_state (final_state dangling_page)))
          = Some (js_of_state (final_state dangling_page))) as Hround.
  { unfold parse_one_page, stringify_one_page. by case_bool_decide. }
  assert (stringify_one_page (js_of_state (final_state dangling_page)) ≠ "")
    as Hne.
  { by_evaluation. }
  split_and!; [done..|].
  apply (load_after_save stringify_one_page parse_one_page
           (final_state dangling_page) empty_storage Hround Hne eq_refl).
Defined.

Lemma parse_null_pages_blob :
  parse_null_pages blob_null_pages = Some object_null_pages.
Proof. unfold parse_null_pages. by case_bool_decide. Qed.

Lemma blob_null_pages_nonempty : blob_null_pages ≠ "".
Proof. by_evaluation. Qed.

Lemma loadState_recovers_witness :
  ∃ got, loadState parse_null_pages storage_null_pages = Returned got
    ∧ recovers object_null_pages "pageTemplates" (Parsed.pageTemplates got)
    ∧ recovers object_null_pages "books" (Parsed.books got)
    ∧ recovers object_null_pages "pages" (Parsed.pages got).
Proof.
  destruct (loadState_recovers parse_null_pages storage_null_pages) as [_ H].
  destruct (H (storage_holding blob_null_pages) eq_refl) as (_ & _ & Hraw).
  destruct (Hraw blob_null_pages eq_refl) as (_ & _ & Hv).
  destruct (Hv object_null_pages parse_null_pages_blob) as [_ Hobj].
  destruct (Hobj blob_null_pages_nonempty eq_refl)
    as (got & Hgot & Hpt & _ & _ & Hp & Hb & _).
  exists got. split_and!; assumption.
Defined.

(** C7 as stated fails where it says that the fields that are present
    are kept: in the object read from [{"pages":null,"books":[]}] the
    property [pages] is present and holds [null], and [loadState] returns
    the empty list for it, not [null]. The property [books], present
    with an array, is kept. *)
Lemma null_collection_is_not_kept :
  parse_null_pages blob_null_pages = Some object_null_pages
  ∧ get_prop object_null_pages "pages" = Some JNull
  ∧ ∃ got, loadState parse_null_pages storage_null_pages = Returned got
      ∧ Parsed.pages got = JArray []
      ∧ Parsed.pages got ≠ JNull.
Proof.
  split_and!.
  - apply parse_null_pages_blob.
  - reflexivity.
  - eexists. split; [vm_compute; reflexivity|]. by split.
Qed.

(** Where reading [window.localStorage] throws, and where it gives
    [null], [loadState] throws, whatever is stored: lines 305 to 309 sit
    in no [try]. [persistState] throws in the first case only, its
    [setItem] being in a [try]. *)
Example loadState_throws_without_storage
    (JSON_stringify : JsValue → string) (JSON_parse : string → option JsValue)
    (state : TemplateState) :
  loadState JSON_parse (Some Blocked) = Thrown SecurityError
  ∧ loadState JSON_parse (Some Null) = Thrown TypeError
  ∧ (persistState JSON_stringify (Some Blocked) state).2 = Thrown SecurityError
  ∧ (persistState JSON_stringify (Some Null) state).2 = Returned tt.
Proof. by split_and!. Qed.

(** * Further properties of the remove operations *)

Lemma not_in_filtered_keys {A} (f : A → string) (l : list A) (x : string) :
  x ∉ f <$> filter (λ a, f a ≠ x) l.
Proof.
  intros (a & [Hne _]%list_elem_of_filter & Hx)%elem_of_ids. done.
Qed.

Lemma no_tid_after_filter {A} (tid : A → string) (l : list A) (x : string) :
  ¬ Exists (λ a, tid a = x) (filter (λ a, tid a ≠ x) l).
Proof.
  intros (a & [Hne _]%list_elem_of_filter & Hx)%Exists_exists. done.
Qed.

Lemma no_ref_after_drop_refs {A} {owner : RefOwner A} (l : list A) (x : string) :
  ¬ Exists (λ a, x ∈ refs a) (drop_refs (λ id, id ≠ x) l).
Proof.
  intros (a' & Hin & Hx)%Exists_exists.
  pose proof (drop_refs_kept (λ id, id ≠ x) l) as Hkept.
  rewrite Forall_forall in Hkept. specialize (Hkept a' Hin).
  rewrite Forall_forall in Hkept. by apply (Hkept x Hx).
Qed.

(** X1: after any of the six remove operations, from any state, the
    removed id occurs nowhere a reference of its kind can sit: no entity
    of the kind carries it, no instance names it as its template, and no
    reference list one tier above holds it. *)
Theorem remove_forgets_id (k : RemoveKind) (s : TemplateState) (x : string) :
  ¬ mentions k (remove k s x) x.
Proof.
  destruct k; simpl.
  - intros [H|[H|H]].
    + by apply not_in_filtered_keys in H.
    + by apply no_tid_after_filter in H.
    + rewrite rpt_updatedBookTemplates_eq in H.
      by apply (no_ref_after_drop_refs (owner:=BookTemplate_owner)) in H.
  - intros [H|[H|H]].
    + by apply not_in_filtered_keys in H.
    + by apply no_tid_after_filter in H.
    + rewrite rbt_updatedCatalogTemplates_eq in H.
      by apply (no_ref_after_drop_refs (owner:=CatalogTemplate_owner)) in H.
  - intros [H|H].
    + by apply not_in_filtered_keys in H.
    + by apply no_tid_after_filter in H.
  - intros [H|H].
    + by apply not_in_filtered_keys in H.
    + rewrite rpi_updatedBooks_eq in H.
      by apply (no_ref_after_drop_refs (owner:=BookInstance_owner)) in H.
  - intros [H|H].
    + by apply not_in_filtered_keys in H.
    + by apply (no_ref_after_drop_refs (owner:=CatalogInstance_owner)) in H.
  - apply not_in_filtered_keys.
Qed.

(** X2: whatever the state and whatever the id, existing or not,
    [removePageTemplate] returns a state in which no book template,
    catalog template, book or catalog has an empty reference list, every
    book names an existing book template and every catalog template
    lists only existing book templates. *)
Theorem removePageTemplate_normalises (s : TemplateState) (T : string) :
  no_empty_owner (removePageTemplate s T)
  ∧ book_templateIds_exist (removePageTemplate s T)
  ∧ catalogTemplate_refs_exist (removePageTemplate s T).
Proof.
  split_and!.
  - unfold no_empty_owner. simpl. split_and!.
    + rewrite rpt_updatedBookTemplates_eq.
      apply (drop_refs_nonempty (owner:=BookTemplate_owner)).
    + rewrite rpt_cleanedCatalogTemplates_eq.
      apply (drop_refs_nonempty (owner:=CatalogTemplate_owner)).
    + apply rpt_books_nonempty.
    + rewrite rpt_cleanedCatalogs_eq.
      apply (drop_refs_nonempty (owner:=CatalogInstance_owner)).
  - apply rpt_book_templateIds.
  - apply rpt_catalogTemplate_refs.
Qed.

(** * Creating and removing *)

Lemma filter_snoc_dropped {A} (f : A → string) (l : list A) (a : A) (x : string) :
  f a = x →
  filter (λ b, f b ≠ x) (l ++ [a])%list = filter (λ b, f b ≠ x) l.
Proof.
  intros Ha.
  rewrite filter_app, filter_cons_False, filter_nil, app_nil_r; [done|].
  intros Hne. by apply Hne.
Qed.

(** Removing the entity that was just created is removing its id from
    the state before the creation. *)
Lemma remove_after_create s op k x :
  created op = Some (k, x) → remove k (next_state s op) x = remove k s x.
Proof.
  destruct op; try done; intros [= <- <-]; simpl.
  - unfold removePageTemplate. simpl.
    by rewrite (filter_snoc_dropped PageTemplate.id) by done.
  - unfold removeBookTemplate. simpl.
    by rewrite (filter_snoc_dropped BookTemplate.id) by done.
  - unfold removeCatalogTemplate. simpl.
    by rewrite (filter_snoc_dropped CatalogTemplate.id) by done.
  - unfold removePageInstance. simpl.
    by rewrite (filter_snoc_dropped PageInstance.id) by done.
  - unfold removeBookInstance. simpl.
    by rewrite (filter_snoc_dropped BookInstance.id) by done.
  - unfold removeCatalogInstance. simpl.
    by rewrite (filter_snoc_dropped CatalogInstance.id) by done.
Qed.

(** X3: on a state that satisfies invariants 1 to 4 and has no owner
    with an empty reference list, creating an entity under an id that no
    entity of its kind carries yet and then removing that id gives back
    the state from before the creation, whatever the new entity refers
    to. *)
Theorem create_then_remove_restores
    (s : TemplateState) (op : Op) (k : RemoveKind) (x : string) :
  created op = Some (k, x) →
  invariants_1_4 s →
  no_empty_owner s →
  x ∉ target_ids k s →
  remove k (next_state s op) x = s.
Proof.
  intros Hop Hinv Hfull Hx.
  rewrite (remove_after_create s op k x Hop).
  by apply remove_absent.
Qed.

Ltac decide_invariants :=
  unfold invariants_1_4, invariant1, invariant2, invariant3, invariant4,
    page_templateIds_exist, book_templateIds_exist, catalog_templateIds_exist,
    bookTemplate_refs_exist, catalogTemplate_refs_exist, no_empty_owner;
  by_evaluation.

Lemma create_then_remove_restores_witness :
  created create_second_page = Some (KPageInstance, "p-k3f9000009")
  ∧ invariants_1_4 scenario1_before
  ∧ no_empty_owner scenario1_before
  ∧ ("p-k3f9000009" ∉ target_ids KPageInstance scenario1_before)
  ∧ remove KPageInstance (next_state scenario1_before create_second_page)
      "p-k3f9000009"
    = scenario1_before.
Proof.
  assert (invariants_1_4 scenario1_before) as Hinv by decide_invariants.
  assert (no_empty_owner scenario1_before) as Hfull by decide_invariants.
  assert ("p-k3f9000009" ∉ target_ids KPageInstance scenario1_before) as Hx
    by by_evaluation.
  split_and!; [done..|].
  apply (create_then_remove_restores scenario1_before create_second_page
           KPageInstance "p-k3f9000009" eq_refl Hinv Hfull Hx).
Defined.

(** X4: the ids [createId] makes for two different kinds of entity are
    never equal, whatever the clock and the random draw give: the prefix
    and the dash that follows it tell the kinds apart. *)
Theorem createId_tells_kinds_apart (k k' : RemoveKind) (e e' : Entropy) :
  createId e (id_prefix k) = createId e' (id_prefix k') → k = k'.
Proof.
  unfold createId. destruct k, k'; simpl; intros H; try reflexivity;
    discriminate H.
Qed.

Lemma createId_tells_kinds_apart_witness :
  createId (mkEntropy "k3f9" "000001") (id_prefix KPageInstance)
  = createId (mkEntropy "k3f" "9000001") (id_prefix KPageInstance)
  ∧ KPageInstance = KPageInstance.
Proof.
  assert (createId (mkEntropy "k3f9" "000001") (id_prefix KPageInstance)
          = createId (mkEntropy "k3f" "9000001") (id_prefix KPageInstance))
    as Heq by reflexivity.
  split; [exact Heq|].
  apply (createId_tells_kinds_apart _ _ _ _ Heq).
Defined.

(** * The order of two removals *)

Lemma BookInstance_overwrite : refs_overwrite BookInstance_owner.
Proof. by intros a l l'. Qed.

Lemma CatalogInstance_overwrite : refs_overwrite CatalogInstance_owner.
Proof. by intros a l l'. Qed.

Lemma BookTemplate_overwrite : refs_overwrite BookTemplate_owner.
Proof. by intros a l l'. Qed.

Lemma CatalogTemplate_overwrite : refs_overwrite CatalogTemplate_owner.
Proof. by intros a l l'. Qed.

Lemma filter_comm {A} (P Q : A → Prop) `{!∀ x, Decision (P x)}
    `{!∀ x, Decision (Q x)} (l : list A) :
  filter P (filter Q l) = filter Q (filter P l).
Proof.
  rewrite !list_filter_filter. apply list_filter_iff. intros a. tauto.
Qed.

Section DropRefsAlgebra.
Context {A : Type} {owner : RefOwner A}.

Lemma drop_refs_cons (P : string → Prop) `{!∀ x, Decision (P x)}
    (a : A) (l : list A) :
  drop_refs P (a :: l)
  = match filter P (refs a) with
    | [] => drop_refs P l
    | _ :: _ => with_refs a (filter P (refs a)) :: drop_refs P l
    end.
Proof.
  unfold drop_refs. rewrite fmap_cons.
  destruct (filter P (refs a)) as [|i r] eqn:Hf.
  - rewrite filter_cons_False; [done|]. rewrite refs_with_refs. simpl. lia.
  - rewrite filter_cons_True; [done|]. rewrite refs_with_refs. simpl. lia.
Qed.

Lemma drop_refs_ext (P Q : string → Prop) `{!∀ x, Decision (P x)}
    `{!∀ x, Decision (Q x)} (l : list A) :
  (∀ i, P i ↔ Q i) → drop_refs P l = drop_refs Q l.
Proof.
  intros HPQ. induction l as [|a l IH]; [done|].
  rewrite !drop_refs_cons, IH.
  by rewrite (list_filter_iff P Q (refs a) HPQ).
Qed.

Context (Hover : refs_overwrite owner).

Lemma drop_refs_compose (P Q : string → Prop) `{!∀ x, Decision (P x)}
    `{!∀ x, Decision (Q x)} (l : list A) :
  drop_refs P (drop_refs Q l) = drop_refs (λ i, P i ∧ Q i) l.
Proof.
  induction l as [|a l IH]; [done|].
  rewrite (drop_refs_cons Q), (drop_refs_cons (λ i, P i ∧ Q i)).
  rewrite <-(list_filter_filter P Q (refs a)).
  destruct (filter Q (refs a)) as [|i r] eqn:Hf.
  - by rewrite filter_nil.
  - rewrite (drop_refs_cons P), refs_with_refs, Hover, IH. done.
Qed.

Lemma drop_refs_comm (P Q : string → Prop) `{!∀ x, Decision (P x)}
    `{!∀ x, Decision (Q x)} (l : list A) :
  drop_refs P (drop_refs Q l) = drop_refs Q (drop_refs P l).
Proof.
  rewrite !drop_refs_compose. apply drop_refs_ext. intros i. tauto.
Qed.

(** A filter on a property that the reference list does not touch can
    run before or after the cascade step. *)
Lemma filter_drop_refs (S : A → Prop) `{!∀ a, Decision (S a)}
    (P : string → Prop) `{!∀ x, Decision (P x)} (l : list A) :
  (∀ a r, S (with_refs a r) ↔ S a) →
  filter S (drop_refs P l) = drop_refs P (filter S l).
Proof.
  intros HS. induction l as [|a l IH]; [done|].
  rewrite (drop_refs_cons P). destruct (decide (S a)) as [Ha|Ha].
  - rewrite (filter_cons_True S a l Ha), (drop_refs_cons P).
    destruct (filter P (refs a)) as [|i r]; [done|].
    rewrite filter_cons_True by by apply HS. by rewrite IH.
  - rewrite (filter_cons_False S a l Ha).
    destruct (filter P (refs a)) as [|i r]; [done|].
    rewrite filter_cons_False; [done|]. by rewrite HS.
Qed.
End DropRefsAlgebra.

(** Two states with the same six collections are the same state. *)
Lemma TemplateState_ext (s s' : TemplateState) :
  pageTemplates s = pageTemplates s' → bookTemplates s = bookTemplates s' →
  catalogTemplates s = catalogTemplates s' → pages s = pages s' →
  books s = books s' → catalogs s = catalogs s' → s = s'.
Proof. destruct s, s'. simpl. by intros -> -> -> -> -> ->. Qed.

(** What is gone after two steps is what the first step or the second
    step took. *)
Lemma gone_in_two_steps (a b c : list string) (i : string) :
  (∀ j, j ∈ c → j ∈ b) → (∀ j, j ∈ b → j ∈ a) →
  (¬ (i ∈ b ∧ i ∉ c) ∧ ¬ (i ∈ a ∧ i ∉ b)) ↔ ¬ (i ∈ a ∧ i ∉ c).
Proof.
  intros Hcb Hba.
  destruct (decide (i ∈ a)), (decide (i ∈ b)), (decide (i ∈ c)); split;
    intros H; try tauto; exfalso; auto.
Qed.

Lemma removeCatalogInstance_comm s x y :
  removeCatalogInstance (removeCatalogInstance s x) y
  = removeCatalogInstance (removeCatalogInstance s y) x.
Proof. apply TemplateState_ext; try done. simpl. apply filter_comm. Qed.

Lemma removeCatalogTemplate_comm s x y :
  removeCatalogTemplate (removeCatalogTemplate s x) y
  = removeCatalogTemplate (removeCatalogTemplate s y) x.
Proof. apply TemplateState_ext; try done; simpl; apply filter_comm. Qed.

Lemma removeBookInstance_comm s x y :
  removeBookInstance (removeBookInstance s x) y
  = removeBookInstance (removeBookInstance s y) x.
Proof.
  apply TemplateState_ext; try done.
  - simpl. apply filter_comm.
  - rewrite !removeBookInstance_catalogs_eq.
    apply (drop_refs_comm CatalogInstance_overwrite).
Qed.

Section RemovePageInstanceTwice.
Context (s : TemplateState) (x y : string).

Lemma rpi_books_twice :
  rpi_updatedBooks (removePageInstance s x) y
  = drop_refs (λ i, i ≠ y ∧ i ≠ x) (books s).
Proof.
  rewrite rpi_updatedBooks_eq. simpl. rewrite rpi_updatedBooks_eq.
  apply (drop_refs_compose BookInstance_overwrite).
Qed.

Lemma rpi_catalogs_twice :
  rpi_updatedCatalogs (removePageInstance s x) y
  = drop_refs
      (λ i, ¬ (i ∈ BookInstance.id <$> books s
               ∧ i ∉ BookInstance.id
                       <$> drop_refs (λ i, i ≠ y ∧ i ≠ x) (books s)))
      (catalogs s).
Proof.
  rewrite rpi_updatedCatalogs_eq. simpl. rewrite rpi_updatedCatalogs_eq.
  rewrite (drop_refs_compose CatalogInstance_overwrite).
  apply drop_refs_ext. intros i.
  rewrite !elem_of_rpi_removedBookIds. simpl.
  rewrite rpi_books_twice.
  apply gone_in_two_steps.
  - intros j. rewrite <-rpi_books_twice, rpi_updatedBooks_eq. simpl.
    intros Hj. eapply elem_of_sublist; [exact Hj|].
    apply (drop_refs_keys_sublist (owner:=BookInstance_owner)).
  - intros j Hj. eapply elem_of_sublist; [exact Hj|].
    rewrite rpi_updatedBooks_eq.
    apply (drop_refs_keys_sublist (owner:=BookInstance_owner)).
Qed.
End RemovePageInstanceTwice.

Lemma removePageInstance_comm s x y :
  removePageInstance (removePageInstance s x) y
  = removePageInstance (removePageInstance s y) x.
Proof.
  apply TemplateState_ext; try done.
  - simpl. apply filter_comm.
  - change (rpi_updatedBooks (removePageInstance s x) y
            = rpi_updatedBooks (removePageInstance s y) x).
    rewrite !rpi_books_twice. apply drop_refs_ext. intros i. tauto.
  - change (rpi_updatedCatalogs (removePageInstance s x) y
            = rpi_updatedCatalogs (removePageInstance s y) x).
    rewrite !rpi_catalogs_twice. apply drop_refs_ext. intros i.
    rewrite (drop_refs_ext (A:=BookInstance.t) (λ i, i ≠ y ∧ i ≠ x)
               (λ i, i ≠ x ∧ i ≠ y) (books s)); [done|].
    intros j. tauto.
Qed.

Lemma rbt_booksToRemove_other s x y i :
  x ≠ y →
  i ∈ rbt_booksToRemove (removeBookTemplate s x) y ↔ i ∈ rbt_booksToRemove s y.
Proof.
  intros Hxy. rewrite !elem_of_rbt_booksToRemove. simpl. split.
  - intros (b & [_ Hb]%list_elem_of_filter & HT & Hid). eauto.
  - intros (b & Hb & HT & Hid). exists b. split_and!; [|done..].
    apply list_elem_of_filter. split; [|done]. by rewrite HT.
Qed.

Lemma removeBookTemplate_comm s x y :
  removeBookTemplate (removeBookTemplate s x) y
  = removeBookTemplate (removeBookTemplate s y) x.
Proof.
  destruct (decide (x = y)) as [->|Hxy]; [done|].
  assert (∀ a b, a ≠ b →
            rbt_updatedCatalogs (removeBookTemplate s a) b
            = filter (λ c, Forall (λ i, i ∉ rbt_booksToRemove s b)
                                  (CatalogInstance.bookInstanceIds c))
                (rbt_updatedCatalogs s a)) as Hcat.
  { intros a b Hab. unfold rbt_updatedCatalogs at 1. simpl.
    apply list_filter_iff. intros c. apply Forall_iff. intros i.
    by rewrite (rbt_booksToRemove_other s a b i Hab). }
  apply TemplateState_ext; try done.
  - simpl. apply filter_comm.
  - change (rbt_updatedCatalogTemplates (removeBookTemplate s x) y
            = rbt_updatedCatalogTemplates (removeBookTemplate s y) x).
    rewrite !(rbt_updatedCatalogTemplates_eq (removeBookTemplate s _)). simpl.
    rewrite !rbt_updatedCatalogTemplates_eq.
    apply (drop_refs_comm CatalogTemplate_overwrite).
  - simpl. apply filter_comm.
  - change (rbt_updatedCatalogs (removeBookTemplate s x) y
            = rbt_updatedCatalogs (removeBookTemplate s y) x).
    rewrite (Hcat x y), (Hcat y x) by done.
    unfold rbt_updatedCatalogs. apply filter_comm.
Qed.

Section RemovePageTemplateTwice.
Context (s : TemplateState) (x y : string) (Hxy : x ≠ y).

Lemma rpt_pagesToRemove_other i :
  i ∈ rpt_pagesToRemove (removePageTemplate s x) y ↔ i ∈ rpt_pagesToRemove s y.
Proof.
  rewrite !elem_of_rpt_pagesToRemove. simpl. split.
  - intros (p & [_ Hp]%list_elem_of_filter & HT & Hid). eauto.
  - intros (p & Hp & HT & Hid). exists p. split_and!; [|done..].
    apply list_elem_of_filter. split; [|done]. by rewrite HT.
Qed.

Lemma rpt_bookTemplates_twice :
  rpt_updatedBookTemplates (removePageTemplate s x) y
  = drop_refs (λ i, i ≠ y ∧ i ≠ x) (bookTemplates s).
Proof.
  rewrite rpt_updatedBookTemplates_eq. simpl.
  rewrite rpt_updatedBookTemplates_eq.
  apply (drop_refs_compose BookTemplate_overwrite).
Qed.

Lemma rpt_valid_twice i :
  i ∈ rpt_validBookTemplateIds (removePageTemplate s x) y
  ↔ i ∈ BookTemplate.id <$> drop_refs (λ i, i ≠ y ∧ i ≠ x) (bookTemplates s).
Proof. by rewrite elem_of_rpt_validBookTemplateIds, rpt_bookTemplates_twice. Qed.

Lemma rpt_valid_twice_subset i :
  i ∈ BookTemplate.id <$> drop_refs (λ i, i ≠ y ∧ i ≠ x) (bookTemplates s) →
  i ∈ rpt_validBookTemplateIds s x.
Proof.
  rewrite <-(drop_refs_compose BookTemplate_overwrite).
  intros Hi. apply elem_of_rpt_validBookTemplateIds.
  rewrite rpt_updatedBookTemplates_eq.
  eapply elem_of_sublist; [exact Hi|].
  apply (drop_refs_keys_sublist (owner:=BookTemplate_owner)).
Qed.

Lemma rpt_books_twice :
  rpt_booksAfterTemplateCleanup (removePageTemplate s x) y
  = filter
      (λ b, BookInstance.templateId b
              ∈ BookTemplate.id
                  <$> drop_refs (λ i, i ≠ y ∧ i ≠ x) (bookTemplates s))
      (drop_refs (λ i, (i ∉ rpt_pagesToRemove s y) ∧ (i ∉ rpt_pagesToRemove s x))
                 (books s)).
Proof.
  unfold rpt_booksAfterTemplateCleanup at 1. rewrite rpt_updatedBooks_eq.
  simpl.
  rewrite (drop_refs_ext (A:=BookInstance.t)
             (λ i, i ∉ rpt_pagesToRemove (removePageTemplate s x) y)
             (λ i, i ∉ rpt_pagesToRemove s y));
    [|by intros i; rewrite rpt_pagesToRemove_other].
  unfold rpt_booksAfterTemplateCleanup. rewrite rpt_updatedBooks_eq.
  rewrite <-(filter_drop_refs (owner:=BookInstance_owner)) by done.
  rewrite (drop_refs_compose BookInstance_overwrite).
  rewrite list_filter_filter. apply list_filter_iff. intros b.
  rewrite rpt_valid_twice. split; [by intros [H _]|].
  intros H. split; [done|]. by apply rpt_valid_twice_subset.
Qed.

Lemma rpt_catalogTemplates_twice :
  rpt_cleanedCatalogTemplates (removePageTemplate s x) y
  = drop_refs
      (λ i, i ∈ BookTemplate.id
                  <$> drop_refs (λ i, i ≠ y ∧ i ≠ x) (bookTemplates s))
      (catalogTemplates s).
Proof.
  rewrite rpt_cleanedCatalogTemplates_eq. simpl.
  rewrite rpt_cleanedCatalogTemplates_eq.
  rewrite (drop_refs_compose CatalogTemplate_overwrite).
  apply drop_refs_ext. intros i. rewrite rpt_valid_twice.
  split; [by intros [H _]|].
  intros H. split; [done|]. by apply rpt_valid_twice_subset.
Qed.
End RemovePageTemplateTwice.

Lemma rpt_books_ids_subset s T i :
  i ∈ BookInstance.id <$> rpt_booksAfterTemplateCleanup s T →
  i ∈ BookInstance.id <$> books s.
Proof.
  intros Hi. eapply elem_of_sublist; [exact Hi|].
  unfold rpt_booksAfterTemplateCleanup.
  etrans; [apply filter_keys_sublist|].
  rewrite rpt_updatedBooks_eq.
  apply (drop_refs_keys_sublist (owner:=BookInstance_owner)).
Qed.

Lemma rpt_catalogs_twice s x y :
  rpt_cleanedCatalogs (removePageTemplate s x) y
  = drop_refs
      (λ i, ¬ (i ∈ BookInstance.id <$> books s
               ∧ i ∉ BookInstance.id
                       <$> rpt_booksAfterTemplateCleanup
                             (removePageTemplate s x) y))
      (catalogs s).
Proof.
  rewrite rpt_cleanedCatalogs_eq. simpl. rewrite rpt_cleanedCatalogs_eq.
  rewrite (drop_refs_compose CatalogInstance_overwrite).
  apply drop_refs_ext. intros i.
  rewrite !elem_of_rpt_removedBookIds. simpl.
  apply gone_in_two_steps.
  - intros j Hj. by apply rpt_books_ids_subset in Hj.
  - intros j Hj. by apply rpt_books_ids_subset in Hj.
Qed.

Lemma rpt_books_comm s x y :
  x ≠ y →
  rpt_booksAfterTemplateCleanup (removePageTemplate s x) y
  = rpt_booksAfterTemplateCleanup (removePageTemplate s y) x.
Proof.
  intros Hxy. rewrite (rpt_books_twice s x y), (rpt_books_twice s y x) by done.
  rewrite (drop_refs_ext (A:=BookInstance.t)
             (λ i, (i ∉ rpt_pagesToRemove s y) ∧ (i ∉ rpt_pagesToRemove s x))
             (λ i, (i ∉ rpt_pagesToRemove s x) ∧ (i ∉ rpt_pagesToRemove s y)));
    [|intros i; tauto].
  apply list_filter_iff. intros b.
  rewrite (drop_refs_ext (A:=BookTemplate.t) (λ i, i ≠ y ∧ i ≠ x)
             (λ i, i ≠ x ∧ i ≠ y) (bookTemplates s)); [done|].
  intros i. tauto.
Qed.

Lemma removePageTemplate_comm s x y :
  removePageTemplate (removePageTemplate s x) y
  = removePageTemplate (removePageTemplate s y) x.
Proof.
  destruct (decide (x = y)) as [->|Hxy]; [done|].
  assert (y ≠ x) as Hyx by done.
  apply TemplateState_ext.
  - simpl. apply filter_comm.
  - change (rpt_updatedBookTemplates (removePageTemplate s x) y
            = rpt_updatedBookTemplates (removePageTemplate s y) x).
    rewrite !rpt_bookTemplates_twice. apply drop_refs_ext. intros i. tauto.
  - change (rpt_cleanedCatalogTemplates (removePageTemplate s x) y
            = rpt_cleanedCatalogTemplates (removePageTemplate s y) x).
    rewrite (rpt_catalogTemplates_twice s x y),
      (rpt_catalogTemplates_twice s y x).
    apply drop_refs_ext. intros i.
    rewrite (drop_refs_ext (A:=BookTemplate.t) (λ i, i ≠ y ∧ i ≠ x)
               (λ i, i ≠ x ∧ i ≠ y) (bookTemplates s)); [done|].
    intros j. tauto.
  - simpl. apply filter_comm.
  - by apply rpt_books_comm.
  - change (rpt_cleanedCatalogs (removePageTemplate s x) y
            = rpt_cleanedCatalogs (removePageTemplate s y) x).
    rewrite !rpt_catalogs_twice. apply drop_refs_ext. intros i.
    by rewrite (rpt_books_comm s x y Hxy).
Qed.

(** X5: two removals of the same kind can be made in either order: for
    each of the six remove operations, every state and every two ids,
    removing [x] and then [y] yields the state that removing [y] and then
    [x] yields. *)
Theorem remove_commutes (k : RemoveKind) (s : TemplateState) (x y : string) :
  remove k (remove k s x) y = remove k (remove k s y) x.
Proof.
  destruct k; simpl.
  - apply removePageTemplate_comm.
  - apply removeBookTemplate_comm.
  - apply removeCatalogTemplate_comm.
  - apply removePageInstance_comm.
  - apply removeBookInstance_comm.
  - apply removeCatalogInstance_comm.
Qed.

(** * The service and its storage *)

Lemma nullish_coalesce_not_null (a : option JsValue) :
  nullish_coalesce a (JArray []) ≠ JNull.
Proof. by destruct a as [[]|]. Qed.

Section ServiceStorage.
Context (JSON_stringify : JsValue → string).
Context (JSON_parse : string → option JsValue).

Lemma safeParseState_Some raw got :
  safeParseState JSON_parse raw = Some got →
  ∃ v, got = {| Parsed.pageTemplates :=
                  nullish_coalesce (get_prop v "pageTemplates") (JArray []);
                Parsed.bookTemplates :=
                  nullish_coalesce (get_prop v "bookTemplates") (JArray []);
                Parsed.catalogTemplates :=
                  nullish_coalesce (get_prop v "catalogTemplates") (JArray []);
                Parsed.pages := nullish_coalesce (get_prop v "pages") (JArray []);
                Parsed.books := nullish_coalesce (get_prop v "books") (JArray []);
                Parsed.catalogs :=
                  nullish_coalesce (get_prop v "catalogs") (JArray []) |}.
Proof.
  unfold safeParseState. destruct raw as [r|]; [|done].
  case_bool_decide; [done|]. destruct (JSON_parse r) as [v|]; [|done].
  destruct (truthy v && bool_decide (typeof v = ty_object)); [|done].
  intros [= <-]. by exists v.
Qed.

(** X6: whatever is stored and however [JSON.parse] reads it, none of
    the six collections of a state that [loadState] returns is [null];
    and [loadState] does return a state in every environment but the two
    in which reading [window.localStorage] throws or gives [null]. *)
Theorem loadState_collections_not_null (w : Window) :
  (w ≠ Some Blocked → w ≠ Some Null →
   ∃ got, loadState JSON_parse w = Returned got)
  ∧ ∀ got, loadState JSON_parse w = Returned got →
      Parsed.pageTemplates got ≠ JNull
      ∧ Parsed.bookTemplates got ≠ JNull
      ∧ Parsed.catalogTemplates got ≠ JNull
      ∧ Parsed.pages got ≠ JNull
      ∧ Parsed.books got ≠ JNull
      ∧ Parsed.catalogs got ≠ JNull.
Proof.
  unfold loadState. split.
  - intros Hblocked Hnull. destruct w as [[| | |ls]|]; [done| |done| |].
    + by eexists.
    + destruct (safeParseState _ _); by eexists.
    + by eexists.
  - intros got Hgot.
    assert (got = defaultParsed
            ∨ ∃ ls, safeParseState JSON_parse (getItem ls STORAGE_KEY)
                    = Some got) as [-> | [ls Hs]].
    { destruct w as [[| | |ls]|]; try discriminate Hgot.
      - left. by apply Returned_inj in Hgot.
      - destruct (safeParseState _ _) as [stored|] eqn:Hs;
          apply Returned_inj in Hgot as <-; [right; by exists ls | by left].
      - left. by apply Returned_inj in Hgot. }
    + by split_and!.
    + apply safeParseState_Some in Hs as (v & ->). simpl.
      split_and!; apply nullish_coalesce_not_null.
Qed.

Lemma persistState_accepted ls state :
  accepts_all ls →
  ∃ ls', persistState JSON_stringify (Some (Storage ls)) state
         = (Some (Storage ls'), Returned tt)
         ∧ accepts_all ls'
         ∧ getItem ls' STORAGE_KEY = Some (JSON_stringify (js_of_state state))
         ∧ ∀ key, key ≠ STORAGE_KEY → getItem ls' key = getItem ls key.
Proof.
  intros Hall. unfold persistState, setItem. rewrite Hall.
  eexists. split_and!; [done|done| |].
  - unfold getItem. simpl. apply lookup_insert_eq.
  - intros key Hkey. unfold getItem. simpl. by apply lookup_insert_ne.
Qed.

Lemma perform_all_cons this op ops :
  perform_all JSON_stringify this (op :: ops)
  = perform_all JSON_stringify (perform JSON_stringify this op).1 ops.
Proof. reflexivity. Qed.

Lemma perform_all_mirrors this ls ops :
  window this = Some (Storage ls) → accepts_all ls → ops ≠ [] →
  ∃ ls', window (perform_all JSON_stringify this ops) = Some (Storage ls')
         ∧ getItem ls' STORAGE_KEY
           = Some (JSON_stringify
                     (js_of_state (value (perform_all JSON_stringify this ops))))
         ∧ ∀ key, key ≠ STORAGE_KEY → getItem ls' key = getItem ls key.
Proof.
  revert this ls. induction ops as [|op ops IH]; intros this ls Hw Hall Hne;
    [done|].
  rewrite perform_all_cons.
  destruct (persistState_accepted ls (next_state (value this) op) Hall)
    as (ls1 & Hp & Hall1 & Hget1 & Hframe1).
  assert (window (perform JSON_stringify this op).1 = Some (Storage ls1))
    as Hw1.
  { unfold perform, setState. cbn [fst window]. by rewrite Hw, Hp. }
  destruct ops as [|op' ops'].
  - exists ls1. split_and!; done.
  - destruct (IH (perform JSON_stringify this op).1 ls1 Hw1 Hall1)
      as (ls' & Hw' & Hget' & Hframe'); [done|].
    exists ls'. split_and!; [done..|].
    intros key Hkey. by rewrite Hframe', Hframe1.
Qed.

(** X7: let the service run over a medium that takes every write. After
    any non-empty sequence of operations the slot of the service holds
    the text [JSON.stringify] wrote for the current value, the other keys
    of the medium hold what they held, and, provided [JSON.parse] reads
    that text back, [loadState] on the medium returns the six collections
    of the current value: a restart resumes from the last published
    state. *)
Theorem storage_mirrors_value (this : Service) (ls : LocalStorage)
    (ops : list Op) :
  window this = Some (Storage ls) →
  accepts_all ls →
  ops ≠ [] →
  let run := perform_all JSON_stringify this ops in
  ∃ ls', window run = Some (Storage ls')
    ∧ getItem ls' STORAGE_KEY = Some (JSON_stringify (js_of_state (value run)))
    ∧ (∀ key, key ≠ STORAGE_KEY → getItem ls' key = getItem ls key)
    ∧ (JSON_parse (JSON_stringify (js_of_state (value run)))
         = Some (js_of_state (value run)) →
       JSON_stringify (js_of_state (value run)) ≠ "" →
       loadState JSON_parse (window run)
       = Returned (parsed_of_state (value run))).
Proof.
  intros Hw Hall Hne run. subst run.
  destruct (perform_all_mirrors this ls ops Hw Hall Hne)
    as (ls' & Hw' & Hget & Hframe).
  exists ls'. split_and!; [done..|].
  intros Hround Hblob. rewrite Hw'. unfold loadState. rewrite Hget.
  by rewrite (safeParseState_object _ _ (js_of_state _) Hblob Hround).
Qed.

(** X8: a failure of the storage never holds back the update in memory.
    In every environment (no [window], [localStorage] undefined, [null]
    or throwing when read, a [Storage] that refuses or takes the write)
    an operation sets the current value to the next snapshot and
    publishes it. The call throws to its caller exactly when reading
    [window.localStorage] throws, and the value is set and published then
    too. The environment is left as it was unless it holds a [Storage]
    that takes the write, which then changes in the slot of the service
    alone. Over a whole sequence of operations the current value and the
    publications are the same whatever the environment and whatever
    [JSON.stringify] writes. *)
Theorem perform_survives_storage_failure (this : Service) (op : Op) :
  let call := perform JSON_stringify this op in
  let after := call.1 in
  let text := JSON_stringify (js_of_state (next_state (value this) op)) in
  value after = next_state (value this) op
  ∧ published after = (published this ++ [next_state (value this) op])%list
  ∧ (window this = Some Blocked → call.2 = Thrown SecurityError)
  ∧ (window this ≠ Some Blocked → call.2 = Returned tt)
  ∧ ((∀ ls, window this ≠ Some (Storage ls)) → window after = window this)
  ∧ (∀ ls, window this = Some (Storage ls) →
      (accepts ls STORAGE_KEY text = false → window after = window this)
      ∧ (accepts ls STORAGE_KEY text = true →
         ∃ ls', window after = Some (Storage ls')
                ∧ getItem ls' STORAGE_KEY = Some text
                ∧ ∀ key, key ≠ STORAGE_KEY → getItem ls' key = getItem ls key))
  ∧ ∀ (stringify : JsValue → string) (other : Service) (ops : list Op),
      value other = value this → published other = published this →
      value (perform_all stringify other ops)
      = value (perform_all JSON_stringify this ops)
      ∧ published (perform_all stringify other ops)
        = published (perform_all JSON_stringify this ops).
Proof.
  cbn zeta. unfold perform, setState. cbn [fst snd value published window].
  split_and!; [done | done | | | | |].
  - by intros ->.
  - intros Hw. unfold persistState.
    destruct (window this) as [[| | |ls]|]; [done|done..| |done].
    by destruct (setItem _ _ _).
  - intros Hw. unfold persistState.
    destruct (window this) as [[| | |ls]|]; [done..| |done].
    by destruct (Hw ls).
  - intros ls ->. unfold persistState, setItem. split.
    + by intros ->.
    + intros ->. eexists. split_and!; [done| |].
      * unfold getItem. simpl. apply lookup_insert_eq.
      * intros key Hkey. unfold getItem. simpl. by apply lookup_insert_ne.
  - intros stringify other ops Hv Hp.
    destruct (perform_all_published stringify other ops) as [-> ->].
    destruct (perform_all_published JSON_stringify this ops) as [-> ->].
    by rewrite Hv, Hp.
Qed.
End ServiceStorage.

Lemma accepts_all_empty_storage : accepts_all empty_storage.
Proof. by intros key value. Qed.

Lemma storage_mirrors_value_witness :
  window (fresh (Some (Storage empty_storage))) = Some (Storage empty_storage)
  ∧ accepts_all empty_storage
  ∧ dangling_page ≠ []
  ∧ loadState parse_one_page
      (window (perform_all stringify_one_page
                 (fresh (Some (Storage empty_storage))) dangling_page))
    = Returned
        (parsed_of_state
           (value (perform_all stringify_one_page
                     (fresh (Some (Storage empty_storage))) dangling_page))).
Proof.
  assert (dangling_page ≠ []) as Hne by done.
  split_and!; [done | apply accepts_all_empty_storage | done |].
  destruct (storage_mirrors_value stringify_one_page parse_one_page
              (fresh (Some (Storage empty_storage))) empty_storage dangling_page
              eq_refl accepts_all_empty_storage Hne)
    as (ls' & _ & _ & _ & Hload).
  apply Hload.
  - unfold parse_one_page, stringify_one_page. by case_bool_decide.
  - by_evaluation.
Defined.

(** * The viewer over the states of the service *)

Lemma filter_eq_after_ne {A} (f : A → string) (l : list A) (T x : string) :
  x ≠ T →
  filter (λ a, f a = x) (filter (λ a, f a ≠ T) l) = filter (λ a, f a = x) l.
Proof.
  intros Hx. rewrite list_filter_filter. apply list_filter_iff.
  intros a. split; [by intros [? _]|]. intros Ha. split; [done|]. by rewrite Ha.
Qed.

Lemma filter_eq_after_ne_same {A} (f : A → string) (l : list A) (T : string) :
  filter (λ a, f a = T) (filter (λ a, f a ≠ T) l) = [].
Proof.
  apply filter_none, Forall_forall. intros a [Hne _]%list_elem_of_filter. done.
Qed.

Lemma array_find_Some {A} (P : A → Prop) `{!∀ x, Decision (P x)}
    (l : list A) (a : A) :
  array_find P l = Some a → P a ∧ a ∈ l.
Proof.
  unfold array_find. intros Hh. apply (list_elem_of_filter P l a).
  destruct (filter P l) as [|b r]; [done|]. injection Hh as ->. left.
Qed.

Lemma array_find_None {A} (P : A → Prop) `{!∀ x, Decision (P x)} (l : list A) :
  array_find P l = None ↔ Forall (λ a, ¬ P a) l.
Proof.
  unfold array_find. rewrite <-(filter_nil_iff P l).
  destruct (filter P l) as [|b r]; simpl.
  - done.
  - split; intros Hx; discriminate Hx.
Qed.

Lemma array_find_is_Some {A} (P : A → Prop) `{!∀ x, Decision (P x)}
    (l : list A) (a : A) :
  a ∈ l → P a → is_Some (array_find P l).
Proof.
  intros Ha HP. destruct (array_find P l) as [b|] eqn:Hf; [by eexists|].
  apply array_find_None in Hf. rewrite Forall_forall in Hf.
  by destruct (Hf a Ha).
Qed.

(** X9: what the viewer lists under a template after a removal. Once
    [removePageTemplate T] is delivered, [pagesForTemplate T] is empty and
    the list of every other template is what it was; the same holds for
    [booksForTemplate] and [removeBookTemplate]. Once [removePageInstance]
    or [removeBookInstance] of [x] is delivered, each list of pages, or
    of books, is the former list without the entities of id [x]. *)
Theorem viewer_lists_after_removal (s : TemplateState) (T : string) :
  pagesForTemplate (viewing (removePageTemplate s T)) T = []
  ∧ booksForTemplate (viewing (removeBookTemplate s T)) T = []
  ∧ (∀ T', T' ≠ T →
       pagesForTemplate (viewing (removePageTemplate s T)) T'
       = pagesForTemplate (viewing s) T'
       ∧ booksForTemplate (viewing (removeBookTemplate s T)) T'
         = booksForTemplate (viewing s) T')
  ∧ (∀ x T',
       pagesForTemplate (viewing (removePageInstance s x)) T'
       = filter (λ page, PageInstance.id page ≠ x)
                (pagesForTemplate (viewing s) T')
       ∧ booksForTemplate (viewing (removeBookInstance s x)) T'
         = filter (λ book, BookInstance.id book ≠ x)
                  (booksForTemplate (viewing s) T')).
Proof.
  unfold pagesForTemplate, booksForTemplate. simpl. split_and!.
  - apply (filter_eq_after_ne_same PageInstance.templateId).
  - apply (filter_eq_after_ne_same BookInstance.templateId).
  - intros T' HT'. split.
    + by apply (filter_eq_after_ne PageInstance.templateId).
    + by apply (filter_eq_after_ne BookInstance.templateId).
  - intros x T'. split; apply filter_comm.
Qed.

Lemma array_find_after_ne {A} (f : A → string) (l : list A) (T x : string) :
  x ≠ T →
  array_find (λ a, f a = x) (filter (λ a, f a ≠ T) l)
  = array_find (λ a, f a = x) l.
Proof. intros Hx. unfold array_find. by rewrite filter_eq_after_ne. Qed.

Lemma array_find_after_ne_same {A} (f : A → string) (l : list A) (T : string) :
  array_find (λ a, f a = T) (filter (λ a, f a ≠ T) l) = None.
Proof. unfold array_find. by rewrite filter_eq_after_ne_same. Qed.

(** X10: looking a template up after a removal. Once
    [removePageTemplate T] is delivered, the viewer finds no page
    template under [T] and shows the fallback name for it, while every
    other id finds the template and the name it found before; the same
    holds for the name of a book template after [removeBookTemplate T]. *)
Theorem viewer_lookup_after_removal (s : TemplateState) (T : string) :
  pageTemplateFields (viewing (removePageTemplate s T)) T = None
  ∧ pageTemplateName (viewing (removePageTemplate s T)) T = "Untitled page"
  ∧ bookTemplateName (viewing (removeBookTemplate s T)) T = "Untitled book"
  ∧ ∀ x, x ≠ T →
      pageTemplateFields (viewing (removePageTemplate s T)) x
      = pageTemplateFields (viewing s) x
      ∧ pageTemplateName (viewing (removePageTemplate s T)) x
        = pageTemplateName (viewing s) x
      ∧ bookTemplateName (viewing (removeBookTemplate s T)) x
        = bookTemplateName (viewing s) x.
Proof.
  unfold pageTemplateFields, pageTemplateName, bookTemplateName. simpl.
  split_and!.
  - apply (array_find_after_ne_same PageTemplate.id).
  - by rewrite (array_find_after_ne_same PageTemplate.id).
  - by rewrite (array_find_after_ne_same BookTemplate.id).
  - intros x Hx. split_and!.
    + by apply (array_find_after_ne PageTemplate.id).
    + by rewrite (array_find_after_ne PageTemplate.id).
    + by rewrite (array_find_after_ne BookTemplate.id).
Qed.

Lemma final_state_invariants s ops :
  cascade_invariants s → refs_exist_all s ops →
  cascade_invariants (foldl next_state s ops).
Proof.
  revert s. induction ops as [|op ops IH]; intros s Hinv Hrefs; [done|].
  destruct Hrefs as [Hop Hrest]. simpl. apply IH; [|done].
  by apply next_state_preserves.
Qed.

(** X11: after any sequence of operations from the empty state in which
    every create was given existing ids, the viewer finds the template
    of every page and of every book it shows: the name it displays is
    the name of a template of the state with the id the instance names,
    not the fallback. *)
Theorem viewer_resolves_template_names (ops : list Op) :
  refs_exist_all defaultState ops →
  let s := final_state ops in
  (∀ p, p ∈ pages s →
     ∃ t, t ∈ pageTemplates s
          ∧ PageTemplate.id t = PageInstance.templateId p
          ∧ pageTemplateFields (viewing s) (PageInstance.templateId p) = Some t
          ∧ pageTemplateName (viewing s) (PageInstance.templateId p)
            = PageTemplate.name t)
  ∧ (∀ b, b ∈ books s →
       ∃ t, t ∈ bookTemplates s
            ∧ BookTemplate.id t = BookInstance.templateId b
            ∧ bookTemplateName (viewing s) (BookInstance.templateId b)
              = BookTemplate.name t).
Proof.
  intros Hrefs s.
  destruct (final_state_invariants defaultState ops defaultState_invariants
              Hrefs) as (H1p & H1b & _).
  fold (final_state ops) in H1p, H1b. fold s in H1p, H1b.
  unfold page_templateIds_exist in H1p. unfold book_templateIds_exist in H1b.
  rewrite Forall_forall in H1p. rewrite Forall_forall in H1b.
  unfold pageTemplateFields, pageTemplateName, bookTemplateName. simpl. split.
  - intros p Hp. apply H1p, elem_of_ids in Hp as (t0 & Ht0 & Hid0).
    destruct (array_find_is_Some
                (λ t, PageTemplate.id t = PageInstance.templateId p)
                (pageTemplates s) t0 Ht0 Hid0) as [t Ht].
    rewrite Ht. apply array_find_Some in Ht as [Hid Hin]. by exists t.
  - intros b Hb. apply H1b, elem_of_ids in Hb as (t0 & Ht0 & Hid0).
    destruct (array_find_is_Some
                (λ t, BookTemplate.id t = BookInstance.templateId b)
                (bookTemplates s) t0 Ht0 Hid0) as [t Ht].
    rewrite Ht. apply array_find_Some in Ht as [Hid Hin]. by exists t.
Qed.

Lemma viewer_resolves_template_names_witness :
  refs_exist_all defaultState (take 4 scenario1)
  ∧ (∀ p, p ∈ pages scenario1_before →
       ∃ t, t ∈ pageTemplates scenario1_before
            ∧ PageTemplate.id t = PageInstance.templateId p
            ∧ pageTemplateFields (viewing scenario1_before)
                (PageInstance.templateId p) = Some t
            ∧ pageTemplateName (viewing scenario1_before)
                (PageInstance.templateId p) = PageTemplate.name t).
Proof.
  assert (refs_exist_all defaultState (take 4 scenario1)) as Hrefs.
  { vm_compute. repeat first [split | constructor]. }
  split; [exact Hrefs|].
  apply (viewer_resolves_template_names (take 4 scenario1) Hrefs).
Defined.

(** * The forms of the viewer *)

Section ClearInvalid.
Context (valid : gset string).

Lemma length_clear_invalid l : length (clear_invalid valid l) = length l.
Proof. unfold clear_invalid. apply length_fmap. Qed.

Lemma clear_invalid_lookup l i x :
  clear_invalid valid l !! i = Some (Some x) →
  l !! i = Some (Some x) ∧ (x = "" ∨ x ∈ valid).
Proof.
  unfold clear_invalid. rewrite list_lookup_fmap.
  destruct (l !! i) as [[y|]|]; simpl; [|done..].
  case_decide as Hy; [done|]. intros [= ->]. split; [done|].
  destruct (decide (x = "")) as [|Hne]; [by left|right].
  destruct (decide (x ∈ valid)); [done|]. by destruct Hy.
Qed.

Lemma clear_invalid_elem l x :
  Some x ∈ clear_invalid valid l → Some x ∈ l ∧ (x = "" ∨ x ∈ valid).
Proof.
  intros [i Hi]%list_elem_of_lookup.
  apply clear_invalid_lookup in Hi as [Hl Hx]. split; [|done].
  apply list_elem_of_lookup. by exists i.
Qed.

Lemma clear_invalid_twice l :
  clear_invalid valid (clear_invalid valid l) = clear_invalid valid l.
Proof.
  unfold clear_invalid. rewrite <-list_fmap_compose.
  apply list_fmap_ext. intros i [y|] _; simpl; [|done].
  case_decide as Hy; [done|]. simpl. by rewrite decide_False.
Qed.

Lemma clear_invalid_valid l :
  Forall (λ value, ∀ x, value = Some x → x = "" ∨ x ∈ valid) l →
  clear_invalid valid l = l.
Proof.
  intros Hl. unfold clear_invalid.
  rewrite <-(list_fmap_id l) at 2. apply list_fmap_ext.
  intros i [y|] Hi; simpl; [|done].
  rewrite Forall_forall in Hl.
  assert (Some y ∈ l) as Hy by (apply list_elem_of_lookup; by exists i).
  rewrite decide_False; [done|]. intros [Hne Hout].
  by destruct (Hl _ Hy y eq_refl).
Qed.
End ClearInvalid.

Lemma validateBookSelections_cases this form :
  match find_if_set BookTemplate.id (BookInstanceForm.templateId form)
          (Viewer.bookTemplates this) with
  | None => validateBookSelections this form = form
  | Some template =>
      validateBookSelections this form
      = {| BookInstanceForm.templateId := BookInstanceForm.templateId form;
           BookInstanceForm.title := BookInstanceForm.title form;
           BookInstanceForm.pageSelections :=
             clear_invalid (validPageIds this template)
               (BookInstanceForm.pageSelections form) |}
  end.
Proof.
  unfold validateBookSelections, find_if_set.
  destruct (BookInstanceForm.templateId form) as [x|]; [|done].
  case_decide; [done|].
  by destruct (array_find _ (Viewer.bookTemplates this)).
Qed.

(** X12: [validateBookSelections] only clears selections. It keeps the
    template, the title and the number of selections, a selection it
    leaves set is the one that was there, and running it again changes
    nothing. When the form names a template of the viewer, every
    non-empty selection left is the id of a page instance whose template
    the book template lists; in particular a selection that names an id
    of no page instance is cleared. *)
Theorem validateBookSelections_sound
    (this : Viewer.t) (form : BookInstanceForm.t) :
  let form' := validateBookSelections this form in
  BookInstanceForm.templateId form' = BookInstanceForm.templateId form
  ∧ BookInstanceForm.title form' = BookInstanceForm.title form
  ∧ length (BookInstanceForm.pageSelections form')
    = length (BookInstanceForm.pageSelections form)
  ∧ (∀ i x, BookInstanceForm.pageSelections form' !! i = Some (Some x) →
            BookInstanceForm.pageSelections form !! i = Some (Some x))
  ∧ validateBookSelections this form' = form'
  ∧ ∀ template,
      find_if_set BookTemplate.id (BookInstanceForm.templateId form)
        (Viewer.bookTemplates this) = Some template →
      ∀ x, Some x ∈ BookInstanceForm.pageSelections form' → x ≠ "" →
        x ∈ PageInstance.id <$> Viewer.pageInstances this
        ∧ ∃ page, page ∈ Viewer.pageInstances this
                  ∧ PageInstance.id page = x
                  ∧ PageInstance.templateId page
                      ∈ BookTemplate.pageTemplateIds template.
Proof.
  intros form'. subst form'.
  pose proof (validateBookSelections_cases this form) as Hcases.
  destruct (find_if_set BookTemplate.id (BookInstanceForm.templateId form)
              (Viewer.bookTemplates this)) as [template|] eqn:Hfind.
  - rewrite Hcases. simpl. split_and!; [done|done| | | |].
    + apply length_clear_invalid.
    + intros i x Hi. by apply clear_invalid_lookup in Hi as [? _].
    + pose proof (validateBookSelections_cases this
                    {| BookInstanceForm.templateId :=
                         BookInstanceForm.templateId form;
                       BookInstanceForm.title := BookInstanceForm.title form;
                       BookInstanceForm.pageSelections :=
                         clear_invalid (validPageIds this template)
                           (BookInstanceForm.pageSelections form) |}) as Hagain.
      simpl in Hagain. rewrite Hfind in Hagain. rewrite Hagain.
      by rewrite clear_invalid_twice.
    + intros template' [= <-] x Hx Hne.
      apply clear_invalid_elem in Hx as [_ [Hx|Hx]]; [done|].
      unfold validPageIds in Hx.
      apply elem_of_list_to_set, elem_of_ids in Hx
        as (page & [HT Hpage]%list_elem_of_filter & Hid).
      split; [|by exists page]. apply elem_of_ids. by exists page.
  - rewrite Hcases. by split_and!.
Qed.

Lemma validateCatalogSelections_cases this form :
  match find_if_set CatalogTemplate.id (CatalogInstanceForm.templateId form)
          (Viewer.catalogTemplates this) with
  | None => validateCatalogSelections this form = form
  | Some template =>
      validateCatalogSelections this form
      = {| CatalogInstanceForm.templateId := CatalogInstanceForm.templateId form;
           CatalogInstanceForm.title := CatalogInstanceForm.title form;
           CatalogInstanceForm.bookSelections :=
             clear_invalid (validBookIds this template)
               (CatalogInstanceForm.bookSelections form) |}
  end.
Proof.
  unfold validateCatalogSelections, find_if_set.
  destruct (CatalogInstanceForm.templateId form) as [x|]; [|done].
  case_decide; [done|].
  by destruct (array_find _ (Viewer.catalogTemplates this)).
Qed.

(** X13: [validateCatalogSelections] only clears selections. It keeps
    the template, the title and the number of selections, a selection it
    leaves set is the one that was there, and running it again changes
    nothing. When the form names a template of the viewer, every
    non-empty selection left is the id of a book instance whose template
    the catalog template lists. *)
Theorem validateCatalogSelections_sound
    (this : Viewer.t) (form : CatalogInstanceForm.t) :
  let form' := validateCatalogSelections this form in
  CatalogInstanceForm.templateId form' = CatalogInstanceForm.templateId form
  ∧ CatalogInstanceForm.title form' = CatalogInstanceForm.title form
  ∧ length (CatalogInstanceForm.bookSelections form')
    = length (CatalogInstanceForm.bookSelections form)
  ∧ (∀ i x, CatalogInstanceForm.bookSelections form' !! i = Some (Some x) →
            CatalogInstanceForm.bookSelections form !! i = Some (Some x))
  ∧ validateCatalogSelections this form' = form'
  ∧ ∀ template,
      find_if_set CatalogTemplate.id (CatalogInstanceForm.templateId form)
        (Viewer.catalogTemplates this) = Some template →
      ∀ x, Some x ∈ CatalogInstanceForm.bookSelections form' → x ≠ "" →
        x ∈ BookInstance.id <$> Viewer.bookInstances this
        ∧ ∃ book, book ∈ Viewer.bookInstances this
                  ∧ BookInstance.id book = x
                  ∧ BookInstance.templateId book
                      ∈ CatalogTemplate.bookTemplateIds template.
Proof.
  intros form'. subst form'.
  pose proof (validateCatalogSelections_cases this form) as Hcases.
  destruct (find_if_set CatalogTemplate.id (CatalogInstanceForm.templateId form)
              (Viewer.catalogTemplates this)) as [template|] eqn:Hfind.
  - rewrite Hcases. simpl. split_and!; [done|done| | | |].
    + apply length_clear_invalid.
    + intros i x Hi. by apply clear_invalid_lookup in Hi as [? _].
    + pose proof (validateCatalogSelections_cases this
                    {| CatalogInstanceForm.templateId :=
                         CatalogInstanceForm.templateId form;
                       CatalogInstanceForm.title :=
                         CatalogInstanceForm.title form;
                       CatalogInstanceForm.bookSelections :=
                         clear_invalid (validBookIds this template)
                           (CatalogInstanceForm.bookSelections form) |})
        as Hagain.
      simpl in Hagain. rewrite Hfind in Hagain. rewrite Hagain.
      by rewrite clear_invalid_twice.
    + intros template' [= <-] x Hx Hne.
      apply clear_invalid_elem in Hx as [_ [Hx|Hx]]; [done|].
      unfold validBookIds in Hx.
      apply elem_of_list_to_set, elem_of_ids in Hx
        as (book & [HT Hbook]%list_elem_of_filter & Hid).
      split; [|by exists book]. apply elem_of_ids. by exists book.
  - rewrite Hcases. by split_and!.
Qed.

Lemma find_if_set_Some {A} (id : A → string) (templateId : option string)
    (templates : list A) (template : A) :
  find_if_set id templateId templates = Some template →
  truthy_string templateId ∧ templateId = Some (id template)
  ∧ template ∈ templates.
Proof.
  unfold find_if_set. destruct templateId as [x|]; [|done].
  case_decide; [done|]. intros [<- Hin]%array_find_Some. done.
Qed.

Lemma find_if_set_exists {A} (id : A → string) (x : string)
    (templates : list A) :
  x ≠ "" → Exists (λ template, Some (id template) = Some x) templates →
  is_Some (find_if_set id (Some x) templates).
Proof.
  intros Hx (t & Ht & [= Hid])%Exists_exists. unfold find_if_set.
  rewrite decide_False by done.
  by apply (array_find_is_Some _ templates t).
Qed.

(** X14: what [syncBookTemplateSelection] leaves in the form. A form
    with no template selected is left alone. If the selected template is
    no longer among the book templates the form is reset: empty template
    id, empty title, no selections. Otherwise the form keeps its template
    and title and gets one cleared selection per page template of the
    selected template, whatever was selected before. Either way a second
    run changes nothing. *)
Theorem syncBookTemplateSelection_outcome
    (this : Viewer.t) (form : BookInstanceForm.t) :
  let form' := syncBookTemplateSelection this form in
  (¬ truthy_string (BookInstanceForm.templateId form) → form' = form)
  ∧ (truthy_string (BookInstanceForm.templateId form) →
     find_if_set BookTemplate.id (BookInstanceForm.templateId form)
       (Viewer.bookTemplates this) = None →
     form' = {| BookInstanceForm.templateId := Some "";
                BookInstanceForm.title := "";
                BookInstanceForm.pageSelections := [] |})
  ∧ (∀ template,
       find_if_set BookTemplate.id (BookInstanceForm.templateId form)
         (Viewer.bookTemplates this) = Some template →
       form' = {| BookInstanceForm.templateId := BookInstanceForm.templateId form;
                  BookInstanceForm.title := BookInstanceForm.title form;
                  BookInstanceForm.pageSelections :=
                    (λ _, None) <$> BookTemplate.pageTemplateIds template |})
  ∧ syncBookTemplateSelection this form' = form'.
Proof.
  intros form'. subst form'.
  assert (∀ f, ¬ truthy_string (BookInstanceForm.templateId f) →
               syncBookTemplateSelection this f = f) as Hfalsy.
  { intros f Hf. unfold syncBookTemplateSelection.
    rewrite decide_False by tauto. by rewrite decide_False. }
  assert (∀ f template,
            find_if_set BookTemplate.id (BookInstanceForm.templateId f)
              (Viewer.bookTemplates this) = Some template →
            syncBookTemplateSelection this f
            = {| BookInstanceForm.templateId := BookInstanceForm.templateId f;
                 BookInstanceForm.title := BookInstanceForm.title f;
                 BookInstanceForm.pageSelections :=
                   (λ _, None) <$> BookTemplate.pageTemplateIds template |})
    as Hfound.
  { intros f template Hfind.
    pose proof (find_if_set_Some _ _ _ _ Hfind) as (Htruthy & Hid & Hin).
    unfold syncBookTemplateSelection. rewrite decide_False.
    - rewrite decide_True by done. unfold configureBookSelections.
      by rewrite Hfind.
    - intros [_ Hno]. apply Hno, Exists_exists. by exists template. }
  assert (∀ f, truthy_string (BookInstanceForm.templateId f) →
            find_if_set BookTemplate.id (BookInstanceForm.templateId f)
              (Viewer.bookTemplates this) = None →
            syncBookTemplateSelection this f
            = {| BookInstanceForm.templateId := Some "";
                 BookInstanceForm.title := "";
                 BookInstanceForm.pageSelections := [] |}) as Hgone.
  { intros f Htruthy Hfind. unfold syncBookTemplateSelection.
    rewrite decide_True; [done|]. split; [done|]. intros Hex.
    destruct (BookInstanceForm.templateId f) as [x|]; [|done].
    destruct (find_if_set_exists BookTemplate.id x (Viewer.bookTemplates this)
                Htruthy Hex) as [t Ht].
    by rewrite Ht in Hfind. }
  split_and!; [by apply Hfalsy | by apply Hgone | by apply Hfound |].
  destruct (decide (truthy_string (BookInstanceForm.templateId form)))
    as [Htruthy|Hfalse];
    [|rewrite (Hfalsy form Hfalse); by apply Hfalsy].
  destruct (find_if_set BookTemplate.id (BookInstanceForm.templateId form)
              (Viewer.bookTemplates this)) as [template|] eqn:Hfind.
  - rewrite (Hfound form template Hfind). by rewrite (Hfound _ template).
  - rewrite (Hgone form Htruthy Hfind). by apply Hfalsy; simpl; intros [].
Qed.

Lemma selected_not_empty (selections : list (option string)) :
  Forall (λ x, x ≠ "") (selected selections).
Proof.
  apply Forall_forall. intros x (v & _ & Hv)%list_elem_of_omap.
  destruct v as [y|]; [|done]. case_decide; [|done]. by injection Hv as ->.
Qed.

Lemma find_by_control_Some {A} (id : A → string) (templateId : option string)
    (templates : list A) (template : A) :
  find_by_control id templateId templates = Some template →
  templateId = Some (id template) ∧ template ∈ templates.
Proof.
  unfold find_by_control. destruct templateId as [x|]; [|done].
  intros [<- Hin]%array_find_Some. done.
Qed.

(** X15: whenever [submitBookInstance] reaches the service, the form was
    valid, the book it asks for names the template selected in the form,
    which is a book template of the viewer, and holds exactly the
    selections that are set, none of them empty, as many as the template
    has page templates. Over a state in which every book names an
    existing template and no owner has an empty list, the book it
    creates keeps both facts true. *)
Theorem submitBookInstance_request
    (invalid : bool) (trim : string → string) (this : Viewer.t)
    (form : BookInstanceForm.t) (tid title : string) (ids : list string) :
  submitBookInstance invalid trim this form = Some (tid, title, ids) →
  invalid = false
  ∧ BookInstanceForm.templateId form = Some tid
  ∧ title = trim (BookInstanceForm.title form)
  ∧ ids = selected (BookInstanceForm.pageSelections form)
  ∧ Forall (λ id, id ≠ "") ids
  ∧ (∃ template, template ∈ Viewer.bookTemplates this
                 ∧ BookTemplate.id template = tid
                 ∧ length ids = length (BookTemplate.pageTemplateIds template))
  ∧ ∀ s e, this = viewing s → book_templateIds_exist s → no_empty_owner s →
      book_templateIds_exist (next_state s (CreateBookInstance e tid title ids))
      ∧ no_empty_owner (next_state s (CreateBookInstance e tid title ids)).
Proof.
  unfold submitBookInstance. destruct invalid; [done|]. simpl.
  case_bool_decide as Hlen; [done|].
  destruct (find_by_control BookTemplate.id (BookInstanceForm.templateId form)
              (Viewer.bookTemplates this)) as [template|] eqn:Hfind; [|done].
  case_bool_decide as Hsel; [done|]. intros [= <- <- <-].
  apply find_by_control_Some in Hfind as [Hid Hin].
  assert (length (selected (BookInstanceForm.pageSelections form))
          = length (BookTemplate.pageTemplateIds template)) as Hsame.
  { destruct (decide (length (selected (BookInstanceForm.pageSelections form))
                      = length (BookTemplate.pageTemplateIds template)));
      [done|]. by destruct Hsel. }
  split_and!; [done..|apply selected_not_empty| |].
  - by exists template.
  - intros s e -> H1b (Hbt & Hct & Hb & Hc). simpl in Hin.
    split.
    + unfold book_templateIds_exist. simpl. apply Forall_snoc; [done|].
      simpl. apply elem_of_ids. by exists template.
    + unfold no_empty_owner. simpl. split_and!; [done..| |done].
      apply Forall_snoc; [done|]. simpl.
      rewrite Forall_forall in Hbt. specialize (Hbt template Hin).
      intros Hnil. rewrite Hnil in Hsame. simpl in Hsame.
      symmetry in Hsame. by apply length_zero_iff_nil in Hsame.
Qed.

Lemma submitBookInstance_request_witness :
  submitBookInstance false sample_trim (viewing scenario1_before) book_form
  = Some ("bt-k3f9000003", "B2", ["p-k3f9000002"])
  ∧ BookInstanceForm.templateId book_form = Some "bt-k3f9000003"
  ∧ Forall (λ id, id ≠ "") ["p-k3f9000002"].
Proof.
  assert (submitBookInstance false sample_trim (viewing scenario1_before)
            book_form = Some ("bt-k3f9000003", "B2", ["p-k3f9000002"]))
    as Hsubmit by (vm_compute; reflexivity).
  split; [exact Hsubmit|].
  split;
    apply (submitBookInstance_request false sample_trim
             (viewing scenario1_before) book_form _ _ _ Hsubmit).
Defined.

(** X16: what [syncCatalogTemplateSelection] leaves in the form: a form
    with no template selected is left alone; if the selected template is
    no longer among the catalog templates the form is reset to an empty
    template id, an empty title and no selections; otherwise the form
    keeps its template and title and gets one cleared selection per book
    template of the selected template. A second run changes nothing. *)
Theorem syncCatalogTemplateSelection_outcome
    (this : Viewer.t) (form : CatalogInstanceForm.t) :
  let form' := syncCatalogTemplateSelection this form in
  (¬ truthy_string (CatalogInstanceForm.templateId form) → form' = form)
  ∧ (truthy_string (CatalogInstanceForm.templateId form) →
     find_if_set CatalogTemplate.id (CatalogInstanceForm.templateId form)
       (Viewer.catalogTemplates this) = None →
     form' = {| CatalogInstanceForm.templateId := Some "";
                CatalogInstanceForm.title := "";
                CatalogInstanceForm.bookSelections := [] |})
  ∧ (∀ template,
       find_if_set CatalogTemplate.id (CatalogInstanceForm.templateId form)
         (Viewer.catalogTemplates this) = Some template →
       form' = {| CatalogInstanceForm.templateId :=
                    CatalogInstanceForm.templateId form;
                  CatalogInstanceForm.title := CatalogInstanceForm.title form;
                  CatalogInstanceForm.bookSelections :=
                    (λ _, None) <$> CatalogTemplate.bookTemplateIds template |})
  ∧ syncCatalogTemplateSelection this form' = form'.
Proof.
  intros form'. subst form'.
  assert (∀ f, ¬ truthy_string (CatalogInstanceForm.templateId f) →
               syncCatalogTemplateSelection this f = f) as Hfalsy.
  { intros f Hf. unfold syncCatalogTemplateSelection.
    rewrite decide_False by tauto. by rewrite decide_False. }
  assert (∀ f template,
            find_if_set CatalogTemplate.id (CatalogInstanceForm.templateId f)
              (Viewer.catalogTemplates this) = Some template →
            syncCatalogTemplateSelection this f
            = {| CatalogInstanceForm.templateId :=
                   CatalogInstanceForm.templateId f;
                 CatalogInstanceForm.title := CatalogInstanceForm.title f;
                 CatalogInstanceForm.bookSelections :=
                   (λ _, None) <$> CatalogTemplate.bookTemplateIds template |})
    as Hfound.
  { intros f template Hfind.
    pose proof (find_if_set_Some _ _ _ _ Hfind) as (Htruthy & Hid & Hin).
    unfold syncCatalogTemplateSelection. rewrite decide_False.
    - rewrite decide_True by done. unfold configureCatalogSelections.
      by rewrite Hfind.
    - intros [_ Hno]. apply Hno, Exists_exists. by exists template. }
  assert (∀ f, truthy_string (CatalogInstanceForm.templateId f) →
            find_if_set CatalogTemplate.id (CatalogInstanceForm.templateId f)
              (Viewer.catalogTemplates this) = None →
            syncCatalogTemplateSelection this f
            = {| CatalogInstanceForm.templateId := Some "";
                 CatalogInstanceForm.title := "";
                 CatalogInstanceForm.bookSelections := [] |}) as Hgone.
  { intros f Htruthy Hfind. unfold syncCatalogTemplateSelection.
    rewrite decide_True; [done|]. split; [done|]. intros Hex.
    destruct (CatalogInstanceForm.templateId f) as [x|]; [|done].
    destruct (find_if_set_exists CatalogTemplate.id x
                (Viewer.catalogTemplates this) Htruthy Hex) as [t Ht].
    by rewrite Ht in Hfind. }
  split_and!; [by apply Hfalsy | by apply Hgone | by apply Hfound |].
  destruct (decide (truthy_string (CatalogInstanceForm.templateId form)))
    as [Htruthy|Hfalse];
    [|rewrite (Hfalsy form Hfalse); by apply Hfalsy].
  destruct (find_if_set CatalogTemplate.id (CatalogInstanceForm.templateId form)
              (Viewer.catalogTemplates this)) as [template|] eqn:Hfind.
  - rewrite (Hfound form template Hfind). by rewrite (Hfound _ template).
  - rewrite (Hgone form Htruthy Hfind). by apply Hfalsy; simpl; intros [].
Qed.

(** X17: whenever [submitCatalogInstance] reaches the service, the form
    was valid, the catalog it asks for names the template selected in the
    form, which is a catalog template of the viewer, and holds exactly
    the selections that are set, none of them empty, as many as the
    template has book templates. Over a state in which every catalog
    names an existing template and no owner has an empty list, the
    catalog it creates keeps both facts true. *)
Theorem submitCatalogInstance_request
    (invalid : bool) (trim : string → string) (this : Viewer.t)
    (form : CatalogInstanceForm.t) (tid title : string) (ids : list string) :
  submitCatalogInstance invalid trim this form = Some (tid, title, ids) →
  invalid = false
  ∧ CatalogInstanceForm.templateId form = Some tid
  ∧ title = trim (CatalogInstanceForm.title form)
  ∧ ids = selected (CatalogInstanceForm.bookSelections form)
  ∧ Forall (λ id, id ≠ "") ids
  ∧ (∃ template, template ∈ Viewer.catalogTemplates this
                 ∧ CatalogTemplate.id template = tid
                 ∧ length ids
                   = length (CatalogTemplate.bookTemplateIds template))
  ∧ ∀ s e, this = viewing s → catalog_templateIds_exist s → no_empty_owner s →
      catalog_templateIds_exist
        (next_state s (CreateCatalogInstance e tid title ids))
      ∧ no_empty_owner (next_state s (CreateCatalogInstance e tid title ids)).
Proof.
  unfold submitCatalogInstance. destruct invalid; [done|]. simpl.
  case_bool_decide as Hlen; [done|].
  destruct (find_by_control CatalogTemplate.id
              (CatalogInstanceForm.templateId form)
              (Viewer.catalogTemplates this)) as [template|] eqn:Hfind; [|done].
  case_bool_decide as Hsel; [done|]. intros [= <- <- <-].
  apply find_by_control_Some in Hfind as [Hid Hin].
  assert (length (selected (CatalogInstanceForm.bookSelections form))
          = length (CatalogTemplate.bookTemplateIds template)) as Hsame.
  { destruct (decide
                (length (selected (CatalogInstanceForm.bookSelections form))
                 = length (CatalogTemplate.bookTemplateIds template)));
      [done|]. by destruct Hsel. }
  split_and!; [done..|apply selected_not_empty| |].
  - by exists template.
  - intros s e -> H1c (Hbt & Hct & Hb & Hc). simpl in Hin.
    split.
    + unfold catalog_templateIds_exist. simpl. apply Forall_snoc; [done|].
      simpl. apply elem_of_ids. by exists template.
    + unfold no_empty_owner. simpl. split_and!; [done..|].
      apply Forall_snoc; [done|]. simpl.
      rewrite Forall_forall in Hct. specialize (Hct template Hin).
      intros Hnil. rewrite Hnil in Hsame. simpl in Hsame.
      symmetry in Hsame. by apply length_zero_iff_nil in Hsame.
Qed.

Lemma submitCatalogInstance_request_witness :
  submitCatalogInstance false sample_trim (viewing catalog_state) catalog_form
  = Some ("ct-k3f9000004", "C", ["b-k3f9000006"])
  ∧ CatalogInstanceForm.templateId catalog_form = Some "ct-k3f9000004"
  ∧ Forall (λ id, id ≠ "") ["b-k3f9000006"].
Proof.
  assert (submitCatalogInstance false sample_trim (viewing catalog_state)
            catalog_form = Some ("ct-k3f9000004", "C", ["b-k3f9000006"]))
    as Hsubmit by (vm_compute; reflexivity).
  split; [exact Hsubmit|].
  split;
    apply (submitCatalogInstance_request false sample_trim
             (viewing catalog_state) catalog_form _ _ _ Hsubmit).
Defined.

(** X18: whenever [submitPageInstance] reaches the service, the form was
    valid and the page it asks for carries the values of the form and
    names the template selected in the form, which is a page template of
    the viewer; so the create is given an existing template id and the
    page it adds keeps every page of the state on an existing template. *)
Theorem submitPageInstance_request
    (invalid : bool) (trim : string → string) (this : Viewer.t)
    (form : PageInstanceForm.t) (tid title : string)
    (values : gmap string string) :
  submitPageInstance invalid trim this form = Some (tid, title, values) →
  invalid = false
  ∧ PageInstanceForm.templateId form = Some tid
  ∧ title = trim (PageInstanceForm.title form)
  ∧ values = PageInstanceForm.values form
  ∧ (∃ template, template ∈ Viewer.pageTemplates this
                 ∧ PageTemplate.id template = tid)
  ∧ ∀ s e, this = viewing s →
      refs_exist s (CreatePageInstance e tid title values)
      ∧ (page_templateIds_exist s →
         page_templateIds_exist
           (next_state s (CreatePageInstance e tid title values))).
Proof.
  unfold submitPageInstance. destruct invalid; [done|].
  destruct (find_by_control PageTemplate.id (PageInstanceForm.templateId form)
              (Viewer.pageTemplates this)) as [template|] eqn:Hfind; [|done].
  intros [= <- <- <-].
  apply find_by_control_Some in Hfind as [Hid Hin].
  split_and!; [done..| |].
  - by exists template.
  - intros s e ->. simpl in Hin.
    assert (PageTemplate.id template ∈ PageTemplate.id <$> pageTemplates s)
      as Hexists by (apply elem_of_ids; by exists template).
    split; [done|]. intros H1p.
    unfold page_templateIds_exist. simpl. by apply Forall_snoc.
Qed.

Lemma submitPageInstance_request_witness :
  submitPageInstance false sample_trim (viewing scenario1_before) page_form
  = Some ("pt-k3f9000001", "P2", PageInstanceForm.values page_form)
  ∧ PageInstanceForm.templateId page_form = Some "pt-k3f9000001".
Proof.
  assert (submitPageInstance false sample_trim (viewing scenario1_before)
            page_form
          = Some ("pt-k3f9000001", "P2", PageInstanceForm.values page_form))
    as Hsubmit by (vm_compute; reflexivity).
  split; [exact Hsubmit|].
  apply (submitPageInstance_request false sample_trim
           (viewing scenario1_before) page_form _ _ _ Hsubmit).
Defined.

Lemma selected_elem (selections : list (option string)) (x : string) :
  x ∈ selected selections → Some x ∈ selections ∧ x ≠ "".
Proof.
  intros (v & Hv & Hx)%list_elem_of_omap.
  destruct v as [y|]; [|done]. case_decide; [|done]. by injection Hx as ->.
Qed.

Lemma find_if_set_by_control {A} (id : A → string) (x : string)
    (templates : list A) :
  x ≠ "" →
  find_if_set id (Some x) templates = find_by_control id (Some x) templates.
Proof. intros Hx. unfold find_if_set. by rewrite decide_False. Qed.

Lemma validateBookSelections_templateId this form :
  BookInstanceForm.templateId (validateBookSelections this form)
  = BookInstanceForm.templateId form.
Proof.
  pose proof (validateBookSelections_cases this form) as Hcases.
  destruct (find_if_set BookTemplate.id (BookInstanceForm.templateId form)
              (Viewer.bookTemplates this)); by rewrite Hcases.
Qed.

(** X19: a book submitted from a form that [validateBookSelections] has
    just looked at, under a template id that is not empty, gives the
    service only ids that exist in the state the viewer shows: the
    template is a book template of the state and every page listed is a
    page instance of the state. *)
Theorem validated_book_submission
    (s : TemplateState) (invalid : bool) (trim : string → string)
    (form : BookInstanceForm.t) (e : Entropy) (tid title : string)
    (ids : list string) :
  submitBookInstance invalid trim (viewing s)
    (validateBookSelections (viewing s) form) = Some (tid, title, ids) →
  tid ≠ "" →
  refs_exist s (CreateBookInstance e tid title ids).
Proof.
  unfold submitBookInstance. destruct invalid; [done|]. simpl.
  case_bool_decide; [done|].
  rewrite validateBookSelections_templateId.
  destruct (find_by_control BookTemplate.id (BookInstanceForm.templateId form)
              (bookTemplates s)) as [template|] eqn:Hfind; [|done].
  case_bool_decide; [done|]. intros [= <- <- <-] Htid.
  pose proof (find_by_control_Some _ _ _ _ Hfind) as [Hform Hin].
  pose proof (validateBookSelections_cases (viewing s) form) as Hcases.
  simpl in Hcases. rewrite Hform in Hcases, Hfind.
  rewrite find_if_set_by_control, Hfind in Hcases by done.
  rewrite Hcases. simpl. split.
  - apply elem_of_ids. by exists template.
  - apply Forall_forall. intros x [Hx Hne]%selected_elem.
    apply clear_invalid_elem in Hx as [_ [Hx|Hx]]; [done|].
    unfold validPageIds in Hx.
    apply elem_of_list_to_set, elem_of_ids in Hx
      as (page & [_ Hpage]%list_elem_of_filter & Hpid).
    apply elem_of_ids. by exists page.
Qed.

Lemma validated_book_submission_witness :
  submitBookInstance false sample_trim (viewing scenario1_before)
    (validateBookSelections (viewing scenario1_before) book_form)
  = Some ("bt-k3f9000003", "B2", ["p-k3f9000002"])
  ∧ "bt-k3f9000003" ≠ ""
  ∧ refs_exist scenario1_before
      (CreateBookInstance (mkEntropy "k3f9" "000009") "bt-k3f9000003" "B2"
         ["p-k3f9000002"]).
Proof.
  assert (submitBookInstance false sample_trim (viewing scenario1_before)
            (validateBookSelections (viewing scenario1_before) book_form)
          = Some ("bt-k3f9000003", "B2", ["p-k3f9000002"])) as Hsubmit
    by (vm_compute; reflexivity).
  assert ("bt-k3f9000003" ≠ "") as Hne by done.
  split_and!; [done..|].
  apply (validated_book_submission scenario1_before false sample_trim
           book_form _ _ _ _ Hsubmit Hne).
Defined.

Lemma validateCatalogSelections_templateId this form :
  CatalogInstanceForm.templateId (validateCatalogSelections this form)
  = CatalogInstanceForm.templateId form.
Proof.
  pose proof (validateCatalogSelections_cases this form) as Hcases.
  destruct (find_if_set CatalogTemplate.id (CatalogInstanceForm.templateId form)
              (Viewer.catalogTemplates this)); by rewrite Hcases.
Qed.

(** X20: a catalog submitted from a form that
    [validateCatalogSelections] has just looked at, under a template id
    that is not empty, gives the service only ids that exist in the state
    the viewer shows: the template is a catalog template of the state and
    every book listed is a book instance of the state. *)
Theorem validated_catalog_submission
    (s : TemplateState) (invalid : bool) (trim : string → string)
    (form : CatalogInstanceForm.t) (e : Entropy) (tid title : string)
    (ids : list string) :
  submitCatalogInstance invalid trim (viewing s)
    (validateCatalogSelections (viewing s) form) = Some (tid, title, ids) →
  tid ≠ "" →
  refs_exist s (CreateCatalogInstance e tid title ids).
Proof.
  unfold submitCatalogInstance. destruct invalid; [done|]. simpl.
  case_bool_decide; [done|].
  rewrite validateCatalogSelections_templateId.
  destruct (find_by_control CatalogTemplate.id
              (CatalogInstanceForm.templateId form)
              (catalogTemplates s)) as [template|] eqn:Hfind; [|done].
  case_bool_decide; [done|]. intros [= <- <- <-] Htid.
  pose proof (find_by_control_Some _ _ _ _ Hfind) as [Hform Hin].
  pose proof (validateCatalogSelections_cases (viewing s) form) as Hcases.
  simpl in Hcases. rewrite Hform in Hcases, Hfind.
  rewrite find_if_set_by_control, Hfind in Hcases by done.
  rewrite Hcases. simpl. split.
  - apply elem_of_ids. by exists template.
  - apply Forall_forall. intros x [Hx Hne]%selected_elem.
    apply clear_invalid_elem in Hx as [_ [Hx|Hx]]; [done|].
    unfold validBookIds in Hx.
    apply elem_of_list_to_set, elem_of_ids in Hx
      as (book & [_ Hbook]%list_elem_of_filter & Hbid).
    apply elem_of_ids. by exists book.
Qed.

Lemma validated_catalog_submission_witness :
  submitCatalogInstance false sample_trim (viewing two_books_state)
    (validateCatalogSelections (viewing two_books_state) two_books_form)
  = Some ("ct-k3f9000004", "C1", ["b-k3f9000006"; "b-k3f9000007"])
  ∧ "ct-k3f9000004" ≠ ""
  ∧ refs_exist two_books_state
      (CreateCatalogInstance (mkEntropy "k3f9" "000008") "ct-k3f9000004" "C1"
         ["b-k3f9000006"; "b-k3f9000007"]).
Proof.
  assert (submitCatalogInstance false sample_trim (viewing two_books_state)
            (validateCatalogSelections (viewing two_books_state) two_books_form)
          = Some ("ct-k3f9000004", "C1", ["b-k3f9000006"; "b-k3f9000007"]))
    as Hsubmit by (vm_compute; reflexivity).
  assert ("ct-k3f9000004" ≠ "") as Hne by done.
  split_and!; [done..|].
  apply (validated_catalog_submission two_books_state false sample_trim
           two_books_form _ _ _ _ Hsubmit Hne).
Defined.

(** * Invariants from any state *)

(** X21: the remove operations keep the invariants from any state, not
    only from the states a run reaches. Each of the six keeps invariants
    2, 3 and 4 and the page and book clauses of invariant 1; the four
    that delete no catalog template as a side effect
    ([removeCatalogTemplate], [removePageInstance], [removeBookInstance],
    [removeCatalogInstance]) keep invariants 1 to 4 in full. *)
Theorem remove_keeps_invariants (k : RemoveKind) (s : TemplateState) (x : string) :
  (cascade_invariants s → cascade_invariants (remove k s x))
  ∧ (k ≠ KPageTemplate → k ≠ KBookTemplate →
     invariants_1_4 s → invariants_1_4 (remove k s x)).
Proof.
  split.
  - rewrite <-next_state_remove_op. apply next_state_preserves. by destruct k.
  - intros Hpt Hbt [Hcascade Hcatalog]%invariants_1_4_split.
    apply invariants_1_4_split. rewrite <-next_state_remove_op. split.
    + apply next_state_preserves; [by destruct k | done].
    + apply next_state_preserves_catalog_clause; [|by destruct k|done].
      by destruct k.
Qed.

Lemma remove_keeps_invariants_witness :
  cascade_invariants scenario1_before
  ∧ cascade_invariants (remove KPageTemplate scenario1_before "pt-k3f9000001").
Proof.
  assert (cascade_invariants scenario1_before) as Hinv.
  { unfold cascade_invariants. decide_invariants. }
  split; [exact Hinv|].
  by apply (remove_keeps_invariants KPageTemplate scenario1_before
              "pt-k3f9000001").
Defined.

(** * Shape A in [removeBookInstance] *)

(** X22: after [removeBookInstance] of [x], the catalogs are the catalogs
    of before with [x] filtered out of their lists, less those whose
    list became empty: a catalog with [x] filtered out
    is among them exactly when it listed some book other than [x], no
    catalog left lists [x] or has an empty list, and the books are the
    books of before without those of id [x]. *)
Theorem removeBookInstance_catalogs_cascade (s : TemplateState) (x : string) :
  books (removeBookInstance s x)
  = filter (λ book, BookInstance.id book ≠ x) (books s)
  ∧ (∀ c, c ∈ catalogs s →
       catalog_without_book x c ∈ catalogs (removeBookInstance s x)
       ↔ ¬ Forall (λ id, id = x) (CatalogInstance.bookInstanceIds c))
  ∧ (∀ c', c' ∈ catalogs (removeBookInstance s x) →
       ∃ c, c ∈ catalogs s ∧ c' = catalog_without_book x c)
  ∧ Forall (λ c', (x ∉ CatalogInstance.bookInstanceIds c')
                  ∧ CatalogInstance.bookInstanceIds c' ≠ [])
           (catalogs (removeBookInstance s x)).
Proof.
  split_and!; [done|..].
  - intros c Hc. rewrite removeBookInstance_catalogs_eq, <-only_page_iff.
    rewrite (elem_of_drop_refs (owner:=CatalogInstance_owner)). split.
    + intros (c0 & _ & Heq & Hne) Hnil.
      apply (f_equal CatalogInstance.bookInstanceIds) in Heq. simpl in Heq.
      simpl in Hne. rewrite <-Heq, Hnil in Hne. done.
    + intros Hne. exists c. split_and!; done.
  - intros c'. rewrite removeBookInstance_catalogs_eq.
    intros (c & Hc & -> & _)%(elem_of_drop_refs (owner:=CatalogInstance_owner)).
    by exists c.
  - rewrite removeBookInstance_catalogs_eq. apply Forall_forall. intros c' Hc'.
    pose proof (drop_refs_nonempty (owner:=CatalogInstance_owner)
                  (λ id, id ≠ x) (catalogs s)) as Hne.
    pose proof (drop_refs_kept (owner:=CatalogInstance_owner)
                  (λ id, id ≠ x) (catalogs s)) as Hkept.
    rewrite Forall_forall in Hne. rewrite Forall_forall in Hkept.
    split; [|by apply Hne].
    specialize (Hkept c' Hc'). rewrite Forall_forall in Hkept.
    intros Hx. by apply (Hkept x Hx).
Qed.

(** * Unique ids *)

Lemma NoDup_filter_keys {A} (f : A → string) (P : A → Prop)
    `{!∀ a, Decision (P a)} (l : list A) :
  NoDup (f <$> l) → NoDup (f <$> filter P l).
Proof.
  intros Hl. eapply sublist_NoDup; [exact Hl | apply filter_keys_sublist].
Qed.

Lemma NoDup_drop_refs_keys {A} {owner : RefOwner A} (P : string → Prop)
    `{!∀ x, Decision (P x)} (l : list A) :
  NoDup (key <$> l) → NoDup (key <$> drop_refs P l).
Proof.
  intros Hl. eapply sublist_NoDup; [exact Hl | apply drop_refs_keys_sublist].
Qed.

Lemma NoDup_snoc_keys {A} (f : A → string) (l : list A) (a : A) :
  f a ∉ f <$> l → NoDup (f <$> l) → NoDup (f <$> (l ++ [a])%list).
Proof.
  intros Hfresh Hl. rewrite fmap_app. apply NoDup_app. split_and!; [done| |].
  - intros i Hi [->|[]%elem_of_nil]%elem_of_cons. done.
  - apply NoDup_singleton.
Qed.

Lemma remove_keeps_unique_ids k s x : unique_ids s → unique_ids (remove k s x).
Proof.
  intros (Hpt & Hbt & Hct & Hp & Hb & Hc). unfold unique_ids.
  destruct k; simpl; split_and!; try done;
    try (by apply NoDup_filter_keys).
  - rewrite rpt_updatedBookTemplates_eq.
    by apply (NoDup_drop_refs_keys (owner:=BookTemplate_owner)).
  - rewrite rpt_cleanedCatalogTemplates_eq.
    by apply (NoDup_drop_refs_keys (owner:=CatalogTemplate_owner)).
  - unfold rpt_booksAfterTemplateCleanup. apply NoDup_filter_keys.
    rewrite rpt_updatedBooks_eq.
    by apply (NoDup_drop_refs_keys (owner:=BookInstance_owner)).
  - rewrite rpt_cleanedCatalogs_eq.
    by apply (NoDup_drop_refs_keys (owner:=CatalogInstance_owner)).
  - rewrite rbt_updatedCatalogTemplates_eq.
    by apply (NoDup_drop_refs_keys (owner:=CatalogTemplate_owner)).
  - rewrite rpi_updatedBooks_eq.
    by apply (NoDup_drop_refs_keys (owner:=BookInstance_owner)).
  - rewrite rpi_updatedCatalogs_eq.
    by apply (NoDup_drop_refs_keys (owner:=CatalogInstance_owner)).
  - by apply (NoDup_drop_refs_keys (owner:=CatalogInstance_owner)).
Qed.

Lemma next_state_keeps_unique_ids s op :
  fresh_id s op → unique_ids s → unique_ids (next_state s op).
Proof.
  intros Hfresh Huniq.
  destruct op;
    try (exact (remove_keeps_unique_ids KPageTemplate s _ Huniq));
    try (exact (remove_keeps_unique_ids KBookTemplate s _ Huniq));
    try (exact (remove_keeps_unique_ids KCatalogTemplate s _ Huniq));
    try (exact (remove_keeps_unique_ids KPageInstance s _ Huniq));
    try (exact (remove_keeps_unique_ids KBookInstance s _ Huniq));
    try (exact (remove_keeps_unique_ids KCatalogInstance s _ Huniq));
    destruct Huniq as (Hpt & Hbt & Hct & Hp & Hb & Hc);
    unfold fresh_id in Hfresh; simpl in Hfresh;
    unfold unique_ids; simpl; split_and!; try done;
    by apply NoDup_snoc_keys.
Qed.

(** X23: ids stay unique. Start from the empty state and run any
    sequence of create and remove operations in which [createId] never
    draws an id that an entity of the same kind already carries. Then in
    the final state no two entities of a collection share an id; a
    remove keeps ids unique from any state. *)
Theorem ids_stay_unique (ops : list Op) :
  fresh_ids defaultState ops →
  unique_ids (final_state ops)
  ∧ ∀ k s x, unique_ids s → unique_ids (remove k s x).
Proof.
  intros Hfresh. split; [|apply remove_keeps_unique_ids].
  unfold final_state.
  assert (unique_ids defaultState) as Hempty.
  { unfold unique_ids. simpl. split_and!; apply NoDup_nil_2. }
  revert Hfresh Hempty. generalize defaultState.
  induction ops as [|op ops IH]; intros s Hfresh Huniq; [done|].
  destruct Hfresh as [Hop Hrest]. simpl. apply IH; [done|].
  by apply next_state_keeps_unique_ids.
Qed.

Lemma ids_stay_unique_witness :
  fresh_ids defaultState scenario2
  ∧ unique_ids (final_state scenario2).
Proof.
  assert (fresh_ids defaultState scenario2) as Hfresh.
  { simpl. unfold fresh_id. simpl. split_and!; try done; by_evaluation. }
  split; [exact Hfresh|].
  apply (ids_stay_unique scenario2 Hfresh).
Defined.
